(** * Call/conversation orchestration engine: a shallow embedding

    The development follows the TypeScript sources:
    - [src/lib/gradeParser.ts]           (module [GradeParser])
    - [src/lib/gradeExtractorOpenAI.ts]  (module [GradeExtractor])
    - [src/lib/cohere.ts]                (module [Cohere])
    - [src/app/api/twilio/webhook/route.ts] (module [Webhook])

    JavaScript strings are modelled as [string] (sequences of 8-bit
    characters); case mapping and white space are those of the ASCII range.
    Storage (the Prisma client) is an explicit database value threaded
    through a state-and-exception monad; each storage call may throw, as
    decided by a fault schedule that is part of the request environment. *)

From Stdlib Require Import String Ascii List Bool Arith ZArith QArith Lia.
Import ListNotations.

Set Warnings "-register-all".

Local Open Scope list_scope.
Local Open Scope string_scope.
Local Open Scope nat_scope.

(* ================================================================== *)
(** ** JavaScript string primitives *)
(* ================================================================== *)

Module Js.

Definition chars (s : string) : list ascii := list_ascii_of_string s.
Definition str (l : list ascii) : string := string_of_list_ascii l.

Definition code (c : ascii) : nat := nat_of_ascii c.

Definition in_range (lo hi : nat) (c : ascii) : bool :=
  (lo <=? code c) && (code c <=? hi).

Definition is_upper : ascii -> bool := in_range 65 90.
Definition is_lower : ascii -> bool := in_range 97 122.
Definition is_alpha (c : ascii) : bool := is_upper c || is_lower c.
Definition is_digit : ascii -> bool := in_range 48 57.

(** White space and line terminators of the ASCII range: the characters
    [String.prototype.trim] removes and the class [\s] accepts. *)
Definition is_space (c : ascii) : bool :=
  in_range 9 13 c || (code c =? 32).

Definition lower_char (c : ascii) : ascii :=
  if is_upper c then ascii_of_nat (code c + 32) else c.

Definition char_eqb (a b : ascii) : bool := Ascii.eqb a b.

(** [s.toLowerCase()] *)
Definition toLowerCase (s : string) : string :=
  str (map lower_char (chars s)).

Fixpoint starts_with (p s : list ascii) : bool :=
  match p, s with
  | [], _ => true
  | _ :: _, [] => false
  | a :: p', b :: s' => char_eqb a b && starts_with p' s'
  end.

Fixpoint includes_chars (s sub : list ascii) : bool :=
  starts_with sub s ||
  match s with
  | [] => false
  | _ :: s' => includes_chars s' sub
  end.

(** [s.includes(sub)] *)
Definition includes (s sub : string) : bool :=
  includes_chars (chars s) (chars sub).

Fixpoint drop_space (l : list ascii) : list ascii :=
  match l with
  | c :: l' => if is_space c then drop_space l' else l
  | [] => []
  end.

Definition trim_chars (l : list ascii) : list ascii :=
  rev (drop_space (rev (drop_space l))).

(** [s.trim()] *)
Definition trim (s : string) : string := str (trim_chars (chars s)).

(** Truthiness of a string value: the empty string is falsy. *)
Definition truthy (s : string) : bool :=
  match s with EmptyString => false | _ => true end.

(** Truthiness of a possibly undefined (or null) string. *)
Definition truthy_opt (o : option string) : bool :=
  match o with Some s => truthy s | None => false end.

(** [o || d] for a possibly undefined string [o]. *)
Definition or_else (o : option string) (d : string) : string :=
  match o with
  | Some s => if truthy s then s else d
  | None => d
  end.

(** [s.replace(/[...]/g, '')] for a character class given as a predicate. *)
Definition remove_chars (p : ascii -> bool) (s : string) : string :=
  str (filter (fun c => negb (p c)) (chars s)).

(** [s.replace(/c/g, r)] for a single character [c]. *)
Definition replace_char (c : ascii) (r : string) (s : string) : string :=
  str (flat_map (fun x => if char_eqb x c then chars r else [x]) (chars s)).

(** [l.join(sep)] *)
Fixpoint join (sep : string) (l : list string) : string :=
  match l with
  | [] => EmptyString
  | [x] => x
  | x :: l' => x ++ sep ++ join sep l'
  end.

(** [s.substring(0, n)] *)
Fixpoint substring0 (n : nat) (s : string) : string :=
  match n, s with
  | S n', String c s' => String c (substring0 n' s')
  | _, _ => EmptyString
  end.

(** The double quote, which a literal cannot hold. *)
Definition dq : string := String "034" EmptyString.

(** Decimal rendering of a natural number, as a template literal does. *)
Definition digit_char (n : nat) : ascii := ascii_of_nat (48 + n).

Fixpoint nat_digits (fuel n : nat) (acc : list ascii) : list ascii :=
  match fuel with
  | O => acc
  | S f =>
      let acc' := digit_char (n mod 10) :: acc in
      if n / 10 =? 0 then acc' else nat_digits f (n / 10) acc'
  end.

Definition of_nat (n : nat) : string := str (nat_digits (S n) n []).

(** *** Numbers

    A JavaScript number is a rational or [NaN]; rounding to binary
    floating point and the infinities are not modelled. *)
Inductive number : Type :=
| Num (q : Q)
| NaN.

Definition isNaN (n : number) : bool :=
  match n with NaN => true | Num _ => false end.

Definition digit_val (c : ascii) : nat := code c - 48.

Fixpoint digits_val (l : list ascii) (acc : nat) : nat :=
  match l with
  | [] => acc
  | c :: l' => digits_val l' (10 * acc + digit_val c)
  end.

Fixpoint split_dot (l : list ascii) : list ascii * option (list ascii) :=
  match l with
  | [] => ([], None)
  | c :: l' =>
      if char_eqb c "." then ([], Some l')
      else let '(a, b) := split_dot l' in (c :: a, b)
  end.

Definition is_nil {A : Type} (l : list A) : bool :=
  match l with [] => true | _ => false end.

(** An unsigned decimal literal: [ddd], [ddd.ddd], [ddd.] or [.ddd]. *)
Definition decimal (l : list ascii) : option Q :=
  match split_dot l with
  | (ip, None) =>
      if negb (is_nil ip) && forallb is_digit ip
      then Some (Z.of_nat (digits_val ip 0) # 1)
      else None
  | (ip, Some fp) =>
      if negb (is_nil ip && is_nil fp)
         && forallb is_digit ip && forallb is_digit fp
      then Some (Qred (Z.of_nat (digits_val (ip ++ fp)%list 0)
                       # Pos.of_nat (10 ^ List.length fp)))
      else None
  end.

(** [Number(s)] on decimal literals with an optional sign, surrounding
    white space trimmed; white space alone is 0; every other text is [NaN]
    (exponents, hexadecimal, binary and octal literals and [Infinity] are
    outside the model). *)
Definition Number (s : string) : number :=
  match trim_chars (chars s) with
  | [] => Num 0%Q
  | c :: rest =>
      if char_eqb c "-" then
        match decimal rest with
        | Some q => Num (Qopp q)
        | None => NaN
        end
      else
        match decimal (if char_eqb c "+" then rest else c :: rest) with
        | Some q => Num q
        | None => NaN
        end
  end.

End Js.

(* ================================================================== *)
(** ** Regular expressions with backtracking, as the engine runs them *)
(* ================================================================== *)

Module Regex.

(** The constructs the sources use: character classes, sequence, ordered
    alternation, greedy bounded repetition and named capture groups. *)
Inductive re : Type :=
| Eps
| Cls (p : ascii -> bool)
| Seq (a b : re)
| Alt (a b : re)
| Rep (lo : nat) (hi : option nat) (a : re)
| Cap (name : string) (a : re).

Definition captures : Type := list (string * string).

Fixpoint group (c : captures) (name : string) : option string :=
  match c with
  | [] => None
  | (n, v) :: c' => if String.eqb n name then Some v else group c' name
  end.

Definition below (hi : option nat) (i : nat) : bool :=
  match hi with
  | None => true
  | Some h => i <? h
  end.

(** The text consumed between the input [s] and its suffix [s']. *)
Definition consumed (s s' : list ascii) : string :=
  Js.str (firstn (List.length s - List.length s') s).

Section Matcher.
Context {R : Type}.

(** [run r s c k]: match [r] at the head of [s] with captures [c], then
    continue with [k]; alternatives are tried in priority order and the
    first overall success wins. *)
Fixpoint run (r : re) (s : list ascii) (c : captures)
         (k : list ascii -> captures -> option R) {struct r} : option R :=
  match r with
  | Eps => k s c
  | Cls p =>
      match s with
      | x :: s' => if p x then k s' c else None
      | [] => None
      end
  | Seq a b => run a s c (fun s' c' => run b s' c' k)
  | Alt a b =>
      match run a s c k with
      | Some x => Some x
      | None => run b s c k
      end
  | Cap name a =>
      run a s c (fun s' c' => k s' ((name, consumed s s') :: c'))
  | Rep lo hi a =>
      (fix loop (fuel i : nat) (s : list ascii) (c : captures) : option R :=
         match fuel with
         | O => None
         | S f =>
             let again :=
               if below hi i then
                 run a s c (fun s' c' =>
                   if (lo <=? i) && (List.length s' =? List.length s)
                   then None
                   else loop f (S i) s' c')
               else None in
             match again with
             | Some x => Some x
             | None => if lo <=? i then k s c else None
             end
         end) (lo + List.length s + 1) 0 s c
  end.
End Matcher.

(** A match: the unmatched rest of the input and the captures. *)
Definition match_at (r : re) (s : list ascii) : option (list ascii * captures) :=
  run r s [] (fun s' c => Some (s', c)).

(** [s.match(r)] for a regular expression without the [g] flag: the
    leftmost match; only the capture groups are kept. *)
Fixpoint search (r : re) (s : list ascii) : option captures :=
  match match_at r s with
  | Some (_, c) => Some c
  | None =>
      match s with
      | [] => None
      | _ :: s' => search r s'
      end
  end.

(** As [search], returning the matched text. *)
Fixpoint search_text (r : re) (s : list ascii) : option string :=
  match match_at r s with
  | Some (s', _) => Some (consumed s s')
  | None =>
      match s with
      | [] => None
      | _ :: s' => search_text r s'
      end
  end.

(** [s.split(r)] for a separator without capture groups. [piece] holds,
    reversed, the characters read since the last separator. *)
Fixpoint split_loop (fuel : nat) (r : re) (piece s : list ascii)
  : list string :=
  match fuel with
  | O => [Js.str (rev piece ++ s)%list]
  | S f =>
      match s with
      | [] => [Js.str (rev piece)]
      | x :: s' =>
          match match_at r s with
          | Some (rest, _) =>
              if (List.length rest =? List.length s)
                 && (match piece with [] => true | _ => false end)
              then split_loop f r (x :: piece) s'
              else Js.str (rev piece) :: split_loop f r [] rest
          | None => split_loop f r (x :: piece) s'
          end
      end
  end.

Definition split (r : re) (s : string) : list string :=
  match Js.chars s with
  | [] => match match_at r [] with Some _ => [] | None => [EmptyString] end
  | l => split_loop (2 * List.length l + 2) r [] l
  end.

(** *** Building blocks *)

(** A literal character; [ci] is the [i] flag. *)
Definition chr (ci : bool) (x : ascii) : re :=
  Cls (fun c => if ci then Js.char_eqb (Js.lower_char c) (Js.lower_char x)
                else Js.char_eqb c x).

Fixpoint lit_chars (ci : bool) (l : list ascii) : re :=
  match l with
  | [] => Eps
  | [x] => chr ci x
  | x :: l' => Seq (chr ci x) (lit_chars ci l')
  end.

Definition lit (ci : bool) (s : string) : re := lit_chars ci (Js.chars s).

Definition one_of (s : string) (c : ascii) : bool :=
  existsb (Js.char_eqb c) (Js.chars s).

Definition star (a : re) : re := Rep 0 None a.
Definition plus (a : re) : re := Rep 1 None a.
Definition opt (a : re) : re := Rep 0 (Some 1) a.
Definition space : re := Cls Js.is_space.
Definition digit : re := Cls Js.is_digit.

Fixpoint seqs (l : list re) : re :=
  match l with
  | [] => Eps
  | [a] => a
  | a :: l' => Seq a (seqs l')
  end.

Fixpoint alts (l : list re) : re :=
  match l with
  | [] => Eps
  | [a] => a
  | a :: l' => Alt a (alts l')
  end.

End Regex.

(* ================================================================== *)
(** ** src/lib/gradeParser.ts *)
(* ================================================================== *)

Module GradeParser.
Import Regex.

Record ParsedGradeEntry : Type := {
  studentName : string;
  subject : option string;
  grade : option Js.number
}.

Record ParsedGradesResult : Type := {
  className : option string;
  entries : list ParsedGradeEntry
}.

(** [[A-Za-z0-9\-]] *)
Definition class_id_char (c : ascii) : bool :=
  Js.is_alpha c || Js.is_digit c || Js.char_eqb c "-".

(** [[A-Za-z'\- ]] *)
Definition name_char (c : ascii) : bool :=
  Js.is_alpha c || one_of "'- " c.

(** [[A-Za-z &]] *)
Definition subject_char (c : ascii) : bool :=
  Js.is_alpha c || one_of " &" c.

(** [/class\s+([A-Za-z0-9\-]+)/i]; the group is indexed 1. *)
Definition class_rx : re :=
  seqs [lit true "class"; plus space; Cap "1" (plus (Cls class_id_char))].

(** [[;\.|\n]| and |, and |,\s+] with the [i] flag *)
Definition separator_rx : re :=
  alts [Cls (fun c => one_of ";.|" c || Js.char_eqb c "010");
        lit true " and ";
        lit true ", and ";
        Seq (chr true ",") (plus space)].

(** [(?<name>[A-Za-z'\- ]{2,50})] *)
Definition name_group : re := Cap "name" (Rep 2 (Some 50) (Cls name_char)).

(** [(?<grade>\d{1,3}(?:\.\d+)?)] *)
Definition grade_group : re :=
  Cap "grade" (Seq (Rep 1 (Some 3) digit)
                   (opt (Seq (chr true ".") (plus digit)))).

(** [(?<subject>[A-Za-z &]+)] *)
Definition subject_group : re := Cap "subject" (plus (Cls subject_char)).

(** Name got 85 in Math *)
Definition rx_name_grade_subject : re :=
  seqs [name_group; plus space;
        opt (alts [lit true "got"; lit true "has"; lit true "scored";
                   seqs [lit true "scored"; plus space; lit true "an"];
                   lit true "received"]);
        star space; grade_group; star space;
        opt (alts [lit true "in"; lit true "for"]);
        star space; opt subject_group].

(** Name: Subject 85 *)
Definition rx_name_subject_grade : re :=
  seqs [name_group; Cls (one_of ":-"); star space; subject_group;
        star space; grade_group].

(** Subject Name 85 (less common) *)
Definition rx_subject_name_grade : re :=
  seqs [subject_group; plus space; name_group; star space; grade_group].

Definition gradeRegexes : list re :=
  [rx_name_grade_subject; rx_name_subject_grade; rx_subject_name_grade].

(** [/(?<name>[A-Za-z'\- ]{2,50})\s+(?<grade>\d{1,3}(?:\.\d+)?)/] *)
Definition fallback_rx : re :=
  seqs [name_group; plus space; grade_group].

Definition group_or_empty (c : captures) (n : string) : string :=
  Js.or_else (group c n) EmptyString.

(** The inner loop over [gradeRegexes]: the entry of the first expression
    that matches with a non-empty student name. *)
Fixpoint first_entry (rxs : list re) (part : string)
  : option ParsedGradeEntry :=
  match rxs with
  | [] => None
  | rx :: rxs' =>
      match search rx (Js.chars part) with
      | Some m =>
          let studentName := Js.trim (group_or_empty m "name") in
          let subject :=
            let s := Js.trim (group_or_empty m "subject") in
            if Js.truthy s then Some s else None in
          let gradeStr := Js.trim (group_or_empty m "grade") in
          let grade :=
            if Js.truthy gradeStr then Some (Js.Number gradeStr) else None in
          if Js.truthy studentName
          then Some {| studentName := studentName;
                       subject := subject; grade := grade |}
          else first_entry rxs' part
      | None => first_entry rxs' part
      end
  end.

(** The body of the loop over the parts: the entries one part adds. *)
Definition part_entries (part : string) : list ParsedGradeEntry :=
  match first_entry gradeRegexes part with
  | Some e => [e]
  | None =>
      match search fallback_rx (Js.chars part) with
      | Some m =>
          [{| studentName := Js.trim (group_or_empty m "name");
              subject := None;
              grade := Some (Js.Number (group_or_empty m "grade")) |}]
      | None => []
      end
  end.

Definition parse_parts (text : string) : list string :=
  filter Js.truthy (map Js.trim (split separator_rx text)).

Definition parseGrades (text : string) : ParsedGradesResult :=
  if negb (Js.truthy text) then {| className := None; entries := [] |}
  else
    let className :=
      match search class_rx (Js.chars text) with
      | Some m => group m "1"
      | None => None
      end in
    {| className := className;
       entries := flat_map part_entries (parse_parts text) |}.

End GradeParser.

(* ================================================================== *)
(** ** Exceptions, promises and the handler monad *)
(* ================================================================== *)

(** A thrown [Error]; only its message is ever inspected. *)
Inductive exn : Type :=
| Error (message : string).

Definition message_of (e : exn) : string :=
  match e with Error m => m end.

Inductive result (A : Type) : Type :=
| Ok (a : A)
| Throw (e : exn).
Arguments Ok {A} a.
Arguments Throw {A} e.

(** How a call to an external service, raced against the ten-second
    timer, settles. *)
Inductive outcome (A : Type) : Type :=
| Resolved (a : A)
| Rejected (e : exn)
| TimedOut.
Arguments Resolved {A} a.
Arguments Rejected {A} e.
Arguments TimedOut {A}.

(** [new Error('AI response timeout')], what the timer rejects with. *)
Definition timeout_error : exn := Error "AI response timeout".

(** [await Promise.race([p, timeoutPromise])] *)
Definition race {A : Type} (o : outcome A) : result A :=
  match o with
  | Resolved a => Ok a
  | Rejected e => Throw e
  | TimedOut => Throw timeout_error
  end.

(* ================================================================== *)
(** ** The storage layer (Prisma client) *)
(* ================================================================== *)

Module Prisma.

(** Modelled from the spec: the Prisma schema (the declarations of the
    tables) is not among the sources. The tables follow the data model of
    the specification (Caller, Call, Conversation, Message, Escalation,
    DictationGroup, DictationSubject, RecordEntry) under the names the
    handler uses, with the fields it reads and writes. Identifiers are
    drawn from a counter, rows are kept in creation order, and [findFirst]
    returns the first row in that order. Creation time stamps are left
    out. *)
Definition id : Type := nat.

Record User : Type := {
  user_id : id;
  user_phone : string;
  user_role : string;
  user_status : string
}.

Record Call : Type := {
  call_id : id;
  call_userId : id;
  twilioCallSid : string;
  call_status : string;
  assignedCounselorId : option id;
  endedAt : option nat;
  conversationId : option id
}.

Record Conversation : Type := {
  conv_id : id;
  conv_userId : id
}.

Record Message : Type := {
  msg_id : id;
  msg_conversationId : id;
  msg_role : string;
  msg_content : string
}.

Record Escalation : Type := {
  esc_id : id;
  esc_callId : id;
  esc_counselorId : id;
  esc_notes : string
}.

Record Classroom : Type := {
  classroom_id : id;
  classroom_name : string;
  classroom_teacherId : id
}.

Record Student : Type := {
  student_id : id;
  student_name : string;
  student_classroomId : option id
}.

Record Grade : Type := {
  grade_id : id;
  grade_studentId : id;
  grade_subject : string;
  grade_value : Js.number
}.

Record Db : Type := {
  users : list User;
  calls : list Call;
  conversations : list Conversation;
  messages : list Message;
  escalations : list Escalation;
  classrooms : list Classroom;
  students : list Student;
  grades : list Grade;
  next_id : id
}.

Definition empty : Db :=
  {| users := []; calls := []; conversations := []; messages := [];
     escalations := []; classrooms := []; students := []; grades := [];
     next_id := 0 |}.

(** Thrown by [update] when no row matches (P2025). *)
Definition not_found : exn := Error "Record to update not found.".

(** Thrown when the storage layer itself fails. *)
Definition storage_error : exn := Error "Can't reach database server".

(** *** Row updates *)

Definition with_users (d : Db) (l : list User) : Db :=
  {| users := l; calls := calls d; conversations := conversations d;
     messages := messages d; escalations := escalations d;
     classrooms := classrooms d; students := students d;
     grades := grades d; next_id := next_id d |}.

Definition with_calls (d : Db) (l : list Call) : Db :=
  {| users := users d; calls := l; conversations := conversations d;
     messages := messages d; escalations := escalations d;
     classrooms := classrooms d; students := students d;
     grades := grades d; next_id := next_id d |}.

Definition fresh (d : Db) : Db :=
  {| users := users d; calls := calls d; conversations := conversations d;
     messages := messages d; escalations := escalations d;
     classrooms := classrooms d; students := students d;
     grades := grades d; next_id := S (next_id d) |}.

Definition add_user (u : User) (d : Db) : Db :=
  fresh (with_users d (users d ++ [u])%list).

Definition add_call (c : Call) (d : Db) : Db :=
  fresh (with_calls d (calls d ++ [c])%list).

Definition add_conversation (c : Conversation) (d : Db) : Db :=
  {| users := users d; calls := calls d;
     conversations := (conversations d ++ [c])%list;
     messages := messages d; escalations := escalations d;
     classrooms := classrooms d; students := students d;
     grades := grades d; next_id := S (next_id d) |}.

Definition add_message (m : Message) (d : Db) : Db :=
  {| users := users d; calls := calls d; conversations := conversations d;
     messages := (messages d ++ [m])%list; escalations := escalations d;
     classrooms := classrooms d; students := students d;
     grades := grades d; next_id := S (next_id d) |}.

Definition add_escalation (e : Escalation) (d : Db) : Db :=
  {| users := users d; calls := calls d; conversations := conversations d;
     messages := messages d; escalations := (escalations d ++ [e])%list;
     classrooms := classrooms d; students := students d;
     grades := grades d; next_id := S (next_id d) |}.

Definition add_classroom (c : Classroom) (d : Db) : Db :=
  {| users := users d; calls := calls d; conversations := conversations d;
     messages := messages d; escalations := escalations d;
     classrooms := (classrooms d ++ [c])%list; students := students d;
     grades := grades d; next_id := S (next_id d) |}.

Definition add_student (s : Student) (d : Db) : Db :=
  {| users := users d; calls := calls d; conversations := conversations d;
     messages := messages d; escalations := escalations d;
     classrooms := classrooms d; students := (students d ++ [s])%list;
     grades := grades d; next_id := S (next_id d) |}.

Definition add_grade (g : Grade) (d : Db) : Db :=
  {| users := users d; calls := calls d; conversations := conversations d;
     messages := messages d; escalations := escalations d;
     classrooms := classrooms d; students := students d;
     grades := (grades d ++ [g])%list; next_id := S (next_id d) |}.

Definition set_call_status (s : string) (c : Call) : Call :=
  {| call_id := call_id c; call_userId := call_userId c;
     twilioCallSid := twilioCallSid c; call_status := s;
     assignedCounselorId := assignedCounselorId c;
     endedAt := endedAt c; conversationId := conversationId c |}.

Definition set_call_endedAt (t : nat) (c : Call) : Call :=
  {| call_id := call_id c; call_userId := call_userId c;
     twilioCallSid := twilioCallSid c; call_status := call_status c;
     assignedCounselorId := assignedCounselorId c;
     endedAt := Some t; conversationId := conversationId c |}.

Definition set_call_counselor (k : id) (c : Call) : Call :=
  {| call_id := call_id c; call_userId := call_userId c;
     twilioCallSid := twilioCallSid c; call_status := call_status c;
     assignedCounselorId := Some k;
     endedAt := endedAt c; conversationId := conversationId c |}.

Definition set_call_conversation (v : id) (c : Call) : Call :=
  {| call_id := call_id c; call_userId := call_userId c;
     twilioCallSid := twilioCallSid c; call_status := call_status c;
     assignedCounselorId := assignedCounselorId c;
     endedAt := endedAt c; conversationId := Some v |}.

Definition set_user_status (s : string) (u : User) : User :=
  {| user_id := user_id u; user_phone := user_phone u;
     user_role := user_role u; user_status := s |}.

(** *** Queries *)

Definition call_by_sid (sid : string) (d : Db) : option Call :=
  find (fun c => String.eqb (twilioCallSid c) sid) (calls d).

Definition call_by_id (i : id) (d : Db) : option Call :=
  find (fun c => call_id c =? i) (calls d).

Definition user_by_id (i : id) (d : Db) : option User :=
  find (fun u => user_id u =? i) (users d).

Definition user_by_phone (p : string) (d : Db) : option User :=
  find (fun u => String.eqb (user_phone u) p) (users d).

Definition user_first (role status : string) (d : Db) : option User :=
  find (fun u => String.eqb (user_role u) role
                 && String.eqb (user_status u) status) (users d).

Definition is_message (conv : id) (role content : string) (m : Message)
  : bool :=
  (msg_conversationId m =? conv) && String.eqb (msg_role m) role
  && String.eqb (msg_content m) content.

Definition message_first (conv : id) (role content : string) (d : Db)
  : option Message :=
  find (is_message conv role content) (messages d).

Definition messages_of (conv : id) (d : Db) : list Message :=
  filter (fun m => msg_conversationId m =? conv) (messages d).

Definition classroom_first (name : string) (teacher : id) (d : Db)
  : option Classroom :=
  find (fun c => String.eqb (classroom_name c) name
                 && (classroom_teacherId c =? teacher)) (classrooms d).

(** [where: { name, classroomId }]: an undefined [classroomId] puts no
    condition on the column. *)
Definition student_first (name : string) (classroom : option id) (d : Db)
  : option Student :=
  find (fun s => String.eqb (student_name s) name
                 && match classroom with
                    | None => true
                    | Some k =>
                        match student_classroomId s with
                        | Some k' => k' =? k
                        | None => false
                        end
                    end) (students d).

(** *** Writes *)

Definition update_calls (i : id) (f : Call -> Call) (d : Db)
  : result Call * Db :=
  match call_by_id i d with
  | Some c =>
      (Ok (f c),
       with_calls d (map (fun x => if call_id x =? i then f x else x)
                         (calls d)))
  | None => (Throw not_found, d)
  end.

Definition update_users (i : id) (f : User -> User) (d : Db)
  : result User * Db :=
  match user_by_id i d with
  | Some u =>
      (Ok (f u),
       with_users d (map (fun x => if user_id x =? i then f x else x)
                         (users d)))
  | None => (Throw not_found, d)
  end.

(** [user.upsert({ where: { phone }, update: {}, create: { phone, role } })];
    [status] is the column default of the schema. *)
Definition upsert_user (phone role status : string) (d : Db)
  : result User * Db :=
  match user_by_phone phone d with
  | Some u => (Ok u, d)
  | None =>
      let u := {| user_id := next_id d; user_phone := phone;
                  user_role := role; user_status := status |} in
      (Ok u, add_user u d)
  end.

Definition create_conversation (user : id) (d : Db)
  : result Conversation * Db :=
  let c := {| conv_id := next_id d; conv_userId := user |} in
  (Ok c, add_conversation c d).

(** [call.create] with [conversation: { connect: { id } }]. *)
Definition create_call (user : id) (sid status : string) (conv : id) (d : Db)
  : result Call * Db :=
  let c := {| call_id := next_id d; call_userId := user;
              twilioCallSid := sid; call_status := status;
              assignedCounselorId := None; endedAt := None;
              conversationId := Some conv |} in
  (Ok c, add_call c d).

Definition create_message (conv : id) (role content : string) (d : Db)
  : result Message * Db :=
  let m := {| msg_id := next_id d; msg_conversationId := conv;
              msg_role := role; msg_content := content |} in
  (Ok m, add_message m d).

Definition create_escalation (call counselor : id) (notes : string) (d : Db)
  : result Escalation * Db :=
  let e := {| esc_id := next_id d; esc_callId := call;
              esc_counselorId := counselor; esc_notes := notes |} in
  (Ok e, add_escalation e d).

Definition create_classroom (name : string) (teacher : id) (d : Db)
  : result Classroom * Db :=
  let c := {| classroom_id := next_id d; classroom_name := name;
              classroom_teacherId := teacher |} in
  (Ok c, add_classroom c d).

Definition create_student (name : string) (classroom : option id) (d : Db)
  : result Student * Db :=
  let s := {| student_id := next_id d; student_name := name;
              student_classroomId := classroom |} in
  (Ok s, add_student s d).

Definition create_grade (student : id) (subject : string) (v : Js.number)
           (d : Db) : result Grade * Db :=
  let g := {| grade_id := next_id d; grade_studentId := student;
              grade_subject := subject; grade_value := v |} in
  (Ok g, add_grade g d).

End Prisma.

(** The world a handler runs in: the database and the schedule of storage
    faults still to come ([true]: the next storage call throws). An empty
    schedule means that no further call fails. *)
Record World : Type := {
  db : Prisma.Db;
  faults : list bool
}.

Definition M (A : Type) : Type := World -> result A * World.

Definition ret {A : Type} (a : A) : M A := fun w => (Ok a, w).

Definition bind {A B : Type} (m : M A) (f : A -> M B) : M B :=
  fun w =>
    match m w with
    | (Ok a, w') => f a w'
    | (Throw e, w') => (Throw e, w')
    end.

Definition throw {A : Type} (e : exn) : M A := fun w => (Throw e, w).

(** [try { m } catch (e) { h e }] *)
Definition try_catch {A : Type} (m : M A) (h : exn -> M A) : M A :=
  fun w =>
    match m w with
    | (Ok a, w') => (Ok a, w')
    | (Throw e, w') => h e w'
    end.

(** [await] of a settled external call. *)
Definition await {A : Type} (r : result A) : M A :=
  fun w => (r, w).

(** One call to the storage layer that may write. *)
Definition exec {A : Type} (op : Prisma.Db -> result A * Prisma.Db) : M A :=
  fun w =>
    match faults w with
    | true :: fs => (Throw Prisma.storage_error, {| db := db w; faults := fs |})
    | false :: fs =>
        let '(r, d) := op (db w) in (r, {| db := d; faults := fs |})
    | [] =>
        let '(r, d) := op (db w) in (r, {| db := d; faults := [] |})
    end.

(** One read-only call to the storage layer. *)
Definition query {A : Type} (f : Prisma.Db -> A) : M A :=
  exec (fun d => (Ok (f d), d)).

Declare Scope monad_scope.
Delimit Scope monad_scope with monad.
Notation "x <- m ;; k" := (bind m (fun x => k))
  (at level 100, m at next level, right associativity) : monad_scope.
Notation "m ;;; k" := (bind m (fun _ => k))
  (at level 100, right associativity) : monad_scope.
Local Open Scope monad_scope.

(** [if (c) { m }] *)
Definition when (c : bool) (m : M unit) : M unit :=
  if c then m else ret tt.

(** A statement whose value is dropped. *)
Definition void {A : Type} (m : M A) : M unit := (_ <- m ;; ret tt).

(* ================================================================== *)
(** ** src/lib/gradeExtractorOpenAI.ts *)
(* ================================================================== *)

Module GradeExtractor.

(** A JavaScript value of unknown shape, as a service or [JSON.parse]
    hands it back. *)
Inductive value : Type :=
| VUndefined
| VNull
| VBool (b : bool)
| VNumber (n : Js.number)
| VString (s : string)
| VArray (items : list value)
| VObject (fields : list (string * value)).

(** [typeof v === 'object' && v !== null] *)
Definition is_object (v : value) : bool :=
  match v with
  | VArray _ | VObject _ => true
  | _ => false
  end.

Fixpoint assoc (k : string) (l : list (string * value)) : value :=
  match l with
  | [] => VUndefined
  | (k', v) :: l' => if String.eqb k' k then v else assoc k l'
  end.

(** [v[k]] for a property name [k] that is no array index. *)
Definition get (v : value) (k : string) : value :=
  match v with
  | VObject fields => assoc k fields
  | _ => VUndefined
  end.

Record AIGradeEntry : Type := {
  studentName : string;
  subject : option string;
  grade : option Js.number
}.

Record AIExtractResult : Type := {
  className : option string;
  entries : list AIGradeEntry;
  missing : option (list string);
  assistantReply : option string
}.

(** The request sent to the chat-completion service. *)
Record CompletionRequest : Type := {
  model : string;
  system_content : string;
  user_content : string;
  max_tokens : nat
}.

Definition quoted (s : string) : string := Js.dq ++ s ++ Js.dq.

Definition system : string :=
  "You are an assistant that extracts structured grade data from free-form spoken teacher input. " ++
  "Output a single JSON object only (no explanation) with these keys: " ++
  quoted "className" ++ " (string or null), " ++ quoted "entries" ++
  " (array of {" ++ quoted "studentName" ++ ":string, " ++ quoted "subject" ++
  ":string|null, " ++ quoted "grade" ++ ":number|null}), and " ++
  quoted "missing" ++
  " (array of student names the teacher mentioned but did not provide grades for). " ++
  "If you cannot determine something, use null for that value. Keep " ++
  quoted "assistantReply" ++
  " short (a one-sentence, polite confirmation or clarification request).".

Definition user (text : string) : string :=
  "Extract grades from this teacher statement exactly (do not invent new students): " ++
  quoted (Js.replace_char "034" ("\" ++ Js.dq) text).

Definition request (text : string) : CompletionRequest :=
  {| model := "gpt-4"; system_content := system;
     user_content := user text; max_tokens := 400 |}.

Definition with_reply (r : AIExtractResult) (reply : string)
  : AIExtractResult :=
  {| className := className r; entries := entries r;
     missing := missing r; assistantReply := Some reply |}.

Definition empty : AIExtractResult :=
  {| className := None; entries := []; missing := None;
     assistantReply :=
       Some "I could not parse any grades. Could you repeat them more clearly?" |}.

Definition trouble_extracting : string :=
  "I had trouble extracting structured grades. Could you rephrase?".

Definition trouble_parsing : string :=
  "I am having trouble parsing that right now. Could you repeat?".

(** The bytes the source file holds between the two halves of the line. *)
Definition dash : string :=
  Js.str (map ascii_of_nat [195; 162; 226; 130; 172; 226; 128; 157]).

Definition parsed_reply : string :=
  "I parsed the grades " ++ dash ++ " do you want to add more?".

(** [completion.choices[0].message.content] when every step has the
    expected type. *)
Definition content_of (completion : value) : option string :=
  if is_object completion then
    match get completion "choices" with
    | VArray (first :: _) =>
        if is_object first then
          let msg := get first "message" in
          if is_object msg then
            match get msg "content" with
            | VString content => Some content
            | _ => None
            end
          else None
        else None
    | _ => None
    end
  else None.

(** [/\{[\s\S]*\}/] *)
Definition json_rx : Regex.re :=
  Regex.seqs [Regex.chr false "{"; Regex.star (Regex.Cls (fun _ => true));
              Regex.chr false "}"].

(** [jsonMatch ? jsonMatch[0] : raw] *)
Definition json_text (raw : string) : string :=
  match Regex.search_text json_rx (Js.chars raw) with
  | Some t => t
  | None => raw
  end.

Section Extractor.
(** [JSON.parse], which throws on text that is not JSON, and the digits
    [String(n)] prints for a number. *)
Context (JSON_parse : string -> result value)
        (show_number : Js.number -> string).

(** [String(v)] *)
Fixpoint to_String (v : value) : string :=
  match v with
  | VUndefined => "undefined"
  | VNull => "null"
  | VBool true => "true"
  | VBool false => "false"
  | VNumber n => show_number n
  | VString s => s
  | VArray items =>
      Js.join ","
        (map (fun x => match x with
                       | VUndefined | VNull => EmptyString
                       | _ => to_String x
                       end) items)
  | VObject _ => "[object Object]"
  end.

(** The body of the loop over [entriesVal]. *)
Definition entry_of (e : value) : list AIGradeEntry :=
  if is_object e then
    let studentName :=
      match get e "studentName" with
      | VString s => Js.trim s
      | _ => EmptyString
      end in
    let subject :=
      match get e "subject" with
      | VString s => Some s
      | _ => None
      end in
    let grade :=
      match get e "grade" with
      | VNumber n => Some n
      | VString s =>
          if Js.truthy (Js.trim s) then
            let n := Js.Number s in
            if negb (Js.isNaN n) then Some n else None
          else None
      | _ => None
      end in
    if Js.truthy studentName
    then [{| studentName := studentName; subject := subject;
             grade := grade |}]
    else []
  else [].

(** From [const parsedObj = ...] to [return result]. *)
Definition result_of (parsedUnknown : value) : AIExtractResult :=
  let parsedObj :=
    if is_object parsedUnknown then parsedUnknown else VObject [] in
  let assistantReply :=
    match get parsedObj "assistantReply" with
    | VString s => Some s
    | _ => None
    end in
  let className :=
    match get parsedObj "className" with
    | VString s => Some s
    | _ => None
    end in
  let entries :=
    match get parsedObj "entries" with
    | VArray items => flat_map entry_of items
    | _ => []
    end in
  let missing :=
    match get parsedObj "missing" with
    | VArray items => Some (map to_String items)
    | _ => None
    end in
  {| className := className; entries := entries; missing := missing;
     assistantReply :=
       if Js.truthy_opt assistantReply then assistantReply
       else Some parsed_reply |}.

Definition try_result {A : Type} (r : result A) (h : exn -> result A)
  : result A :=
  match r with
  | Ok a => Ok a
  | Throw e => h e
  end.

Definition extractGradesWithOpenAI
           (complete : CompletionRequest -> outcome value) (text : string)
  : result AIExtractResult :=
  if negb (Js.truthy text) || negb (Js.truthy (Js.trim text)) then Ok empty
  else
    try_result
      (match race (complete (request text)) with
       | Throw e => Throw e
       | Ok completion =>
           match content_of completion with
           | None => Ok empty
           | Some raw =>
               if negb (Js.truthy raw) then Ok empty
               else
                 let jsonText := json_text raw in
                 match JSON_parse jsonText with
                 | Ok parsedUnknown => Ok (result_of parsedUnknown)
                 | Throw _ =>
                     match JSON_parse (Js.replace_char "'" Js.dq jsonText) with
                     | Ok parsedUnknown => Ok (result_of parsedUnknown)
                     | Throw _ => Ok (with_reply empty trouble_extracting)
                     end
                 end
           end
       end)
      (fun _ => Ok (with_reply empty trouble_parsing)).

End Extractor.

End GradeExtractor.

(* ================================================================== *)
(** ** src/lib/cohere.ts *)
(* ================================================================== *)

Module Cohere.
Import Prisma.

Record AIResponse : Type := {
  response : string;
  needsEscalation : bool;
  escalationReason : string
}.

Record ChatMessage : Type := {
  chat_role : string;
  chat_message : string
}.

(** The request sent to the chat service. *)
Record ChatRequest : Type := {
  model : string;
  message : string;
  chatHistory : list ChatMessage;
  preamble : string;
  maxTokens : nat
}.

(** The reply of the chat service: its [text], possibly undefined. *)
Definition ChatReply : Type := option string.

Definition swahiliWords : list string :=
  ["habari"; "asante"; "sijambo"; "karibu"; "pole"; "samahani";
   "tafadhali"; "kujiua"; "kujidhuru"; "msaada"].

Definition isSwahili (input : string) : bool :=
  existsb (fun word => Js.includes (Js.toLowerCase input) word) swahiliWords.

Definition preamble_sw : string :=
  "Wewe ni msaidizi wa afya ya akili mwenye huruma. Sikiliza kwa makini, toa msaada, na gundua ikiwa mtumiaji anahitaji msaada wa kitaalamu. Ikiwa wanataja kujiua au kujidhuru, pendekeza msaada wa haraka. Jibu kwa Kiswahili.".

Definition preamble_en : string :=
  "You are a compassionate mental health AI assistant. Listen actively, provide support, and detect if the user needs professional help. If they mention suicide or self-harm, suggest immediate help. Respond in the same language as the user.".

Definition chat_request (input : string) (history : list Message)
  : ChatRequest :=
  {| model := "command-r-plus-08-2024";
     message := input;
     chatHistory :=
       map (fun m =>
              {| chat_role :=
                   if String.eqb (msg_role m) "assistant"
                   then "CHATBOT" else "USER";
                 chat_message := msg_content m |}) history;
     preamble := if isSwahili input then preamble_sw else preamble_en;
     maxTokens := 150 |}.

(** [input.toLowerCase().includes(word)] *)
Definition mentions (input word : string) : bool :=
  Js.includes (Js.toLowerCase input) word.

(** Check for escalation (English and Swahili). *)
Definition needs_escalation (input : string) : bool :=
  mentions input "suicide" ||
  mentions input "kill myself" ||
  mentions input "self-harm" ||
  mentions input "professional" ||
  mentions input "therapist" ||
  mentions input "counselor" ||
  mentions input "help me professionally" ||
  mentions input "kujiua" ||
  mentions input "kujidhuru" ||
  mentions input "msaada wa kitaalamu" ||
  mentions input "daktari wa akili".

Definition escalation_reason (input : string) : string :=
  if needs_escalation input then
    if mentions input "suicide" || mentions input "kill myself" ||
       mentions input "self-harm" ||
       mentions input "kujiua" || mentions input "kujidhuru"
    then "crisis"
    else "requested_professional"
  else EmptyString.

Definition error_response : AIResponse :=
  {| response := "Sorry, there was an error.";
     needsEscalation := false; escalationReason := EmptyString |}.

Definition timeout_response : AIResponse :=
  {| response := "I'm taking a bit longer to respond. Please hold on.";
     needsEscalation := false; escalationReason := EmptyString |}.

Definition trouble_response : AIResponse :=
  {| response :=
       "I'm sorry, I'm having trouble responding right now. Please try again.";
     needsEscalation := false; escalationReason := EmptyString |}.

Local Open Scope monad_scope.

Definition getAIResponse (chat : ChatRequest -> outcome ChatReply)
           (input : string) (callId : id) : M AIResponse :=
  (* Get conversation *)
  found <- query (fun d =>
             match call_by_id callId d with
             | Some call =>
                 match conversationId call with
                 | Some conv => Some (conv, messages_of conv d)
                 | None => None
                 end
             | None => None
             end) ;;
  match found with
  | None => ret error_response
  | Some (conversation, conversation_messages) =>
      (* Add user message *)
      try_catch
        (existing <- query (message_first conversation "user" input) ;;
         match existing with
         | Some _ => ret tt
         | None => void (exec (create_message conversation "user" input))
         end)
        (fun _ => ret tt) ;;;
      try_catch
        (reply <- await (race (chat (chat_request input conversation_messages))) ;;
         let aiResponse := Js.or_else reply "I'm here to listen." in
         (* Save assistant message *)
         exec (create_message conversation "assistant" aiResponse) ;;;
         ret {| response := aiResponse;
                needsEscalation := needs_escalation input;
                escalationReason := escalation_reason input |})
        (fun error =>
           if String.eqb (message_of error) "AI response timeout"
           then ret timeout_response
           else ret trouble_response)
  end.

End Cohere.

(* ================================================================== *)
(** ** src/app/api/twilio/webhook/route.ts *)
(* ================================================================== *)

Module Webhook.
Import Prisma.
Local Open Scope monad_scope.

(** The form fields of a webhook request; [SpeechResult] and [CallStatus]
    are null when the gateway does not send them. *)
Record Form : Type := {
  SpeechResult : option string;
  CallSid : string;
  From : string;
  To : string;
  CallStatus : option string
}.

(** A request: [request.formData()] yields the form or rejects. *)
Record Request : Type := {
  formData : result Form
}.

Record Response : Type := {
  status : nat;
  body : string;
  content_type : option string
}.

(** What a handler run meets outside the database: the two external
    services and the clock. *)
Record Env : Type := {
  chat : Cohere.ChatRequest -> outcome Cohere.ChatReply;
  complete : GradeExtractor.CompletionRequest -> outcome GradeExtractor.value;
  now : nat
}.

(** [new NextResponse(xml, { headers: { 'Content-Type': 'text/xml' } })];
    the status defaults to 200. *)
Definition xml_response (xml : string) : Response :=
  {| status := 200; body := xml; content_type := Some "text/xml" |}.

(** [new NextResponse('', { status: 200 })] *)
Definition empty_response : Response :=
  {| status := 200; body := EmptyString; content_type := None |}.

(** *** The voice-response documents *)

Definition nl : string := String "010" EmptyString.

Definition lines (l : list string) : string := Js.join nl l.

Definition attr (name v : string) : string :=
  name ++ "=" ++ Js.dq ++ v ++ Js.dq.

Definition xml_decl : string :=
  "<?xml " ++ attr "version" "1.0" ++ " " ++ attr "encoding" "UTF-8" ++ "?>".

Definition say_alice_open : string := "<Say " ++ attr "voice" "alice" ++ ">".

Definition say_alice (text : string) : string :=
  say_alice_open ++ text ++ "</Say>".

Definition gather_open : string :=
  "<Gather " ++ attr "input" "speech" ++ " " ++
  attr "action" "/api/twilio/webhook" ++ " " ++ attr "method" "POST" ++ " " ++
  attr "speechTimeout" "3" ++ " " ++ attr "timeout" "10" ++ " " ++
  attr "statusCallback" "/api/twilio/webhook" ++ " " ++
  attr "statusCallbackEvent" "completed" ++ ">".

Definition greeting_xml : string :=
  lines [xml_decl;
         "<Response>";
         "  " ++ say_alice "Hello! I'm your mental health support assistant. How are you feeling today?";
         "  " ++ gather_open;
         "    <Say>Please speak after the beep, and I'll listen.</Say>";
         "  </Gather>";
         "  <Say>I didn't hear anything. Please try calling again.</Say>";
         "</Response>"].

Definition teacher_head : string :=
  lines [xml_decl; "<Response>"; "  " ++ say_alice_open].

Definition teacher_tail : string :=
  lines ["</Say>";
         "  " ++ gather_open;
         "    <Say>Please speak the next entries after the beep.</Say>";
         "  </Gather>";
         "  <Say>Thank you. Goodbye.</Say>";
         "</Response>"].

Definition teacher_xml (speakReply : string) : string :=
  teacher_head ++ speakReply ++ teacher_tail.

Definition transfer_head : string :=
  lines [xml_decl;
         "<Response>";
         "  " ++ say_alice "I understand you need professional help. I'm connecting you with a licensed counselor. Please hold while I transfer your call.";
         "  <Dial>"].

Definition transfer_tail : string :=
  lines ["</Dial>";
         "  " ++ say_alice "The counselor is unavailable right now. Please call back later or contact emergency services if you're in immediate danger.";
         "</Response>"].

Definition transfer_xml (phone : string) : string :=
  transfer_head ++ phone ++ transfer_tail.

Definition unavailable_xml : string :=
  lines [xml_decl;
         "<Response>";
         "  " ++ say_alice "I understand you need professional help. Our counselors are currently unavailable. Please contact the National Suicide Prevention Lifeline at 988, or visit emergency room if you're in immediate danger.";
         "</Response>"].

Definition conversation_head : string :=
  lines [xml_decl; "<Response>"; "  " ++ gather_open; "    " ++ say_alice_open].

Definition conversation_tail : string :=
  lines ["</Say>";
         "    <Say>What would you like to talk about next?</Say>";
         "  </Gather>";
         "  <Say>Thank you for calling. Take care of yourself.</Say>";
         "</Response>"].

Definition conversation_xml (cleanResponse : string) : string :=
  conversation_head ++ cleanResponse ++ conversation_tail.

Definition fallback_xml : string :=
  lines [xml_decl;
         "<Response>";
         "  " ++ say_alice "I'm sorry, I'm having trouble responding right now. Please try again.";
         "  " ++ gather_open;
         "    <Say>What would you like to talk about next?</Say>";
         "  </Gather>";
         "  <Say>Thank you for calling. Take care of yourself.</Say>";
         "</Response>"].

Definition repeat_xml : string :=
  lines [xml_decl;
         "<Response>";
         "  " ++ say_alice "I didn't catch that. Could you please repeat?";
         "  " ++ gather_open;
         "    <Say>Please speak clearly after the beep.</Say>";
         "  </Gather>";
         "  <Say>Thank you for calling. Take care.</Say>";
         "</Response>"].

Definition errorXml : string :=
  lines [xml_decl;
         "<Response>";
         "  " ++ say_alice "I'm sorry, I'm experiencing technical difficulties. Please try calling again later.";
         "</Response>"].

(** *** Helpers of the handler *)

Definition generateConversationSummary (callId : id) : M string :=
  found <- query (fun d =>
             match call_by_id callId d with
             | Some call =>
                 match conversationId call with
                 | Some conv => Some (messages_of conv d)
                 | None => None
                 end
             | None => None
             end) ;;
  match found with
  | None => ret "No conversation history available."
  | Some msgs =>
      let conversationText :=
        Js.join nl (map (fun m => msg_role m ++ ": " ++ msg_content m) msgs) in
      ret ("Conversation summary: " ++ Js.of_nat (List.length msgs) ++
           " messages exchanged. Key topics: " ++
           Js.substring0 200 conversationText ++ "...")
  end.

Definition findAvailableCounselor : M (option User) :=
  query (user_first "counselor" "available").

Definition terminal_statuses : list string :=
  ["completed"; "busy"; "no-answer"; "failed"; "canceled"].

(** [callStatus && [...].includes(callStatus)] *)
Definition is_terminal (callStatus : option string) : bool :=
  match callStatus with
  | Some s => Js.truthy s && existsb (String.eqb s) terminal_statuses
  | None => false
  end.

(** The class of the sanitising replace: the characters < > & ' and the
    double quote. *)
Definition markup_char (c : ascii) : bool :=
  Regex.one_of "<>&'" c || Js.char_eqb c "034".

Definition default_reply : string := "I'm here to listen. How are you feeling?".

Definition clean (response : string) : string :=
  let cleanResponse := Js.trim (Js.remove_chars markup_char response) in
  if negb (Js.truthy cleanResponse) then default_reply else cleanResponse.

Definition of_parsed (e : GradeParser.ParsedGradeEntry)
  : GradeExtractor.AIGradeEntry :=
  {| GradeExtractor.studentName := GradeParser.studentName e;
     GradeExtractor.subject := GradeParser.subject e;
     GradeExtractor.grade := GradeParser.grade e |}.

(** The heuristic result in the shape of the extractor's. *)
Definition heuristic_result (speechResult : string)
  : GradeExtractor.AIExtractResult :=
  let parsed := GradeParser.parseGrades speechResult in
  {| GradeExtractor.className := GradeParser.className parsed;
     GradeExtractor.entries := map of_parsed (GradeParser.entries parsed);
     GradeExtractor.missing := None;
     GradeExtractor.assistantReply := None |}.

Definition is_empty {A : Type} (l : list A) : bool :=
  match l with [] => true | _ => false end.

(** Build confirmation and missing info. *)
Definition confirm_text (savedCount : nat)
           (parsedResult : GradeExtractor.AIExtractResult) : string :=
  let className := GradeExtractor.className parsedResult in
  let saved :=
    "Saved " ++ Js.of_nat savedCount ++ " grade(s)" ++
    (if Js.truthy_opt className
     then " for class " ++ Js.or_else className EmptyString
     else EmptyString) ++ "." in
  let noticed :=
    match GradeExtractor.missing parsedResult with
    | Some (n :: ns) =>
        ["I noticed these students mentioned without grades: " ++
         Js.join ", " (n :: ns) ++ "."]
    | _ => []
    end in
  Js.join " " (saved :: noticed).

Definition speak_reply (confirmText : string)
           (parsedResult : GradeExtractor.AIExtractResult) : string :=
  Js.or_else (GradeExtractor.assistantReply parsedResult)
             (confirmText ++ " Would you like to add more grades?").

(** The loop over [parsedResult.entries]; yields [savedCount]. *)
Fixpoint save_entries (classroomId : option id)
         (entries : list GradeExtractor.AIGradeEntry) (savedCount : nat)
  : M nat :=
  match entries with
  | [] => ret savedCount
  | e :: rest =>
      let studentName := Js.trim (GradeExtractor.studentName e) in
      if negb (Js.truthy studentName) then
        save_entries classroomId rest savedCount
      else
        found <- query (student_first studentName classroomId) ;;
        student <- match found with
                   | Some s => ret s
                   | None => exec (create_student studentName classroomId)
                   end ;;
        match GradeExtractor.grade e with
        | Some (Js.Num q) =>
            exec (create_grade (student_id student)
                    (Js.or_else (GradeExtractor.subject e) "General")
                    (Js.Num q)) ;;;
            save_entries classroomId rest (S savedCount)
        | _ => save_entries classroomId rest savedCount
        end
  end.

Section Handler.
(** [JSON.parse] and number printing of the runtime, and the default the
    schema gives the [status] column of a new user. *)
Context (JSON_parse : string -> result GradeExtractor.value)
        (show_number : Js.number -> string)
        (default_status : string).

Variable env : Env.

(** Handle call status updates (when call ends). *)
Definition status_update (callSid : string) : M Response :=
  existingCall <- query (call_by_sid callSid) ;;
  match existingCall with
  | Some existingCall =>
      if negb (String.eqb (call_status existingCall) "completed") then
        exec (update_calls (call_id existingCall)
                (fun c => set_call_endedAt (now env)
                            (set_call_status "completed" c))) ;;;
        (* Free up assigned counselor if call was assigned *)
        match assignedCounselorId existingCall with
        | Some counselor =>
            void (exec (update_users counselor
                          (set_user_status "available")))
        | None => ret tt
        end
      else ret tt
  | None => ret tt
  end ;;;
  (* Return empty response for status updates *)
  ret empty_response.

(** Create user, conversation, call. *)
Definition create_session (callSid from : string) : M Call :=
  user <- exec (upsert_user from "user" default_status) ;;
  conversation <- exec (create_conversation (user_id user)) ;;
  exec (create_call (user_id user) callSid "ai_handling"
          (conv_id conversation)).

(** If call is starting (connected) create call + conversation. *)
Definition connect (callSid from : string) : M unit :=
  existingCall <- query (call_by_sid callSid) ;;
  match existingCall with
  | Some _ => ret tt
  | None => void (create_session callSid from)
  end.

(** Find or create the call and conversation. *)
Definition resolve_call (callSid from : string) : M Call :=
  call <- query (call_by_sid callSid) ;;
  match call with
  | Some call => ret call
  | None => create_session callSid from
  end.

(** Ensure we have a conversation for this call; the assignment to
    [call] survives a later throw inside the same [try]. *)
Definition ensure_conversation (call : Call) : M Call :=
  match conversationId call with
  | Some _ => ret call
  | None =>
      conversation <- exec (create_conversation (call_userId call)) ;;
      exec (update_calls (call_id call)
              (set_call_conversation (conv_id conversation)))
  end.

(** Persist the speech transcription as a user message (avoid
    duplicates). *)
Definition save_transcription (speechResult : string) (call : Call)
  : M unit :=
  match conversationId call with
  | Some conversation =>
      existingMsg <- query (message_first conversation "user" speechResult) ;;
      match existingMsg with
      | Some _ => ret tt
      | None =>
          void (exec (create_message conversation "user" speechResult))
      end
  | None => ret tt
  end.

(** The [try] around both steps; a throw in either is logged and
    dropped. Yields the value of [call] after the block. *)
Definition persist_transcription (speechResult : string) (call : Call)
  : M Call :=
  ensured <- try_catch (c <- ensure_conversation call ;; ret (Some c))
                       (fun _ => ret None) ;;
  match ensured with
  | Some call' =>
      try_catch (save_transcription speechResult call')
                (fun _ => ret tt) ;;;
      ret call'
  | None => ret call
  end.

(** The extractor first, the heuristic parser when it returned
    nothing. *)
Definition extract_grades (speechResult : string)
  : M GradeExtractor.AIExtractResult :=
  parsedResult <- await (GradeExtractor.extractGradesWithOpenAI
                           JSON_parse show_number (complete env)
                           speechResult) ;;
  if is_empty (GradeExtractor.entries parsedResult)
  then ret (heuristic_result speechResult)
  else ret parsedResult.

(** Ensure classroom exists if class name provided. *)
Definition ensure_classroom (className : option string) (teacher : id)
  : M (option id) :=
  if Js.truthy_opt className then
    let name := Js.or_else className EmptyString in
    found <- query (classroom_first name teacher) ;;
    classroom <- match found with
                 | Some c => ret c
                 | None => exec (create_classroom name teacher)
                 end ;;
    ret (Some (classroom_id classroom))
  else ret None.

(** Save assistant confirmation in conversation (ensure conversation
    exists). *)
Definition save_confirmation (call : Call) (confirmText : string)
  : M unit :=
  match conversationId call with
  | None =>
      conversation <- exec (create_conversation (call_userId call)) ;;
      exec (update_calls (call_id call)
              (set_call_conversation (conv_id conversation))) ;;;
      void (exec (create_message (conv_id conversation) "assistant"
                    confirmText))
  | Some conversation =>
      void (exec (create_message conversation "assistant" confirmText))
  end.

(** If the caller is a teacher, try to parse grades and persist them.
    Yields the response the block returns, if it returns one. *)
Definition teacher_turn (speechResult : string) (call : Call)
  : M (option Response) :=
  try_catch
    (caller <- query (user_by_id (call_userId call)) ;;
     match caller with
     | Some caller =>
         if String.eqb (user_role caller) "teacher" then
           parsedResult <- extract_grades speechResult ;;
           if negb (is_empty (GradeExtractor.entries parsedResult)) then
             classroomId <- ensure_classroom
                              (GradeExtractor.className parsedResult)
                              (user_id caller) ;;
             savedCount <- save_entries classroomId
                             (GradeExtractor.entries parsedResult) 0 ;;
             let confirmText := confirm_text savedCount parsedResult in
             save_confirmation call confirmText ;;;
             ret (Some (xml_response
                          (teacher_xml
                             (speak_reply confirmText parsedResult))))
           else ret None
         else ret None
     | None => ret None
     end)
    (fun _ => ret None).

(** The branch taken when the engine asks for escalation. *)
Definition escalate (call : Call) (aiResult : Cohere.AIResponse)
  : M Response :=
  summary <- generateConversationSummary (call_id call) ;;
  counselor <- findAvailableCounselor ;;
  match counselor with
  | Some counselor =>
      (* Create escalation record *)
      exec (create_escalation (call_id call) (user_id counselor)
              ("Reason: " ++ Cohere.escalationReason aiResult ++ nl ++
               "Summary: " ++ summary)) ;;;
      (* Update call status and assign counselor *)
      exec (update_calls (call_id call)
              (fun c => set_call_counselor (user_id counselor)
                          (set_call_status "counselor_assigned" c))) ;;;
      (* Set counselor status to busy *)
      exec (update_users (user_id counselor) (set_user_status "busy")) ;;;
      ret (xml_response (transfer_xml (user_phone counselor)))
  | None => ret (xml_response unavailable_xml)
  end.

(** Handle speech input. *)
Definition speech_turn (speechResult callSid from : string) : M Response :=
  try_catch
    (call <- resolve_call callSid from ;;
     call <- persist_transcription speechResult call ;;
     returned <- teacher_turn speechResult call ;;
     match returned with
     | Some response => ret response
     | None =>
         (* Get AI response *)
         aiResult <- Cohere.getAIResponse (chat env) speechResult
                       (call_id call) ;;
         if Cohere.needsEscalation aiResult then escalate call aiResult
         else
           ret (xml_response
                  (conversation_xml (clean (Cohere.response aiResult))))
     end)
    (fun _ => ret (xml_response fallback_xml)).

Definition POST (request : Request) : M Response :=
  try_catch
    (form <- await (formData request) ;;
     let speechResult := SpeechResult form in
     let callSid := CallSid form in
     let from := From form in
     let callStatus := CallStatus form in
     if is_terminal callStatus then status_update callSid
     else
       when (match callStatus with
             | Some s => String.eqb s "in-progress"
             | None => false
             end) (connect callSid from) ;;;
       (* If this is the initial call (no speech result yet) *)
       if negb (Js.truthy_opt speechResult) then
         ret (xml_response greeting_xml)
       else
         let speech := Js.or_else speechResult EmptyString in
         if Js.truthy (Js.trim speech) then speech_turn speech callSid from
         else
           (* Fallback for empty speech *)
           ret (xml_response repeat_xml))
    (fun _ => ret (xml_response errorXml)).

(** A run of the handler from a database, under a fault schedule. *)
Definition handle (request : Request) (fs : list bool) (d : Db)
  : result Response * Db :=
  let '(r, w) := POST request {| db := d; faults := fs |} in (r, db w).

End Handler.

End Webhook.

(* ================================================================== *)
(** ** The seed script of the teacher account *)
(* ================================================================== *)

Module Seed.
Import Prisma.
Local Open Scope monad_scope.

(** The variables the script reads from [process.env]. *)
Record Environment : Type := {
  TEACHER_PHONE : option string;
  TEACHER_NAME : option string;
  TEACHER_EMAIL : option string
}.

(** [user.create({ data: { name, phone, email, role } })]. The columns name
    and email, which the handler never reads, are not among those of
    [User]; [status] is the column default of the schema. *)
Definition create_user (name phone email role status : string) (d : Db)
  : result User * Db :=
  let u := {| user_id := next_id d; user_phone := phone;
              user_role := role; user_status := status |} in
  (Ok u, add_user u d).

(** What the script reports on the console. *)
Inductive report : Type :=
| AlreadyExists (existing : User)
| Created (user : User).

Section Script.
Context (default_status : string).
Variable env : Environment.

Definition phone : string := Js.or_else (TEACHER_PHONE env) "+15551234567".
Definition name : string := Js.or_else (TEACHER_NAME env) "Test Teacher".
Definition email : string :=
  Js.or_else (TEACHER_EMAIL env) "teacher@example.com".

Definition main : M report :=
  existing <- query (user_by_phone phone) ;;
  match existing with
  | Some existing => ret (AlreadyExists existing)
  | None =>
      user <- exec (create_user name phone email "teacher" default_status) ;;
      ret (Created user)
  end.

(** [main().catch(() => process.exit(1))]: the exit code of the script. *)
Definition run (w : World) : nat * World :=
  match main w with
  | (Ok _, w') => (0, w')
  | (Throw _, w') => (1, w')
  end.

End Script.

End Seed.

(* ================================================================== *)
(** ** Specification vocabulary *)
(* ================================================================== *)

Local Open Scope monad_scope.

(** *** A program logic for handlers

    [hoare healthy P m Q E]: run from a database satisfying [P], the
    computation [m] ends normally in a database satisfying [Q a], or throws
    in one satisfying [E]. With [healthy = true] only runs whose storage
    layer never fails are considered; with [healthy = false], every fault
    schedule is. *)
Definition hoare {A : Type} (healthy : bool) (P : Prisma.Db -> Prop)
           (m : M A) (Q : A -> Prisma.Db -> Prop) (E : Prisma.Db -> Prop)
  : Prop :=
  forall w, (healthy = true -> faults w = []) -> P (db w) ->
    match m w with
    | (Ok a, w') => Q a (db w') /\ (healthy = true -> faults w' = [])
    | (Throw _, w') => E (db w') /\ (healthy = true -> faults w' = [])
    end.

(** [m] keeps the invariant [I], however it ends. *)
Definition keeps {A : Type} (healthy : bool) (I : Prisma.Db -> Prop)
           (m : M A) : Prop :=
  hoare healthy I m (fun _ => I) I.

Definition anything : Prisma.Db -> Prop := fun _ => True.

(** *** Voice-response documents *)

Module Doc.

Definition speaks (xml : string) : bool := Js.includes xml "<Say".
Definition listens (xml : string) : bool := Js.includes xml "<Gather".
Definition bridges (xml : string) : bool := Js.includes xml "<Dial>".

(** A spoken line plus a listen-again directive. *)
Definition spoken_and_listen (xml : string) : Prop :=
  speaks xml = true /\ listens xml = true.

(** A bridge-to-number directive. *)
Definition bridge (xml : string) : Prop := bridges xml = true.

(** A spoken line after which the call ends. *)
Definition terminal_spoken (xml : string) : Prop :=
  speaks xml = true /\ listens xml = false /\ bridges xml = false.

Definition valid (xml : string) : Prop :=
  spoken_and_listen xml \/ bridge xml \/ terminal_spoken xml.

(** The documents the handler can send. *)
Inductive template : string -> Prop :=
| t_greeting : template Webhook.greeting_xml
| t_teacher : forall speakReply, template (Webhook.teacher_xml speakReply)
| t_transfer : forall phone, template (Webhook.transfer_xml phone)
| t_unavailable : template Webhook.unavailable_xml
| t_conversation : forall reply, template (Webhook.conversation_xml reply)
| t_fallback : template Webhook.fallback_xml
| t_repeat : template Webhook.repeat_xml
| t_error : template Webhook.errorXml.

(** What the gateway may receive: the empty acknowledgment of a status
    update ([terminal = true]), or a document. *)
Definition acceptable (terminal : bool) (r : Webhook.Response) : Prop :=
  Webhook.status r = 200 /\
  ((r = Webhook.empty_response /\ terminal = true) \/
   (Webhook.content_type r = Some "text/xml" /\
    Webhook.body r <> EmptyString /\
    template (Webhook.body r) /\ valid (Webhook.body r))).

End Doc.

(** A response that carries one of the documents. *)
Definition is_document (r : Webhook.Response) : Prop :=
  exists xml, r = Webhook.xml_response xml /\ Doc.template xml.

(** Whether the request is a terminal status update. *)
Definition status_update_request (request : Webhook.Request) : bool :=
  match Webhook.formData request with
  | Ok form => Webhook.is_terminal (Webhook.CallStatus form)
  | Throw _ => false
  end.

(** *** Escalation, in the words of the specification *)

Module Lexicon.

Definition crisis : list string :=
  ["suicide"; "kill myself"; "self-harm"; "kujiua"; "kujidhuru"].

Definition professional : list string :=
  ["professional"; "therapist"; "counselor"; "help me professionally";
   "msaada wa kitaalamu"; "daktari wa akili"].

(** A case-insensitive substring match of some word of the lexicon. *)
Definition matches (lexicon : list string) (utterance : string) : bool :=
  existsb (fun word => Js.includes (Js.toLowerCase utterance) word) lexicon.

(** The escalation flag and reason; crisis takes precedence. *)
Definition classify (utterance : string) : bool * string :=
  if matches crisis utterance then (true, "crisis")
  else if matches professional utterance then (true, "requested_professional")
  else (false, EmptyString).

End Lexicon.

Definition is_assistant (m : Prisma.Message) : bool :=
  String.eqb (Prisma.msg_role m) "assistant".

(** *** Message deduplication *)

(** At most one user message per conversation and content. *)
Definition unique_user_messages (l : list Prisma.Message) : Prop :=
  forall conv content,
    List.length (filter (Prisma.is_message conv "user" content) l) <= 1.

Definition user_messages_unique (d : Prisma.Db) : Prop :=
  unique_user_messages (Prisma.messages d).

(** *** Status of a completed call *)




(** *** Assignment of counselors *)

(** A call is open until it is completed. *)
Definition is_open (c : Prisma.Call) : bool :=
  negb (String.eqb (Prisma.call_status c) "completed").

(** Counselor [k] is assigned to the open call [c]. *)
Definition assigned_to (k : Prisma.id) (c : Prisma.Call) : bool :=
  is_open c &&
  match Prisma.assignedCounselorId c with
  | Some k' => k' =? k
  | None => false
  end.

(** Each counselor is assigned to at most one open call. *)
Definition exclusive (d : Prisma.Db) : Prop :=
  forall k, List.length (filter (assigned_to k) (Prisma.calls d)) <= 1.

(** What [findAvailableCounselor] looks for. *)
Definition available_counselor (u : Prisma.User) : bool :=
  String.eqb (Prisma.user_role u) "counselor" &&
  String.eqb (Prisma.user_status u) "available".

(** The invariant behind [exclusive]: call identifiers are unique and were
    issued by the counter, a counselor that is available is assigned to no
    open call, and the open calls of one counselor are one call. With
    [pending = Some k], counselor [k] has just been assigned and is not yet
    marked busy. *)
Record consistent_but (pending : option Prisma.id) (d : Prisma.Db) : Prop := {
  ids_unique : NoDup (map Prisma.call_id (Prisma.calls d));
  ids_issued : forall c, In c (Prisma.calls d) ->
                         Prisma.call_id c < Prisma.next_id d;
  available_free : forall c u,
      In c (Prisma.calls d) -> In u (Prisma.users d) ->
      available_counselor u = true ->
      pending <> Some (Prisma.user_id u) ->
      assigned_to (Prisma.user_id u) c = false;
  one_call : forall c1 c2 k,
      In c1 (Prisma.calls d) -> In c2 (Prisma.calls d) ->
      assigned_to k c1 = true -> assigned_to k c2 = true ->
      Prisma.call_id c1 = Prisma.call_id c2
}.

Definition consistent : Prisma.Db -> Prop := consistent_but None.

(** A sequence of events, each with its environment, served one after the
    other by a storage layer that works. *)
Fixpoint serve (JSON_parse : string -> result GradeExtractor.value)
         (show_number : Js.number -> string) (default_status : string)
         (events : list (Webhook.Env * Webhook.Request)) (d : Prisma.Db)
  : Prisma.Db :=
  match events with
  | [] => d
  | (env, request) :: rest =>
      serve JSON_parse show_number default_status rest
            (snd (Webhook.handle JSON_parse show_number default_status env
                    request [] d))
  end.

(** The two documents of the escalation branch. *)
Definition is_transfer (xml : string) : Prop :=
  exists phone, xml = Webhook.transfer_xml phone.

Definition is_escalation (xml : string) : Prop :=
  is_transfer xml \/ xml = Webhook.unavailable_xml.

(** The bodies of every other branch. *)
Inductive ordinary : string -> Prop :=
| o_empty : ordinary EmptyString
| o_greeting : ordinary Webhook.greeting_xml
| o_teacher : forall speakReply, ordinary (Webhook.teacher_xml speakReply)
| o_conversation : forall reply, ordinary (Webhook.conversation_xml reply)
| o_fallback : ordinary Webhook.fallback_xml
| o_repeat : ordinary Webhook.repeat_xml
| o_error : ordinary Webhook.errorXml.

(** The counselors [findAvailableCounselor] can return, in order. *)
Definition available (d : Prisma.Db) : list Prisma.User :=
  filter available_counselor (Prisma.users d).

Definition available_is (l : list Prisma.User) (d : Prisma.Db) : Prop :=
  available d = l.

(** What an event may answer when the available counselors are [l]: a
    body of another branch, or the escalation document that [l] decides,
    after which nobody is available if [l] held one counselor. *)
Definition escalation_outcome (l : list Prisma.User)
           (r : Webhook.Response) (d : Prisma.Db) : Prop :=
  ordinary (Webhook.body r) \/
  match l with
  | [] => Webhook.body r = Webhook.unavailable_xml
  | u :: rest =>
      Webhook.body r = Webhook.transfer_xml (Prisma.user_phone u) /\
      (rest = [] -> available d = [])
  end.

(** The last [n] characters of a document. *)
Definition ending (n : nat) (xml : string) : list ascii :=
  rev (firstn n (rev (Js.chars xml))).

(** *** Failure modes of the probabilistic extractor *)

Inductive extractor_failure (JSON_parse : string -> result GradeExtractor.value)
          (complete : GradeExtractor.CompletionRequest ->
                      outcome GradeExtractor.value) (text : string) : Prop :=
| fails_timeout :
    complete (GradeExtractor.request text) = TimedOut ->
    extractor_failure JSON_parse complete text
| fails_thrown : forall e,
    complete (GradeExtractor.request text) = Rejected e ->
    extractor_failure JSON_parse complete text
| fails_no_content : forall completion,
    complete (GradeExtractor.request text) = Resolved completion ->
    GradeExtractor.content_of completion = None ->
    extractor_failure JSON_parse complete text
| fails_no_json : forall completion raw e1 e2,
    complete (GradeExtractor.request text) = Resolved completion ->
    GradeExtractor.content_of completion = Some raw ->
    JSON_parse (GradeExtractor.json_text raw) = Throw e1 ->
    JSON_parse (Js.replace_char "'" Js.dq (GradeExtractor.json_text raw))
      = Throw e2 ->
    extractor_failure JSON_parse complete text.

Definition clarification (line : string) : Prop :=
  line = "I could not parse any grades. Could you repeat them more clearly?" \/
  line = GradeExtractor.trouble_extracting \/
  line = GradeExtractor.trouble_parsing.

(** *** A concrete deployment, for examples *)

Module Scenario.
Import Prisma.

(** A runtime whose [JSON.parse] knows one text. *)
Definition reply_json : string :=
  "{" ++ GradeExtractor.quoted "assistantReply" ++ ":" ++
  GradeExtractor.quoted "Got it <b>Al</b> & co" ++ "," ++
  GradeExtractor.quoted "entries" ++ ":[{" ++
  GradeExtractor.quoted "studentName" ++ ":" ++ GradeExtractor.quoted "Al" ++
  "," ++ GradeExtractor.quoted "grade" ++ ":5}]}".

Definition reply_value : GradeExtractor.value :=
  GradeExtractor.VObject
    [("assistantReply", GradeExtractor.VString "Got it <b>Al</b> & co");
     ("entries",
      GradeExtractor.VArray
        [GradeExtractor.VObject
           [("studentName", GradeExtractor.VString "Al");
            ("grade", GradeExtractor.VNumber (Js.Num (5 # 1)))]])].

Definition JSON_parse (s : string) : result GradeExtractor.value :=
  if String.eqb s reply_json then Ok reply_value
  else Throw (Error "Unexpected token").

Definition show_number (n : Js.number) : string :=
  match n with
  | Js.Num q => Js.of_nat (Z.to_nat (Qnum q))
  | Js.NaN => "NaN"
  end.

Definition default_status : string := "offline".

Definition completion_of (content : string) : GradeExtractor.value :=
  GradeExtractor.VObject
    [("choices",
      GradeExtractor.VArray
        [GradeExtractor.VObject
           [("message",
             GradeExtractor.VObject
               [("content", GradeExtractor.VString content)])]])].

(** The chat service answers; the extractor times out. *)
Definition env : Webhook.Env :=
  {| Webhook.chat := fun _ => Resolved (Some "I hear you.");
     Webhook.complete := fun _ => TimedOut;
     Webhook.now := 7 |}.

(** Both services time out. *)
Definition env_silent : Webhook.Env :=
  {| Webhook.chat := fun _ => TimedOut;
     Webhook.complete := fun _ => TimedOut;
     Webhook.now := 7 |}.

(** The extractor answers with [reply_json]. *)
Definition env_extracting : Webhook.Env :=
  {| Webhook.chat := fun _ => Resolved (Some "I hear you.");
     Webhook.complete := fun _ => Resolved (completion_of reply_json);
     Webhook.now := 7 |}.

Definition counselor : User :=
  {| user_id := 0; user_phone := "+15550100";
     user_role := "counselor"; user_status := "available" |}.

Definition teacher : User :=
  {| user_id := 1; user_phone := "+15550101";
     user_role := "teacher"; user_status := "offline" |}.

Definition db0 : Db :=
  {| users := [counselor; teacher]; calls := []; conversations := [];
     messages := []; escalations := []; classrooms := []; students := [];
     grades := []; next_id := 2 |}.

(** [db0] after a first in-progress event of call CA1 from a new number. *)
Definition caller : User :=
  {| user_id := 2; user_phone := "+15550111";
     user_role := "user"; user_status := "offline" |}.

Definition call1 : Call :=
  {| call_id := 4; call_userId := 2; twilioCallSid := "CA1";
     call_status := "ai_handling"; assignedCounselorId := None;
     endedAt := None; conversationId := Some 3 |}.

Definition db1 : Db :=
  {| users := [counselor; teacher; caller]; calls := [call1];
     conversations := [{| conv_id := 3; conv_userId := 2 |}];
     messages := []; escalations := []; classrooms := []; students := [];
     grades := []; next_id := 5 |}.

(** [db0] after a first in-progress event of call CA2 from the teacher. *)
Definition call2 : Call :=
  {| call_id := 3; call_userId := 1; twilioCallSid := "CA2";
     call_status := "ai_handling"; assignedCounselorId := None;
     endedAt := None; conversationId := Some 2 |}.

Definition db2 : Db :=
  {| users := [counselor; teacher]; calls := [call2];
     conversations := [{| conv_id := 2; conv_userId := 1 |}];
     messages := []; escalations := []; classrooms := []; students := [];
     grades := []; next_id := 4 |}.

(** Call CA1 escalated to the counselor. *)
Definition call3 : Call :=
  {| call_id := 4; call_userId := 2; twilioCallSid := "CA1";
     call_status := "counselor_assigned"; assignedCounselorId := Some 0;
     endedAt := None; conversationId := Some 3 |}.

Definition db3 : Db :=
  {| users := [set_user_status "busy" counselor; teacher; caller];
     calls := [call3];
     conversations := [{| conv_id := 3; conv_userId := 2 |}];
     messages := []; escalations := []; classrooms := []; students := [];
     grades := []; next_id := 5 |}.

(** Call CA1 completed; its counselor is available again. *)
Definition call4 : Call :=
  {| call_id := 4; call_userId := 2; twilioCallSid := "CA1";
     call_status := "completed"; assignedCounselorId := Some 0;
     endedAt := Some 7; conversationId := Some 3 |}.

Definition db4 : Db :=
  {| users := [counselor; teacher; caller];
     calls := [call4];
     conversations := [{| conv_id := 3; conv_userId := 2 |}];
     messages := []; escalations := []; classrooms := []; students := [];
     grades := []; next_id := 5 |}.

Definition form (speech : option string) (sid from : string)
           (callStatus : option string) : Webhook.Form :=
  {| Webhook.SpeechResult := speech; Webhook.CallSid := sid;
     Webhook.From := from; Webhook.To := "+15550199";
     Webhook.CallStatus := callStatus |}.

Definition request (speech : option string) (sid from : string)
           (callStatus : option string) : Webhook.Request :=
  {| Webhook.formData := Ok (form speech sid from callStatus) |}.

Definition run (e : Webhook.Env) (r : Webhook.Request) (fs : list bool)
           (d : Db) : result Webhook.Response * Db :=
  Webhook.handle JSON_parse show_number default_status e r fs d.

Definition after (e : Webhook.Env) (r : Webhook.Request) (fs : list bool)
           (d : Db) : Db :=
  snd (run e r fs d).

End Scenario.

(* ================================================================== *)
(** ** Further vocabulary *)
(* ================================================================== *)

(** *** The words of a regular expression *)

Module Lang.
Import Regex.

Definition within (hi : option nat) (n : nat) : Prop :=
  match hi with
  | Some h => n <= h
  | None => True
  end.

(** [word r u]: the expression [r] denotes the word [u]. *)
Fixpoint word (r : re) (u : list ascii) : Prop :=
  match r with
  | Eps => u = []
  | Cls p => exists x, u = [x] /\ p x = true
  | Seq a b => exists v w, u = (v ++ w)%list /\ word a v /\ word b w
  | Alt a b => word a u \/ word b u
  | Cap _ a => word a u
  | Rep lo hi a =>
      exists us, u = concat us /\ Forall (word a) us /\
                 lo <= List.length us /\ within hi (List.length us)
  end.

(** Every match of [r] records the group [n]. *)
Fixpoint binds (n : string) (r : re) : bool :=
  match r with
  | Eps | Cls _ => false
  | Seq a b => binds n a || binds n b
  | Alt a b => binds n a && binds n b
  | Rep lo _ a => (1 <=? lo) && binds n a
  | Cap m a => String.eqb m n || binds n a
  end.

(** The groups of [r] record texts that satisfy [G]. *)
Fixpoint records (G : string -> list ascii -> Prop) (r : re) : Prop :=
  match r with
  | Eps | Cls _ => True
  | Seq a b | Alt a b => records G a /\ records G b
  | Rep _ _ a => records G a
  | Cap n a => (forall u, word a u -> G n u) /\ records G a
  end.

Definition recorded (G : string -> list ascii -> Prop) (c : captures) : Prop :=
  Forall (fun nv => exists u, snd nv = Js.str u /\ G (fst nv) u) c.

(** The loop of a repetition, over the matcher [step] of its body. *)
Definition rep_loop {R : Type}
           (step : list ascii -> captures ->
                   (list ascii -> captures -> option R) -> option R)
           (lo : nat) (hi : option nat)
           (k : list ascii -> captures -> option R)
  : nat -> nat -> list ascii -> captures -> option R :=
  fix loop (fuel i : nat) (s : list ascii) (c : captures) : option R :=
    match fuel with
    | O => None
    | S f =>
        let again :=
          if below hi i then
            step s c (fun s' c' =>
              if (lo <=? i) && (List.length s' =? List.length s)
              then None
              else loop f (S i) s' c')
          else None in
        match again with
        | Some x => Some x
        | None => if lo <=? i then k s c else None
        end
    end.

(** What a successful run of a matcher for [r] tells: it consumed a word
    of [r], recorded groups that [G] allows, among them every group that
    [r] binds, and went on with the rest. *)
Definition sound_step {R : Type} (G : string -> list ascii -> Prop)
           (r : Regex.re)
           (step : list ascii -> Regex.captures ->
                   (list ascii -> Regex.captures -> option R) -> option R)
  : Prop :=
  forall s c k x,
    step s c k = Some x ->
    exists u s' e,
      s = (u ++ s')%list /\ word r u /\ recorded G e /\
      (forall n, binds n r = true -> Regex.group e n <> None) /\
      k s' (e ++ c)%list = Some x.

End Lang.

(** *** What the heuristic parser reads *)

(** One to three digits, optionally followed by a dot and digits. *)
Definition numeral (u : list ascii) : Prop :=
  exists ip,
    forallb Js.is_digit ip = true /\
    1 <= List.length ip <= 3 /\
    (u = ip \/
     exists fp, u = (ip ++ "."%char :: fp)%list /\
                forallb Js.is_digit fp = true /\ fp <> []).

(** The texts the groups of the parser's expressions capture. *)
Definition parser_groups (n : string) (u : list ascii) : Prop :=
  (n = "name" ->
   forallb GradeParser.name_char u = true /\ 2 <= List.length u <= 50) /\
  (n = "grade" -> numeral u) /\
  (n = "subject" ->
   forallb GradeParser.subject_char u = true /\ u <> []) /\
  (n = "1" ->
   forallb GradeParser.class_id_char u = true /\ u <> []).

(** A string without leading or trailing white space. *)
Definition trimmed (s : string) : Prop := Js.trim s = s.

(** All characters of a string satisfy [p]. *)
Definition all_chars (p : ascii -> bool) (s : string) : Prop :=
  forallb p (Js.chars s) = true.

(** A list that does not start with white space. *)
Definition starts_clean (l : list ascii) : Prop :=
  match l with
  | [] => True
  | c :: _ => Js.is_space c = false
  end.

(** What can be said of every entry the heuristic parser returns. *)
Definition numeric_grade (g : option Js.number) : Prop :=
  exists q, g = Some (Js.Num q) /\ (0 <= q)%Q /\ (q < 1000)%Q.

Definition plain_name (name : string) : Prop :=
  all_chars GradeParser.name_char name /\ String.length name <= 50 /\
  trimmed name.

Definition plain_subject (subject : option string) : Prop :=
  forall s, subject = Some s ->
    s <> EmptyString /\ all_chars GradeParser.subject_char s /\ trimmed s.

Definition plain_entry (e : GradeParser.ParsedGradeEntry) : Prop :=
  plain_name (GradeParser.studentName e) /\
  numeric_grade (GradeParser.grade e) /\
  plain_subject (GradeParser.subject e).

(** Every character. *)
Definition all_ascii : list ascii := map ascii_of_nat (seq 0 256).

(** Every word of [r] holds a character that satisfies [q]. *)
Fixpoint demands (q : ascii -> bool) (r : Regex.re) : bool :=
  match r with
  | Regex.Eps => false
  | Regex.Cls p => forallb (fun c => implb (p c) (q c)) all_ascii
  | Regex.Seq a b => demands q a || demands q b
  | Regex.Alt a b => demands q a && demands q b
  | Regex.Rep lo _ a => (1 <=? lo) && demands q a
  | Regex.Cap _ a => demands q a
  end.

(** *** The JSON text of a reply *)

(** The prefix of [l] that ends with its last closing brace. *)
Fixpoint upto_last_close (l : list ascii) : option (list ascii) :=
  match l with
  | [] => None
  | x :: l' =>
      match upto_last_close l' with
      | Some p => Some (x :: p)
      | None => if Js.char_eqb x "}" then Some [x] else None
      end
  end.

(** From the first opening brace of [l] to the last closing brace after
    it. *)
Fixpoint brace_span (l : list ascii) : option (list ascii) :=
  match l with
  | [] => None
  | x :: l' =>
      if Js.char_eqb x "{" then
        match upto_last_close l' with
        | Some p => Some (x :: p)
        | None => None
        end
      else brace_span l'
  end.

(** *** The reply spoken to a teacher *)

(** A text without the characters the conversational branch removes. *)
Definition unmarked (s : string) : Prop :=
  all_chars (fun c => negb (Webhook.markup_char c)) s.

(** An entry with a student name that is neither empty nor padded. *)
Definition named (e : GradeExtractor.AIGradeEntry) : Prop :=
  GradeExtractor.studentName e <> EmptyString /\
  trimmed (GradeExtractor.studentName e).

(** The result the teacher branch works with: the extractor's, or the
    heuristic parser's when the extractor found no entry. *)
Definition chosen_result (JSON_parse : string -> result GradeExtractor.value)
           (show_number : Js.number -> string) (env : Webhook.Env)
           (speech : string) : GradeExtractor.AIExtractResult :=
  match GradeExtractor.extractGradesWithOpenAI JSON_parse show_number
          (Webhook.complete env) speech with
  | Ok p =>
      if Webhook.is_empty (GradeExtractor.entries p)
      then Webhook.heuristic_result speech
      else p
  | Throw _ => Webhook.heuristic_result speech
  end.

(** *** The conversational engine *)

(** The three fixed answers of the engine. *)
Definition fixed_answer (r : Cohere.AIResponse) : Prop :=
  r = Cohere.error_response \/ r = Cohere.timeout_response \/
  r = Cohere.trouble_response.

(** The newest message is the assistant's [content] in [conv]. *)
Definition newest_is_reply (conv : Prisma.id) (content : string)
           (d : Prisma.Db) : Prop :=
  exists l i,
    Prisma.messages d =
      (l ++ [{| Prisma.msg_id := i; Prisma.msg_conversationId := conv;
                Prisma.msg_role := "assistant";
                Prisma.msg_content := content |}])%list.

(** *** What a status update may change *)

(** The columns of a call and of a user other than the status (and the
    end time). *)
Definition call_core (c : Prisma.Call)
  : Prisma.id * Prisma.id * string * option Prisma.id * option Prisma.id :=
  (Prisma.call_id c, Prisma.call_userId c, Prisma.twilioCallSid c,
   Prisma.assignedCounselorId c, Prisma.conversationId c).

Definition user_core (u : Prisma.User) : Prisma.id * string * string :=
  (Prisma.user_id u, Prisma.user_phone u, Prisma.user_role u).

(** [d'] differs from [d] at most in statuses: of calls, now completed, and
    of users, now available. *)
Record status_change (d d' : Prisma.Db) : Prop := {
  same_calls : map call_core (Prisma.calls d') = map call_core (Prisma.calls d);
  same_users : map user_core (Prisma.users d') = map user_core (Prisma.users d);
  same_conversations : Prisma.conversations d' = Prisma.conversations d;
  same_messages : Prisma.messages d' = Prisma.messages d;
  same_escalations : Prisma.escalations d' = Prisma.escalations d;
  same_classrooms : Prisma.classrooms d' = Prisma.classrooms d;
  same_students : Prisma.students d' = Prisma.students d;
  same_grades : Prisma.grades d' = Prisma.grades d;
  same_counter : Prisma.next_id d' = Prisma.next_id d;
  calls_completed : forall c, In c (Prisma.calls d') ->
      Prisma.call_status c = "completed" \/ In c (Prisma.calls d);
  users_released : forall u, In u (Prisma.users d') ->
      Prisma.user_status u = "available" \/ In u (Prisma.users d)
}.

(** *** What no event changes *)

(** The columns of a call that identify it. *)
Definition call_key (c : Prisma.Call) : Prisma.id * Prisma.id * string :=
  (Prisma.call_id c, Prisma.call_userId c, Prisma.twilioCallSid c).

(** [l'] is [l] with rows added at the end. *)
Definition grown {A : Type} (l l' : list A) : Prop :=
  exists added, l' = (l ++ added)%list.

(** [d'] holds everything [d] held: conversations, messages, escalations,
    classrooms, students and grades as they were, calls and users with
    their identifying columns, each table in its order, with new rows only
    at the end. *)
Record extends (d d' : Prisma.Db) : Prop := {
  ext_calls : grown (map call_key (Prisma.calls d))
                    (map call_key (Prisma.calls d'));
  ext_users : grown (map user_core (Prisma.users d))
                    (map user_core (Prisma.users d'));
  ext_conversations : grown (Prisma.conversations d) (Prisma.conversations d');
  ext_messages : grown (Prisma.messages d) (Prisma.messages d');
  ext_escalations : grown (Prisma.escalations d) (Prisma.escalations d');
  ext_classrooms : grown (Prisma.classrooms d) (Prisma.classrooms d');
  ext_students : grown (Prisma.students d) (Prisma.students d');
  ext_grades : grown (Prisma.grades d) (Prisma.grades d');
  ext_counter : Prisma.next_id d <= Prisma.next_id d'
}.

(** *** One call per CallSid, one user per phone number *)

Definition sids_unique (d : Prisma.Db) : Prop :=
  NoDup (map Prisma.twilioCallSid (Prisma.calls d)).

Definition phones_unique (d : Prisma.Db) : Prop :=
  NoDup (map Prisma.user_phone (Prisma.users d)).

Definition keys_unique (d : Prisma.Db) : Prop :=
  sids_unique d /\ phones_unique d.

(** *** The grade book *)

(** No user is a teacher, and the grade book is that of [d0]. *)
Definition without_teacher (d0 d : Prisma.Db) : Prop :=
  (forall u, In u (Prisma.users d) -> Prisma.user_role u <> "teacher") /\
  Prisma.classrooms d = Prisma.classrooms d0 /\
  Prisma.students d = Prisma.students d0 /\
  Prisma.grades d = Prisma.grades d0.

Definition student_key (s : Prisma.Student) : string * option Prisma.id :=
  (Prisma.student_name s, Prisma.student_classroomId s).

Definition classroom_key (c : Prisma.Classroom) : string * Prisma.id :=
  (Prisma.classroom_name c, Prisma.classroom_teacherId c).

(** No two students share name and classroom, no two classrooms share name
    and teacher, and no student has an empty or padded name. *)
Definition roster_unique (d : Prisma.Db) : Prop :=
  NoDup (map student_key (Prisma.students d)) /\
  NoDup (map classroom_key (Prisma.classrooms d)) /\
  Forall (fun s => Prisma.student_name s <> EmptyString /\
                   trimmed (Prisma.student_name s)) (Prisma.students d).

(** *** Saving the entries of a dictation *)

(** An entry the loop saves a grade for: it has a name, and its grade is a
    number. *)
Definition savable (e : GradeExtractor.AIGradeEntry) : bool :=
  Js.truthy (Js.trim (GradeExtractor.studentName e)) &&
  match GradeExtractor.grade e with
  | Some (Js.Num _) => true
  | _ => false
  end.

(** The grade row [g] records the entry [e] for a student of [d']. *)
Definition grade_of (d' : Prisma.Db) (e : GradeExtractor.AIGradeEntry)
           (g : Prisma.Grade) : Prop :=
  GradeExtractor.grade e = Some (Prisma.grade_value g) /\
  Prisma.grade_subject g = Js.or_else (GradeExtractor.subject e) "General" /\
  exists s,
    In s (Prisma.students d') /\
    Prisma.student_id s = Prisma.grade_studentId g /\
    Prisma.student_name s = Js.trim (GradeExtractor.studentName e).

(** From [d] to [d'] the entries were saved: one grade row each, in order,
    at the end of the table; students may have been added; nothing else
    changed. *)
Record saved_as (entries : list GradeExtractor.AIGradeEntry)
       (d d' : Prisma.Db) : Prop := {
  saved_grades : exists added,
      Prisma.grades d' = (Prisma.grades d ++ added)%list /\
      Forall2 (grade_of d') entries added;
  saved_students : grown (Prisma.students d) (Prisma.students d');
  saved_users : Prisma.users d' = Prisma.users d;
  saved_calls : Prisma.calls d' = Prisma.calls d;
  saved_conversations : Prisma.conversations d' = Prisma.conversations d;
  saved_messages : Prisma.messages d' = Prisma.messages d;
  saved_escalations : Prisma.escalations d' = Prisma.escalations d;
  saved_classrooms : Prisma.classrooms d' = Prisma.classrooms d
}.

(** *** Statuses *)

(** The statuses a call can have. *)
Definition call_statuses : list string :=
  ["ai_handling"; "counselor_assigned"; "completed"].

(** Every call has one of the three statuses, and every user is available,
    busy or in the status new users get. *)
Definition statuses_known (default_status : string) (d : Prisma.Db) : Prop :=
  Forall (fun c => In (Prisma.call_status c) call_statuses) (Prisma.calls d) /\
  Forall (fun u => In (Prisma.user_status u)
                      ["available"; "busy"; default_status])
         (Prisma.users d).

(** A call that is completed or has an end time in [d] was so in [d0], with
    the same end time. *)
Definition ended_before (d0 d : Prisma.Db) : Prop :=
  forall c',
    In c' (Prisma.calls d) ->
    Prisma.endedAt c' <> None \/ Prisma.call_status c' = "completed" ->
    exists c,
      In c (Prisma.calls d0) /\ call_key c = call_key c' /\
      Prisma.endedAt c = Prisma.endedAt c' /\
      (Prisma.call_status c' = "completed" ->
       Prisma.call_status c = "completed").

(** *** Transfers *)

(** The notes of an escalation: the reason, which is crisis or
    requested_professional, and the summary. *)
Definition escalation_notes (notes : string) : Prop :=
  exists reason summary,
    (reason = "crisis" \/ reason = "requested_professional") /\
    notes = "Reason: " ++ reason ++ Webhook.nl ++ "Summary: " ++ summary.

(** The transfer to the counselor with number [phone] is on record in [d]:
    the newest escalation, the only one added since [d0], names a call
    that is stored and a user that is stored, has the role counselor and
    that number, and gives the reason; the rows of that call are assigned
    to the counselor, and the rows of the counselor are busy. *)
Definition transfer_recorded (d0 : Prisma.Db) (phone : string)
           (d : Prisma.Db) : Prop :=
  exists e u c,
    Prisma.escalations d = (Prisma.escalations d0 ++ [e])%list /\
    In u (Prisma.users d) /\
    Prisma.user_phone u = phone /\
    Prisma.user_role u = "counselor" /\
    Prisma.esc_counselorId e = Prisma.user_id u /\
    In c (Prisma.calls d) /\
    Prisma.call_id c = Prisma.esc_callId e /\
    escalation_notes (Prisma.esc_notes e) /\
    (forall c, In c (Prisma.calls d) ->
               Prisma.call_id c = Prisma.esc_callId e ->
               Prisma.call_status c = "counselor_assigned" /\
               Prisma.assignedCounselorId c = Some (Prisma.user_id u)) /\
    (forall x, In x (Prisma.users d) ->
               Prisma.user_id x = Prisma.user_id u ->
               Prisma.user_status x = "busy").

(** What an answer tells about the records: it is none of the two
    documents of the escalation branch, or the no-counselor document, or
    the transfer document after the transfer was recorded. *)
Definition announced (d0 : Prisma.Db) (r : Webhook.Response)
           (d : Prisma.Db) : Prop :=
  ordinary (Webhook.body r) \/
  Webhook.body r = Webhook.unavailable_xml \/
  exists phone,
    Webhook.body r = Webhook.transfer_xml phone /\
    transfer_recorded d0 phone d.

(** *** The transcript *)

(** The call with CallSid [sid] is linked to the conversation [conv], which
    holds [speech] as a user message. *)
Definition transcribed_in (sid speech : string) (conv : Prisma.id)
           (d : Prisma.Db) : Prop :=
  exists call,
    Prisma.call_by_sid sid d = Some call /\
    Prisma.conversationId call = Some conv /\
    Prisma.message_first conv "user" speech d <> None.

Definition transcribed (sid speech : string) (d : Prisma.Db) : Prop :=
  exists conv, transcribed_in sid speech conv d.

(** *** A dictation *)

(** From [d] to [d'] the teacher [teacher] dictated the result [p], heard
    in the conversation [conv]: the grades of the entries with a name and a
    numeric grade were saved, [confirmation] was stored as the newest
    message, under the role assistant, and at most the classroom of [p] was
    added. *)
Record dictated (teacher conv : Prisma.id)
       (p : GradeExtractor.AIExtractResult) (confirmation : string)
       (d d' : Prisma.Db) : Prop := {
  dictated_grades : exists added,
      Prisma.grades d' = (Prisma.grades d ++ added)%list /\
      Forall2 (grade_of d') (filter savable (GradeExtractor.entries p)) added;
  dictated_message : exists i,
      Prisma.messages d' =
        (Prisma.messages d ++
         [{| Prisma.msg_id := i; Prisma.msg_conversationId := conv;
             Prisma.msg_role := "assistant";
             Prisma.msg_content := confirmation |}])%list;
  dictated_classroom :
      Prisma.classrooms d' = Prisma.classrooms d \/
      exists i name,
        GradeExtractor.className p = Some name /\
        Prisma.classrooms d' =
          (Prisma.classrooms d ++
           [{| Prisma.classroom_id := i; Prisma.classroom_name := name;
               Prisma.classroom_teacherId := teacher |}])%list;
  dictated_classroom_found : forall name,
      GradeExtractor.className p = Some name -> name <> EmptyString ->
      Prisma.classroom_first name teacher d' <> None;
  dictated_students : grown (Prisma.students d) (Prisma.students d');
  dictated_users : Prisma.users d' = Prisma.users d;
  dictated_calls : Prisma.calls d' = Prisma.calls d;
  dictated_conversations : Prisma.conversations d' = Prisma.conversations d;
  dictated_escalations : Prisma.escalations d' = Prisma.escalations d
}.

(* ================================================================== *)
(** ** Proofs *)
(* ================================================================== *)

(** *** Strings *)

Lemma chars_append (a b : string) :
  Js.chars (a ++ b) = (Js.chars a ++ Js.chars b)%list.
Proof.
  induction a as [|c a IH]; simpl; [reflexivity|].
  unfold Js.chars in *. simpl. now rewrite IH.
Qed.

Lemma starts_with_app (p s t : list ascii) :
  Js.starts_with p s = true -> Js.starts_with p (s ++ t)%list = true.
Proof.
  revert s. induction p as [|a p IH]; intros s H; [reflexivity|].
  destruct s as [|b s]; simpl in *; [discriminate|].
  apply andb_true_iff in H as [H1 H2].
  rewrite H1. simpl. now apply IH.
Qed.

Lemma includes_chars_app_l (s t sub : list ascii) :
  Js.includes_chars s sub = true ->
  Js.includes_chars (s ++ t)%list sub = true.
Proof.
  induction s as [|c s IH]; simpl; intros H.
  - rewrite orb_false_r in H. destruct sub; [|discriminate].
    destruct t; reflexivity.
  - apply orb_true_iff in H as [H|H].
    + change (c :: (s ++ t)%list) with ((c :: s) ++ t)%list.
      now rewrite (starts_with_app _ _ _ H).
    + rewrite (IH H). apply orb_true_r.
Qed.

Lemma includes_chars_app_r (s t sub : list ascii) :
  Js.includes_chars t sub = true ->
  Js.includes_chars (s ++ t)%list sub = true.
Proof.
  intros H. induction s as [|c s IH]; simpl; [exact H|].
  rewrite IH. apply orb_true_r.
Qed.

Lemma includes_app_l (a b sub : string) :
  Js.includes a sub = true -> Js.includes (a ++ b) sub = true.
Proof.
  unfold Js.includes. rewrite chars_append. apply includes_chars_app_l.
Qed.

Lemma includes_app_r (a b sub : string) :
  Js.includes b sub = true -> Js.includes (a ++ b) sub = true.
Proof.
  unfold Js.includes. rewrite chars_append. apply includes_chars_app_r.
Qed.

Lemma append_nonempty_l (a b : string) :
  a <> EmptyString -> (a ++ b)%string <> EmptyString.
Proof. destruct a; simpl; [congruence | discriminate]. Qed.

(** *** Rules of the program logic *)

Section Rules.
Context {A B : Type} (healthy : bool).
Implicit Types (P : Prisma.Db -> Prop) (E : Prisma.Db -> Prop).

Lemma hoare_ret P (a : A) (Q : A -> Prisma.Db -> Prop) E :
  (forall d, P d -> Q a d) -> hoare healthy P (ret a) Q E.
Proof. intros H w Hf Hp. simpl. auto. Qed.

Lemma hoare_throw P (e : exn) (Q : A -> Prisma.Db -> Prop) E :
  (forall d, P d -> E d) -> hoare healthy P (throw e) Q E.
Proof. intros H w Hf Hp. simpl. auto. Qed.

Lemma hoare_await P (r : result A) (Q : A -> Prisma.Db -> Prop) E :
  (forall d, P d -> match r with Ok a => Q a d | Throw _ => E d end) ->
  hoare healthy P (await r) Q E.
Proof.
  intros H w Hf Hp. unfold await. specialize (H _ Hp).
  destruct r; auto.
Qed.

Lemma hoare_bind P (m : M A) (f : A -> M B) (R : A -> Prisma.Db -> Prop)
      (Q : B -> Prisma.Db -> Prop) E :
  hoare healthy P m R E ->
  (forall a, hoare healthy (R a) (f a) Q E) ->
  hoare healthy P (bind m f) Q E.
Proof.
  intros Hm Hf w Hh Hp. unfold bind. specialize (Hm w Hh Hp).
  destruct (m w) as [[a|e] w']; [|exact Hm].
  destruct Hm as [Hr Hh']. exact (Hf a w' Hh' Hr).
Qed.

Lemma hoare_try P (m : M A) (h : exn -> M A) (Q : A -> Prisma.Db -> Prop)
      (E' : Prisma.Db -> Prop) E :
  hoare healthy P m Q E' ->
  (forall e, hoare healthy E' (h e) Q E) ->
  hoare healthy P (try_catch m h) Q E.
Proof.
  intros Hm Hh w Hf Hp. unfold try_catch. specialize (Hm w Hf Hp).
  destruct (m w) as [[a|e] w']; [exact Hm|].
  destruct Hm as [He Hf']. exact (Hh e w' Hf' He).
Qed.

Lemma hoare_exec P (op : Prisma.Db -> result A * Prisma.Db)
      (Q : A -> Prisma.Db -> Prop) E :
  (healthy = false -> forall d, P d -> E d) ->
  (forall d, P d ->
     match op d with
     | (Ok a, d') => Q a d'
     | (Throw _, d') => E d'
     end) ->
  hoare healthy P (exec op) Q E.
Proof.
  intros Hfault Hop w Hf Hp. unfold exec.
  destruct (faults w) as [|[|] fs] eqn:Efs.
  - specialize (Hop _ Hp). destruct (op (db w)) as [[a|e] d']; simpl; auto.
  - destruct healthy; [specialize (Hf eq_refl); congruence|].
    simpl. split; [auto | discriminate].
  - destruct healthy; [specialize (Hf eq_refl); congruence|].
    specialize (Hop _ Hp).
    destruct (op (db w)) as [[a|e] d']; simpl; split; auto; discriminate.
Qed.

Lemma hoare_query P (f : Prisma.Db -> A) (Q : A -> Prisma.Db -> Prop) E :
  (healthy = false -> forall d, P d -> E d) ->
  (forall d, P d -> Q (f d) d) ->
  hoare healthy P (query f) Q E.
Proof. intros Hfault Hq. apply hoare_exec; auto. Qed.

Lemma hoare_conseq (P P' : Prisma.Db -> Prop) (m : M A)
      (Q Q' : A -> Prisma.Db -> Prop) (E E' : Prisma.Db -> Prop) :
  hoare healthy P m Q E ->
  (forall d, P' d -> P d) ->
  (forall a d, Q a d -> Q' a d) ->
  (forall d, E d -> E' d) ->
  hoare healthy P' m Q' E'.
Proof.
  intros H HP HQ HE w Hf Hp. specialize (H w Hf (HP _ Hp)).
  destruct (m w) as [[a|e] w']; destruct H; auto.
Qed.

(** A fact that does not depend on the database can be taken out of the
    precondition. *)
Lemma hoare_assume (F : Prop) P (m : M A) (Q : A -> Prisma.Db -> Prop) E :
  (F -> hoare healthy P m Q E) ->
  hoare healthy (fun d => F /\ P d) m Q E.
Proof. intros H w Hf [HF Hp]. exact (H HF w Hf Hp). Qed.

Lemma hoare_pure (F : Prop) (m : M A) (Q : A -> Prisma.Db -> Prop) E :
  (F -> hoare healthy anything m Q E) ->
  hoare healthy (fun _ => F) m Q E.
Proof. intros H w Hf HF. exact (H HF w Hf I). Qed.

Lemma hoare_any P (m : M A) :
  hoare false P m (fun _ => anything) anything.
Proof.
  intros w _ _. destruct (m w) as [[a|e] w']; split;
    solve [exact I | discriminate].
Qed.
End Rules.

Lemma hoare_void {A : Type} healthy P (m : M A) (Q : unit -> Prisma.Db -> Prop) E :
  hoare healthy P m (fun _ => Q tt) E -> hoare healthy P (void m) Q E.
Proof.
  intros H. unfold void. eapply hoare_bind; [exact H|].
  intros a. apply hoare_ret. auto.
Qed.

(** Skip a step whose result and effect do not matter. *)
Ltac hskip := eapply hoare_bind; [apply hoare_any | intros ?].

(** *** Documents *)

Lemma teacher_xml_listens (speakReply : string) :
  Doc.spoken_and_listen (Webhook.teacher_xml speakReply).
Proof.
  split; unfold Webhook.teacher_xml.
  - apply includes_app_l. vm_compute. reflexivity.
  - apply includes_app_r, includes_app_r. vm_compute. reflexivity.
Qed.

Lemma transfer_xml_bridges (phone : string) :
  Doc.bridge (Webhook.transfer_xml phone).
Proof.
  unfold Doc.bridge, Webhook.transfer_xml.
  apply includes_app_l. vm_compute. reflexivity.
Qed.

Lemma conversation_xml_listens (reply : string) :
  Doc.spoken_and_listen (Webhook.conversation_xml reply).
Proof.
  split; unfold Webhook.conversation_xml;
    apply includes_app_l; vm_compute; reflexivity.
Qed.

Lemma template_valid (xml : string) :
  Doc.template xml -> Doc.valid xml /\ xml <> EmptyString.
Proof.
  intros [| r | p | | r | | |].
  - split; [left; split; vm_compute; reflexivity | discriminate].
  - split; [left; apply teacher_xml_listens |].
    apply append_nonempty_l. discriminate.
  - split; [right; left; apply transfer_xml_bridges |].
    apply append_nonempty_l. discriminate.
  - split; [right; right; repeat split; vm_compute; reflexivity
           | discriminate].
  - split; [left; apply conversation_xml_listens |].
    apply append_nonempty_l. discriminate.
  - split; [left; split; vm_compute; reflexivity | discriminate].
  - split; [left; split; vm_compute; reflexivity | discriminate].
  - split; [right; right; repeat split; vm_compute; reflexivity
           | discriminate].
Qed.

Lemma xml_response_acceptable (terminal : bool) (xml : string) :
  Doc.template xml -> Doc.acceptable terminal (Webhook.xml_response xml).
Proof.
  intros H. destruct (template_valid _ H) as [Hv Hn].
  split; [reflexivity|]. right. simpl. auto.
Qed.

(** *** The handler always answers *)

Section Answers.
Context (JSON_parse : string -> result GradeExtractor.value)
        (show_number : Js.number -> string)
        (default_status : string)
        (env : Webhook.Env).

Lemma teacher_turn_verbatim P E speech call :
  hoare false P
    (Webhook.teacher_turn JSON_parse show_number env speech call)
    (fun returned _ =>
       forall r, returned = Some r ->
         exists savedCount parsedResult,
           r = Webhook.xml_response
                 (Webhook.teacher_xml
                    (Webhook.speak_reply
                       (Webhook.confirm_text savedCount parsedResult)
                       parsedResult))) E.
Proof.
  unfold Webhook.teacher_turn.
  eapply hoare_try with (E' := anything).
  - hskip. destruct a as [caller|];
      [|apply hoare_ret; intros; discriminate].
    destruct (String.eqb _ _); [|apply hoare_ret; intros; discriminate].
    hskip. destruct (negb _); [|apply hoare_ret; intros; discriminate].
    hskip. hskip. hskip.
    apply hoare_ret. intros d _ r [= <-].
    eexists. eexists. reflexivity.
  - intros e. apply hoare_ret. intros; discriminate.
Qed.

Lemma teacher_turn_document P E speech call :
  hoare false P
    (Webhook.teacher_turn JSON_parse show_number env speech call)
    (fun returned _ => forall r, returned = Some r -> is_document r) E.
Proof.
  eapply hoare_conseq; [apply (teacher_turn_verbatim P E) | auto ..].
  intros returned d H r Hr. destruct (H r Hr) as [n [p ->]].
  eexists. split; [reflexivity | apply Doc.t_teacher].
Qed.

Lemma escalate_document P call aiResult :
  hoare false P (Webhook.escalate call aiResult)
        (fun r _ => is_document r) anything.
Proof.
  unfold Webhook.escalate. hskip. hskip.
  destruct a0 as [counselor|].
  - hskip. hskip. hskip. apply hoare_ret. intros.
    eexists. split; [reflexivity | apply Doc.t_transfer].
  - apply hoare_ret. intros.
    eexists. split; [reflexivity | apply Doc.t_unavailable].
Qed.

Lemma speech_turn_document P E speech callSid from :
  hoare false P
    (Webhook.speech_turn JSON_parse show_number default_status env
                         speech callSid from)
    (fun r _ => is_document r) E.
Proof.
  unfold Webhook.speech_turn.
  eapply hoare_try with (E' := anything).
  - hskip. hskip.
    eapply hoare_bind.
    + apply teacher_turn_document.
    + intros [r|].
      * apply hoare_ret. intros d H. now apply H.
      * hskip. destruct (Cohere.needsEscalation a1).
        -- apply escalate_document.
        -- apply hoare_ret. intros.
           eexists. split; [reflexivity | apply Doc.t_conversation].
  - intros e. apply hoare_ret. intros.
    eexists. split; [reflexivity | apply Doc.t_fallback].
Qed.

Lemma POST_acceptable request :
  hoare false anything
    (Webhook.POST JSON_parse show_number default_status env request)
    (fun r _ => Doc.acceptable (status_update_request request) r /\
                (forall e, Webhook.formData request = Throw e ->
                           Webhook.body r = Webhook.errorXml))
    (fun _ => False).
Proof.
  unfold Webhook.POST, status_update_request.
  destruct (Webhook.formData request) as [form|e0].
  - eapply hoare_try with (E' := anything).
    + eapply hoare_bind with (R := fun a _ => a = form).
      { apply hoare_await. reflexivity. }
      intros a. apply hoare_pure. intros ->.
      assert (Hdoc : forall r, is_document r ->
                Doc.acceptable (Webhook.is_terminal (Webhook.CallStatus form)) r /\
                (forall e, Ok form = Throw e ->
                           Webhook.body r = Webhook.errorXml)).
      { intros r [xml [-> Hx]]. split; [|discriminate].
        now apply xml_response_acceptable. }
      destruct (Webhook.is_terminal (Webhook.CallStatus form)) eqn:Ht.
      * unfold Webhook.status_update. hskip. hskip.
        apply hoare_ret. intros. split; [|discriminate].
        split; [reflexivity | left; auto].
      * hskip. destruct (negb _).
        { apply hoare_ret. intros. apply Hdoc.
          eexists. split; [reflexivity | apply Doc.t_greeting]. }
        destruct (Js.truthy _).
        { eapply hoare_conseq; [apply speech_turn_document | | | ].
          - intros d H. exact H.
          - intros r d H. now apply Hdoc.
          - intros d H. exact H. }
        apply hoare_ret. intros. apply Hdoc.
        eexists. split; [reflexivity | apply Doc.t_repeat].
    + intros e. apply hoare_ret. intros. split; [|discriminate].
      apply xml_response_acceptable. apply Doc.t_error.
  - eapply hoare_try with (E' := anything).
    + eapply hoare_bind with (R := fun _ _ => False).
      { apply hoare_await. intros. exact I. }
      intros a w _ [].
    + intros e. apply hoare_ret. intros. split; [|reflexivity].
      apply xml_response_acceptable. apply Doc.t_error.
Qed.
End Answers.

Lemma handle_always_answers
      (JSON_parse : string -> result GradeExtractor.value)
      (show_number : Js.number -> string) (default_status : string)
      (env : Webhook.Env) (request : Webhook.Request)
      (fs : list bool) (d : Prisma.Db) :
  exists r d',
    Webhook.handle JSON_parse show_number default_status env request fs d
      = (Ok r, d') /\
    Doc.acceptable (status_update_request request) r /\
    (forall e, Webhook.formData request = Throw e ->
               Webhook.body r = Webhook.errorXml).
Proof.
  pose proof (POST_acceptable JSON_parse show_number default_status env
                request {| db := d; faults := fs |}) as H.
  unfold Webhook.handle.
  destruct (Webhook.POST _ _ _ _ _ _) as [[r|e] w'].
  - destruct H as [[Ha He] _]; [discriminate | exact I |].
    exists r, (db w'). auto.
  - destruct H as [[] _]; [discriminate | exact I].
Qed.

(** C1. For every inbound webhook event, every behaviour of the two AI
    services and every schedule of storage failures, the handler returns
    (it never propagates an error) an HTTP 200 response: the empty body only
    to acknowledge a terminal status update, and otherwise one of its eight
    voice-response documents, which holds a spoken line with a listen-again
    directive, a bridge directive, or a terminal spoken line. A request
    whose form cannot be read, and a status update whose first storage call
    fails, get the technical-difficulty document; an utterance whose first
    storage call fails gets the trouble-responding document, which listens
    again. *)
Theorem C1_handler_always_answers
        (JSON_parse : string -> result GradeExtractor.value)
        (show_number : Js.number -> string) (default_status : string)
        (env : Webhook.Env) (request : Webhook.Request)
        (fs : list bool) (d : Prisma.Db) :
  exists r d',
    Webhook.handle JSON_parse show_number default_status env request fs d
      = (Ok r, d') /\
    Webhook.status r = 200 /\
    (Webhook.body r = EmptyString -> status_update_request request = true) /\
    (Webhook.body r <> EmptyString ->
       Webhook.content_type r = Some "text/xml" /\
       Doc.template (Webhook.body r) /\ Doc.valid (Webhook.body r)) /\
    (forall e, Webhook.formData request = Throw e ->
               Webhook.body r = Webhook.errorXml) /\
    (forall form fs',
       Webhook.formData request = Ok form -> fs = true :: fs' ->
       Webhook.is_terminal (Webhook.CallStatus form) = true ->
       Webhook.body r = Webhook.errorXml /\ d' = d) /\
    (forall form speech fs',
       Webhook.formData request = Ok form -> fs = true :: fs' ->
       Webhook.CallStatus form = None ->
       Webhook.SpeechResult form = Some speech ->
       Js.truthy (Js.trim speech) = true ->
       Webhook.body r = Webhook.fallback_xml /\ d' = d).
Proof.
  destruct (handle_always_answers JSON_parse show_number default_status env
              request fs d) as [r [d' [Hrun [[Hs Hb] He]]]].
  exists r, d'. split; [exact Hrun|]. split; [exact Hs|].
  split; [|split; [|split; [exact He|split]]].
  - intros Hempty. destruct Hb as [[_ Ht]|[_ [Hn _]]]; [exact Ht|].
    contradiction.
  - intros Hn. destruct Hb as [[-> _]|[Hc [_ [Ht Hv]]]];
      [simpl in Hn; contradiction | auto].
  - intros form fs' Hform -> Hterminal. revert Hrun.
    unfold Webhook.handle, Webhook.POST, Webhook.status_update, try_catch,
      bind, await, query, exec, ret.
    rewrite Hform. simpl. rewrite Hterminal. simpl.
    intros [= <- <-]. auto.
  - intros form speech fs' Hform -> Hstatus Hspeech Htrim. revert Hrun.
    assert (Hs' : Js.truthy speech = true).
    { destruct speech; [discriminate | reflexivity]. }
    unfold Webhook.handle, Webhook.POST, Webhook.speech_turn,
      Webhook.resolve_call, when, try_catch, bind, await, query, exec, ret.
    rewrite Hform. simpl. rewrite Hstatus, Hspeech. simpl.
    rewrite Hs'. simpl. rewrite Htrim. simpl.
    intros [= <- <-]. auto.
Qed.

(** *** The heuristic parser on the documented sample *)

(** C8. On the utterance "Alice: Math 92, Biology 88", which the comment of
    the parser lists as supported, the heuristic parser does not yield
    (Alice, Math, 92) and (Alice, Biology, 88): its first pattern matches
    before the name-colon-subject pattern is tried (which alone would yield
    Alice, Math, 92 for the first part), and the two entries it yields are a
    student "Math" with 92 and a student "Biology" with 88, without subject.
    For a teacher whose extractor call timed out, two grade rows are stored
    for those students under the subject General, and the document confirms
    "Saved 2 grade(s)". *)
Theorem C8_alice_line_is_misparsed :
  GradeParser.parse_parts "Alice: Math 92, Biology 88"
    = ["Alice: Math 92"; "Biology 88"] /\
  GradeParser.first_entry [GradeParser.rx_name_subject_grade] "Alice: Math 92"
    = Some {| GradeParser.studentName := "Alice";
              GradeParser.subject := Some "Math";
              GradeParser.grade := Some (Js.Num (92 # 1)) |} /\
  GradeParser.parseGrades "Alice: Math 92, Biology 88" =
    {| GradeParser.className := None;
       GradeParser.entries :=
         [{| GradeParser.studentName := "Math";
             GradeParser.subject := None;
             GradeParser.grade := Some (Js.Num (92 # 1)) |};
          {| GradeParser.studentName := "Biology";
             GradeParser.subject := None;
             GradeParser.grade := Some (Js.Num (88 # 1)) |}] |} /\
  exists d',
    Scenario.run Scenario.env
      (Scenario.request (Some "Alice: Math 92, Biology 88") "CA1"
                        "+15550101" None) [] Scenario.db0
    = (Ok (Webhook.xml_response
             (Webhook.teacher_xml
                "Saved 2 grade(s). Would you like to add more grades?")), d') /\
    map Prisma.student_name (Prisma.students d') = ["Math"; "Biology"] /\
    map (fun g => (Prisma.grade_subject g, Prisma.grade_value g))
        (Prisma.grades d')
    = [("General", Js.Num (92 # 1)); ("General", Js.Num (88 # 1))].
Proof.
  split; [vm_compute; reflexivity|].
  split; [vm_compute; reflexivity|].
  split; [vm_compute; reflexivity|].
  eexists. split; [vm_compute; reflexivity|].
  split; vm_compute; reflexivity.
Qed.

(** *** The conversational engine *)

Lemma classification_on_flags (s k h p t c m u r w a : bool) :
  (s || k || h || p || t || c || m || u || r || w || a,
   if s || k || h || p || t || c || m || u || r || w || a
   then if s || k || h || u || r then "crisis" else "requested_professional"
   else EmptyString)
  = if s || (k || (h || (u || (r || false)))) then (true, "crisis")
    else if p || (t || (c || (m || (w || (a || false)))))
         then (true, "requested_professional")
         else (false, EmptyString).
Proof.
  destruct s, k, h, u, r; simpl;
    repeat (rewrite ?orb_true_r, ?orb_false_r; simpl); try reflexivity.
  destruct p, t, c, m, w, a; reflexivity.
Qed.

Lemma classification_is_lexical (input : string) :
  (Cohere.needs_escalation input, Cohere.escalation_reason input)
  = Lexicon.classify input.
Proof. apply classification_on_flags. Qed.

Lemma classify_case_insensitive (a b : string) :
  Js.toLowerCase a = Js.toLowerCase b ->
  Lexicon.classify a = Lexicon.classify b.
Proof.
  intros H. unfold Lexicon.classify, Lexicon.matches. now rewrite H.
Qed.

(** Every reply of the engine carries either no escalation or the
    classification of the utterance. *)
Lemma getAIResponse_flags chat input callId :
  hoare false anything (Cohere.getAIResponse chat input callId)
    (fun r _ =>
       (Cohere.needsEscalation r, Cohere.escalationReason r)
         = Lexicon.classify input \/
       (Cohere.needsEscalation r, Cohere.escalationReason r)
         = (false, EmptyString))
    anything.
Proof.
  unfold Cohere.getAIResponse. hskip.
  destruct a as [[conversation msgs]|]; [|apply hoare_ret; intros; now right].
  hskip. eapply hoare_try with (E' := anything).
  - hskip. hskip. apply hoare_ret. intros. left. simpl.
    apply classification_is_lexical.
  - intros e. destruct (String.eqb _ _); apply hoare_ret; intros; now right.
Qed.

(** C7. When the completion service replies, the escalation flag and reason
    the engine returns are the case-insensitive substring classification of
    the raw utterance against the crisis and the professional-request
    lexicons, whatever the reply says; with a crisis term and a
    professional-request term both present the reason is crisis. On every
    run the flags are that classification or no escalation at all. *)
Theorem C7_escalation_is_keyword_match
        (chat : Cohere.ChatRequest -> outcome Cohere.ChatReply)
        (input : string) (callId : Prisma.id) (w : World)
        (call : Prisma.Call) (conv : Prisma.id) (reply : Cohere.ChatReply)
        (Hhealthy : faults w = [])
        (Hcall : Prisma.call_by_id callId (db w) = Some call)
        (Hconv : Prisma.conversationId call = Some conv)
        (Hreply : chat (Cohere.chat_request input
                          (Prisma.messages_of conv (db w))) = Resolved reply) :
  (exists r w',
     Cohere.getAIResponse chat input callId w = (Ok r, w') /\
     Cohere.response r = Js.or_else reply "I'm here to listen." /\
     (Cohere.needsEscalation r, Cohere.escalationReason r)
       = Lexicon.classify input /\
     (Lexicon.matches Lexicon.crisis input = true ->
      Lexicon.matches Lexicon.professional input = true ->
      Cohere.needsEscalation r = true /\
      Cohere.escalationReason r = "crisis")) /\
  (forall input', Js.toLowerCase input' = Js.toLowerCase input ->
                  Lexicon.classify input' = Lexicon.classify input) /\
  (forall chat0 w0 r0 w0',
     Cohere.getAIResponse chat0 input callId w0 = (Ok r0, w0') ->
     (Cohere.needsEscalation r0, Cohere.escalationReason r0)
       = Lexicon.classify input \/
     (Cohere.needsEscalation r0, Cohere.escalationReason r0)
       = (false, EmptyString)).
Proof.
  split; [|split].
  - assert (Hprec : Lexicon.matches Lexicon.crisis input = true ->
                    Lexicon.matches Lexicon.professional input = true ->
                    Cohere.needs_escalation input = true /\
                    Cohere.escalation_reason input = "crisis").
    { intros Hc _. pose proof (classification_is_lexical input) as Hl.
      unfold Lexicon.classify in Hl. rewrite Hc in Hl.
      injection Hl as -> ->. auto. }
    pose proof (classification_is_lexical input) as Hl.
    destruct w as [d fs]. simpl in *. subst fs.
    unfold Cohere.getAIResponse, bind, query, exec, try_catch, void, await,
      ret. simpl.
    rewrite Hcall, Hconv.
    destruct (Prisma.message_first conv "user" input d) eqn:Hm; simpl;
      rewrite ?Hm; simpl; rewrite Hreply; simpl;
      (eexists; eexists; split; [reflexivity|]; simpl;
       split; [reflexivity|]; split; [exact Hl | exact Hprec]).
  - intros input' H. now apply classify_case_insensitive.
  - intros chat0 w0 r0 w0' Hrun.
    pose proof (getAIResponse_flags chat0 input callId w0) as H.
    rewrite Hrun in H. apply H; [discriminate | exact I].
Qed.

Lemma C7_witness :
  exists r w',
    Cohere.getAIResponse (Webhook.chat Scenario.env)
      "I want to KILL MYSELF, get me a therapist" 4
      {| db := Scenario.db1; faults := [] |} = (Ok r, w') /\
    Cohere.needsEscalation r = true /\
    Cohere.escalationReason r = "crisis".
Proof.
  destruct (C7_escalation_is_keyword_match (Webhook.chat Scenario.env)
              "I want to KILL MYSELF, get me a therapist" 4
              {| db := Scenario.db1; faults := [] |}
              Scenario.call1 3 (Some "I hear you.")
              eq_refl eq_refl eq_refl eq_refl)
    as [[r [w' [Hrun [_ [_ Hprec]]]]] _].
  exists r, w'. split; [exact Hrun|].
  apply Hprec; vm_compute; reflexivity.
Defined.

(** C6 as stated fails: on a timeout the engine has already stored the
    caller's utterance as a user message. Called on its own it does so
    whenever the conversation does not hold the utterance; called by the
    handler it does so when the handler's own insert of the utterance has
    failed. *)
Lemma C6_counterexample :
  (exists w w',
     Cohere.getAIResponse (fun _ => TimedOut) "hello" 4 w
       = (Ok Cohere.timeout_response, w') /\
     Prisma.messages (db w) = [] /\
     Prisma.messages (db w') =
       [{| Prisma.msg_id := 5; Prisma.msg_conversationId := 3;
           Prisma.msg_role := "user"; Prisma.msg_content := "hello" |}]) /\
  Scenario.run Scenario.env_silent
    (Scenario.request (Some "hello") "CA1" "+15550111" None)
    [false; false; true] Scenario.db1
  = (Ok (Webhook.xml_response
           (Webhook.conversation_xml
              "Im taking a bit longer to respond. Please hold on.")),
     Prisma.add_message
       {| Prisma.msg_id := 5; Prisma.msg_conversationId := 3;
          Prisma.msg_role := "user"; Prisma.msg_content := "hello" |}
       Scenario.db1).
Proof.
  split.
  - exists {| db := Scenario.db1; faults := [] |}. eexists.
    split; [vm_compute; reflexivity|]. split; reflexivity.
  - vm_compute. reflexivity.
Qed.

Lemma find_snoc_found {A : Type} (p : A -> bool) (l : list A) (x : A) :
  p x = true -> find p (l ++ [x])%list <> None.
Proof.
  intros Hx. induction l as [|y l IH]; simpl.
  - now rewrite Hx.
  - destruct (p y); [discriminate | exact IH].
Qed.

Lemma is_message_refl conv role content i :
  Prisma.is_message conv role content
    {| Prisma.msg_id := i; Prisma.msg_conversationId := conv;
       Prisma.msg_role := role; Prisma.msg_content := content |} = true.
Proof.
  unfold Prisma.is_message. simpl.
  now rewrite Nat.eqb_refl, !String.eqb_refl.
Qed.

(** C6 (amended). When the completion service times out, the engine returns
    the fixed taking-a-bit-longer reply with the escalation flag false and
    an empty reason; when the service fails otherwise, the fixed apology,
    also without escalation. In both cases it stores no assistant message.
    What it does store is the utterance itself, as a user message, before
    the service is called: when the conversation does not hold it yet and
    the lookup and the insert of that message succeed, the database after
    the call is the one before it with that message added; in every other
    case (the conversation holds the utterance already, or one of the two
    storage calls fails, which the engine only logs) the database is left
    as it was. So when those two storage calls succeed, the conversation
    holds the utterance after the failed attempt. *)
Theorem C6_timeout_reply_without_assistant_message
        (chat : Cohere.ChatRequest -> outcome Cohere.ChatReply)
        (input : string) (callId : Prisma.id) (w : World)
        (call : Prisma.Call) (conv : Prisma.id)
        (Hread : hd false (faults w) = false)
        (Hcall : Prisma.call_by_id callId (db w) = Some call)
        (Hconv : Prisma.conversationId call = Some conv)
        (Hfail : chat (Cohere.chat_request input
                         (Prisma.messages_of conv (db w))) = TimedOut \/
                 exists e,
                   chat (Cohere.chat_request input
                           (Prisma.messages_of conv (db w))) = Rejected e) :
  exists r w',
    Cohere.getAIResponse chat input callId w = (Ok r, w') /\
    (chat (Cohere.chat_request input (Prisma.messages_of conv (db w)))
       = TimedOut ->
     r = {| Cohere.response :=
              "I'm taking a bit longer to respond. Please hold on.";
            Cohere.needsEscalation := false;
            Cohere.escalationReason := EmptyString |}) /\
    (r = Cohere.timeout_response \/ r = Cohere.trouble_response) /\
    Cohere.needsEscalation r = false /\
    Cohere.escalationReason r = EmptyString /\
    (Prisma.messages (db w') = Prisma.messages (db w) \/
     Prisma.message_first conv "user" input (db w) = None /\
     Prisma.messages (db w') =
       (Prisma.messages (db w) ++
        [{| Prisma.msg_id := Prisma.next_id (db w);
            Prisma.msg_conversationId := conv;
            Prisma.msg_role := "user";
            Prisma.msg_content := input |}])%list) /\
    filter is_assistant (Prisma.messages (db w'))
      = filter is_assistant (Prisma.messages (db w)) /\
    (Prisma.message_first conv "user" input (db w) = None ->
     nth 1 (faults w) false = false ->
     nth 2 (faults w) false = false ->
     db w' =
       Prisma.add_message
         {| Prisma.msg_id := Prisma.next_id (db w);
            Prisma.msg_conversationId := conv;
            Prisma.msg_role := "user";
            Prisma.msg_content := input |} (db w)) /\
    (Prisma.message_first conv "user" input (db w) <> None \/
     nth 1 (faults w) false = true \/
     nth 2 (faults w) false = true ->
     db w' = db w) /\
    (nth 1 (faults w) false = false ->
     nth 2 (faults w) false = false ->
     Prisma.message_first conv "user" input (db w') <> None).
Proof.
  assert (Hkeep : forall l,
            filter is_assistant
              (l ++ [{| Prisma.msg_id := Prisma.next_id (db w);
                        Prisma.msg_conversationId := conv;
                        Prisma.msg_role := "user";
                        Prisma.msg_content := input |}])%list
            = filter is_assistant l).
  { intros l. rewrite filter_app. simpl. apply app_nil_r. }
  assert (Hnow : forall l,
            find (Prisma.is_message conv "user" input)
              (l ++ [{| Prisma.msg_id := Prisma.next_id (db w);
                        Prisma.msg_conversationId := conv;
                        Prisma.msg_role := "user";
                        Prisma.msg_content := input |}])%list <> None).
  { intros l. apply find_snoc_found, is_message_refl. }
  destruct w as [d fs]. simpl in *.
  assert (Hthrow : exists e,
            race (chat (Cohere.chat_request input
                          (Prisma.messages_of conv d))) = Throw e /\
            (chat (Cohere.chat_request input (Prisma.messages_of conv d))
               = TimedOut -> e = timeout_error)).
  { destruct Hfail as [->|[e ->]]; simpl; eexists; split;
      try reflexivity; discriminate. }
  destruct Hthrow as [e [Hrace He]].
  assert (Hreply : forall w0 : World,
            exists r,
              (if String.eqb (message_of e) "AI response timeout"
               then ret Cohere.timeout_response
               else ret Cohere.trouble_response) w0 = (Ok r, w0) /\
              (e = timeout_error -> r = Cohere.timeout_response) /\
              (r = Cohere.timeout_response \/ r = Cohere.trouble_response)).
  { intros w0. destruct (String.eqb (message_of e) _) eqn:Em.
    - eexists. split; [reflexivity|]. auto.
    - eexists. split; [reflexivity|]. split; [|auto].
      intros ->. discriminate. }
  unfold Cohere.getAIResponse, void, bind, query, exec, try_catch, await.
  destruct fs as [|[|] fs]; simpl in Hread; try discriminate; simpl;
    rewrite Hcall, Hconv; simpl;
    repeat match goal with
      | |- context [match ?l with [] => _ | _ :: _ => _ end] =>
          is_var l; destruct l as [|[|] ?]; simpl
      | |- context [Prisma.message_first ?a ?b ?c ?d] =>
          lazymatch goal with
          | H : Prisma.message_first a b c d = _ |- _ => rewrite H
          | _ => destruct (Prisma.message_first a b c d) eqn:?
          end; simpl
      | |- context [race _] => rewrite Hrace; simpl
      end;
    match goal with
    | |- context [(if _ then _ else _) ?w0] =>
        destruct (Hreply w0) as [r [Hr [Ht Hcases]]]; rewrite Hr
    end;
    (exists r; eexists; (split; [reflexivity|]); simpl;
     (split; [intros Hto; apply Ht, He, Hto|]);
     (split; [exact Hcases|]);
     (split; [destruct Hcases as [->| ->]; reflexivity|]);
     (split; [destruct Hcases as [->| ->]; reflexivity|]);
     (split; [first [left; reflexivity | right; split; reflexivity]|]);
     (split; [first [reflexivity | apply Hkeep]|]);
     (split; [intros; solve [reflexivity | discriminate | congruence]|]);
     (split; [intros [Hheld|[Hf|Hf]];
              solve [reflexivity | discriminate Hf | congruence]|]);
     intros;
     solve [congruence | discriminate
           | unfold Prisma.message_first; simpl; apply Hnow]).
Qed.

Lemma C6_witness :
  exists w',
    Cohere.getAIResponse (fun _ => TimedOut) "hello" 4
      {| db := Scenario.db1; faults := [] |}
      = (Ok Cohere.timeout_response, w') /\
    filter is_assistant (Prisma.messages (db w')) = [] /\
    Prisma.messages (db w') =
      [{| Prisma.msg_id := 5; Prisma.msg_conversationId := 3;
          Prisma.msg_role := "user"; Prisma.msg_content := "hello" |}].
Proof.
  destruct (C6_timeout_reply_without_assistant_message
              (fun _ => TimedOut) "hello" 4
              {| db := Scenario.db1; faults := [] |} Scenario.call1 3
              eq_refl eq_refl eq_refl (or_introl eq_refl))
    as [r [w' [Hrun [Hr [_ [_ [_ [_ [Hkeep [Hstored _]]]]]]]]]].
  exists w'. rewrite (Hr eq_refl) in Hrun.
  split; [exact Hrun|]. split; [exact Hkeep|].
  rewrite (Hstored eq_refl eq_refl eq_refl). reflexivity.
Defined.

(** *** The extraction pipeline *)

Lemma extract_never_throws JSON_parse show_number complete text :
  exists r,
    GradeExtractor.extractGradesWithOpenAI JSON_parse show_number complete text
    = Ok r.
Proof.
  unfold GradeExtractor.extractGradesWithOpenAI, GradeExtractor.try_result.
  destruct (_ || _); [eauto|].
  destruct (race _) as [completion|e]; [|eauto].
  destruct (GradeExtractor.content_of completion) as [raw|]; [|eauto].
  destruct (negb _); [eauto|].
  destruct (JSON_parse _); [eauto|].
  destruct (JSON_parse _); eauto.
Qed.

Lemma extract_failure_is_empty JSON_parse show_number complete text :
  extractor_failure JSON_parse complete text ->
  exists line,
    clarification line /\
    GradeExtractor.extractGradesWithOpenAI JSON_parse show_number complete text
    = Ok (GradeExtractor.with_reply GradeExtractor.empty line).
Proof.
  intros Hfail.
  unfold GradeExtractor.extractGradesWithOpenAI, GradeExtractor.try_result.
  destruct (_ || _).
  { eexists. split; [left; reflexivity | reflexivity]. }
  destruct Hfail as [H | e H | c H Hc | c raw e1 e2 H Hc H1 H2]; rewrite H;
    simpl.
  - eexists. split; [right; right; reflexivity | reflexivity].
  - eexists. split; [right; right; reflexivity | reflexivity].
  - rewrite Hc. eexists. split; [left; reflexivity | reflexivity].
  - rewrite Hc. destruct (negb _).
    + eexists. split; [left; reflexivity | reflexivity].
    + rewrite H1, H2.
      eexists. split; [right; left; reflexivity | reflexivity].
Qed.

(** C9. Whatever the probabilistic extractor does, the extraction never
    throws. When it times out, throws, answers without text, or answers with
    text that [JSON.parse] rejects (also after the single-quote repair), the
    result has no entries and carries a clarification line, and the turn is
    decided by the heuristic parser on the same utterance, as it is whenever
    the extractor yields no entry. The teacher branch of the handler never
    throws either. *)
Theorem C9_extraction_failures_degrade
        (JSON_parse : string -> result GradeExtractor.value)
        (show_number : Js.number -> string)
        (env : Webhook.Env) (text : string)
        (Hfail : extractor_failure JSON_parse (Webhook.complete env) text) :
  (exists line,
     clarification line /\
     GradeExtractor.extractGradesWithOpenAI JSON_parse show_number
       (Webhook.complete env) text
     = Ok {| GradeExtractor.className := None;
             GradeExtractor.entries := [];
             GradeExtractor.missing := None;
             GradeExtractor.assistantReply := Some line |}) /\
  (forall w,
     Webhook.extract_grades JSON_parse show_number env text w
     = (Ok (Webhook.heuristic_result text), w)) /\
  (forall complete' text',
     exists r,
       GradeExtractor.extractGradesWithOpenAI JSON_parse show_number
         complete' text' = Ok r) /\
  (forall text' r w,
     GradeExtractor.extractGradesWithOpenAI JSON_parse show_number
       (Webhook.complete env) text' = Ok r ->
     GradeExtractor.entries r = [] ->
     Webhook.extract_grades JSON_parse show_number env text' w
     = (Ok (Webhook.heuristic_result text'), w)) /\
  (forall text' call w,
     exists returned w',
       Webhook.teacher_turn JSON_parse show_number env text' call w
       = (Ok returned, w')).
Proof.
  destruct (extract_failure_is_empty JSON_parse show_number _ _ Hfail)
    as [line [Hline Hrun]].
  split; [|split; [|split; [|split]]].
  - exists line. split; [exact Hline | exact Hrun].
  - intros w. unfold Webhook.extract_grades, bind, await.
    rewrite Hrun. reflexivity.
  - intros complete' text'. apply extract_never_throws.
  - intros text' r w Hr He. unfold Webhook.extract_grades, bind, await.
    rewrite Hr, He. reflexivity.
  - intros text' call w.
    pose proof (teacher_turn_document JSON_parse show_number env anything
                  (fun _ => False) text' call w) as H.
    destruct (Webhook.teacher_turn _ _ _ _ _ _) as [[returned|e] w'].
    + eauto.
    + destruct H as [[] _]; [discriminate | exact I].
Qed.

Lemma C9_witness :
  Webhook.extract_grades Scenario.JSON_parse Scenario.show_number
    Scenario.env "Alice 90" {| db := Scenario.db2; faults := [] |}
  = (Ok (Webhook.heuristic_result "Alice 90"),
     {| db := Scenario.db2; faults := [] |}).
Proof.
  apply (C9_extraction_failures_degrade Scenario.JSON_parse
           Scenario.show_number Scenario.env "Alice 90").
  apply fails_timeout. reflexivity.
Defined.

(** *** Embedding of replies into documents *)

Lemma starts_with_refl (s t : list ascii) :
  Js.starts_with s (s ++ t)%list = true.
Proof.
  induction s as [|c s IH]; simpl; [reflexivity|].
  unfold Js.char_eqb. now rewrite Ascii.eqb_refl.
Qed.

Lemma includes_refl (c : string) : Js.includes c c = true.
Proof.
  unfold Js.includes. destruct (Js.chars c) as [|x l]; [reflexivity|].
  simpl. unfold Js.char_eqb. rewrite Ascii.eqb_refl. simpl.
  pose proof (starts_with_refl l []) as H. rewrite app_nil_r in H.
  now rewrite H.
Qed.

Lemma chars_str (l : list ascii) : Js.chars (Js.str l) = l.
Proof. apply list_ascii_of_string_of_list_ascii. Qed.

Lemma forallb_drop_space (p : ascii -> bool) (l : list ascii) :
  forallb p l = true -> forallb p (Js.drop_space l) = true.
Proof.
  induction l as [|c l IH]; simpl; [auto|].
  intros H. apply andb_true_iff in H as [Hc Hl].
  destruct (Js.is_space c); [auto|]. simpl. now rewrite Hc, Hl.
Qed.

Lemma forallb_rev (p : ascii -> bool) (l : list ascii) :
  forallb p l = true -> forallb p (rev l) = true.
Proof.
  intros H. apply forallb_forall. intros x Hx.
  apply in_rev in Hx. revert x Hx. now apply forallb_forall.
Qed.

Lemma forallb_trim (p : ascii -> bool) (l : list ascii) :
  forallb p l = true -> forallb p (Js.trim_chars l) = true.
Proof.
  intros H. unfold Js.trim_chars.
  now apply forallb_rev, forallb_drop_space, forallb_rev, forallb_drop_space.
Qed.

Lemma clean_strips_markup (response : string) :
  Webhook.clean response = Webhook.default_reply \/
  forallb (fun c => negb (Webhook.markup_char c))
          (Js.chars (Webhook.clean response)) = true.
Proof.
  unfold Webhook.clean. destruct (negb _); [now left|]. right.
  unfold Js.trim, Js.remove_chars. rewrite !chars_str.
  apply forallb_trim. apply forallb_forall. intros x Hx.
  apply filter_In in Hx. tauto.
Qed.

Lemma speak_reply_prefers_extractor confirmText parsedResult reply :
  GradeExtractor.assistantReply parsedResult = Some reply ->
  Js.truthy reply = true ->
  Webhook.speak_reply confirmText parsedResult = reply.
Proof.
  intros H Ht. unfold Webhook.speak_reply. rewrite H. simpl. now rewrite Ht.
Qed.

Lemma confirm_text_holds_class savedCount parsedResult name :
  GradeExtractor.className parsedResult = Some name ->
  Js.truthy name = true ->
  Js.includes (Webhook.confirm_text savedCount parsedResult) name = true.
Proof.
  intros Hc Ht. unfold Webhook.confirm_text. rewrite Hc.
  cbn [Js.truthy_opt Js.or_else]. rewrite Ht.
  assert (Hs : Js.includes
                 ("Saved " ++ Js.of_nat savedCount ++ " grade(s)" ++
                  (" for class " ++ name) ++ ".")%string name = true).
  { do 3 apply includes_app_r. apply includes_app_l, includes_app_r.
    apply includes_refl. }
  destruct (GradeExtractor.missing parsedResult) as [[|n ns]|];
    cbv [Js.join]; try exact Hs.
  now apply includes_app_l.
Qed.

Lemma extract_grades_chosen JSON_parse show_number env speech w :
  Webhook.extract_grades JSON_parse show_number env speech w
  = (Ok (chosen_result JSON_parse show_number env speech), w).
Proof.
  unfold Webhook.extract_grades, chosen_result, bind, await.
  destruct (extract_never_throws JSON_parse show_number
              (Webhook.complete env) speech) as [p ->].
  destruct (Webhook.is_empty _); reflexivity.
Qed.

Lemma teacher_turn_speaks JSON_parse show_number env P E speech call :
  hoare false P
    (Webhook.teacher_turn JSON_parse show_number env speech call)
    (fun returned _ =>
       forall r, returned = Some r ->
         exists savedCount,
           r = Webhook.xml_response
                 (Webhook.teacher_xml
                    (Webhook.speak_reply
                       (Webhook.confirm_text savedCount
                          (chosen_result JSON_parse show_number env speech))
                       (chosen_result JSON_parse show_number env speech)))) E.
Proof.
  unfold Webhook.teacher_turn.
  eapply hoare_try with (E' := anything).
  - hskip. destruct a as [caller|];
      [|apply hoare_ret; intros; discriminate].
    destruct (String.eqb _ _); [|apply hoare_ret; intros; discriminate].
    eapply hoare_bind
      with (R := fun a _ =>
                   a = chosen_result JSON_parse show_number env speech).
    { intros w _ _. rewrite extract_grades_chosen. split; [reflexivity|].
      discriminate. }
    intros a. apply hoare_pure. intros ->.
    destruct (negb _); [|apply hoare_ret; intros; discriminate].
    hskip. hskip. hskip.
    apply hoare_ret. intros d _ r [= <-]. eexists. reflexivity.
  - intros e. apply hoare_ret. intros; discriminate.
Qed.

Lemma speech_turn_cleans JSON_parse show_number default_status env
      speech callSid from w0 call0 w1 call1 w2 w3 aiResult w4 :
  Webhook.resolve_call default_status callSid from w0 = (Ok call0, w1) ->
  Webhook.persist_transcription speech call0 w1 = (Ok call1, w2) ->
  Webhook.teacher_turn JSON_parse show_number env speech call1 w2
  = (Ok None, w3) ->
  Cohere.getAIResponse (Webhook.chat env) speech (Prisma.call_id call1) w3
  = (Ok aiResult, w4) ->
  Cohere.needsEscalation aiResult = false ->
  Webhook.speech_turn JSON_parse show_number default_status env
    speech callSid from w0
  = (Ok (Webhook.xml_response
           (Webhook.conversation_xml
              (Webhook.clean (Cohere.response aiResult)))), w4).
Proof.
  intros H1 H2 H3 H4 H5.
  unfold Webhook.speech_turn, try_catch, bind.
  now rewrite H1, H2, H3, H4, H5.
Qed.

(** C10. A response of the teacher branch is the teacher document around
    the spoken reply exactly as it is, where the spoken reply is read off
    the result the branch extracted from the utterance (the extractor's,
    or the heuristic parser's when the extractor found no entry): its
    [assistantReply] when that is non-empty, whatever characters it holds,
    and otherwise the confirmation text, which holds the class name as
    given. The conversational branch of the same handler embeds the reply
    of the engine only after the characters < > & ' and the double quote
    were removed from it (or its fixed default). So an extractor output
    whose reply holds markup characters reaches the returned document with
    them, while the same characters in a reply of the engine do not. *)
Theorem C10_teacher_reply_is_embedded_verbatim
        (JSON_parse : string -> result GradeExtractor.value)
        (show_number : Js.number -> string)
        (env : Webhook.Env) (speech : string) (call : Prisma.Call)
        (w w' : World) (r : Webhook.Response)
        (Hrun : Webhook.teacher_turn JSON_parse show_number env speech call w
                = (Ok (Some r), w')) :
  let parsedResult := chosen_result JSON_parse show_number env speech in
  (forall w0,
     Webhook.extract_grades JSON_parse show_number env speech w0
     = (Ok parsedResult, w0)) /\
  (exists savedCount,
     r = Webhook.xml_response
           (Webhook.teacher_head ++
            Webhook.speak_reply
              (Webhook.confirm_text savedCount parsedResult) parsedResult ++
            Webhook.teacher_tail)%string) /\
  (forall reply,
     GradeExtractor.assistantReply parsedResult = Some reply ->
     Js.truthy reply = true ->
     Webhook.body r
     = (Webhook.teacher_head ++ reply ++ Webhook.teacher_tail)%string /\
     forall marked,
       Js.includes reply marked = true ->
       Js.includes (Webhook.body r) marked = true) /\
  (forall name,
     GradeExtractor.assistantReply parsedResult = None ->
     GradeExtractor.className parsedResult = Some name ->
     Js.truthy name = true ->
     Js.includes (Webhook.body r) name = true) /\
  (forall default_status callSid from w0 call0 w1 call1 w2 w3 aiResult w4,
     Webhook.resolve_call default_status callSid from w0 = (Ok call0, w1) ->
     Webhook.persist_transcription speech call0 w1 = (Ok call1, w2) ->
     Webhook.teacher_turn JSON_parse show_number env speech call1 w2
     = (Ok None, w3) ->
     Cohere.getAIResponse (Webhook.chat env) speech (Prisma.call_id call1) w3
     = (Ok aiResult, w4) ->
     Cohere.needsEscalation aiResult = false ->
     Webhook.speech_turn JSON_parse show_number default_status env
       speech callSid from w0
     = (Ok (Webhook.xml_response
              (Webhook.conversation_head ++
               Webhook.clean (Cohere.response aiResult) ++
               Webhook.conversation_tail)%string), w4) /\
     (Webhook.clean (Cohere.response aiResult) = Webhook.default_reply \/
      forallb (fun c => negb (Webhook.markup_char c))
              (Js.chars (Webhook.clean (Cohere.response aiResult))) = true)) /\
  fst (Scenario.run Scenario.env_extracting
         (Scenario.request (Some "Al got 5") "CA2" "+15550101" None)
         [] Scenario.db2)
  = Ok (Webhook.xml_response
          (Webhook.teacher_head ++ "Got it <b>Al</b> & co" ++
           Webhook.teacher_tail)%string) /\
  fst (Scenario.run
         {| Webhook.chat := fun _ => Resolved (Some "Got it <b>Al</b> & co");
            Webhook.complete := fun _ => TimedOut;
            Webhook.now := 7 |}
         (Scenario.request (Some "Al got 5") "CA1" "+15550111" None)
         [] Scenario.db1)
  = Ok (Webhook.xml_response
          (Webhook.conversation_head ++ "Got it bAl/b  co" ++
           Webhook.conversation_tail)%string).
Proof.
  intros parsedResult.
  pose proof (teacher_turn_speaks JSON_parse show_number env anything
                anything speech call w) as H.
  rewrite Hrun in H. destruct H as [H _]; [discriminate | exact I |].
  destruct (H r eq_refl) as [n Hr]. clear H. fold parsedResult in Hr.
  split; [intros w0; apply extract_grades_chosen|].
  split; [exists n; exact Hr|].
  split; [|split; [|split; [|split]]].
  - intros reply Ha Ht. rewrite Hr. unfold Webhook.teacher_xml.
    rewrite (speak_reply_prefers_extractor _ _ _ Ha Ht).
    split; [reflexivity|]. intros marked Hm.
    cbn [Webhook.body Webhook.xml_response].
    now apply includes_app_r, includes_app_l.
  - intros name Ha Hc Ht. rewrite Hr. unfold Webhook.teacher_xml.
    cbn [Webhook.body Webhook.xml_response].
    apply includes_app_r, includes_app_l.
    unfold Webhook.speak_reply. rewrite Ha. cbn [Js.or_else].
    apply includes_app_l. now apply confirm_text_holds_class.
  - intros default_status callSid from w0 call0 w1 call1 w2 w3 aiResult w4
           H1 H2 H3 H4 H5.
    split; [|apply clean_strips_markup].
    exact (speech_turn_cleans _ _ _ _ _ _ _ _ _ _ _ _ _ _ _ H1 H2 H3 H4 H5).
  - vm_compute. reflexivity.
  - vm_compute. reflexivity.
Qed.

Lemma C10_witness :
  exists r w',
    Webhook.teacher_turn Scenario.JSON_parse Scenario.show_number
      Scenario.env_extracting "Al got 5" Scenario.call2
      {| db := Scenario.db2; faults := [] |} = (Ok (Some r), w') /\
    GradeExtractor.assistantReply
      (chosen_result Scenario.JSON_parse Scenario.show_number
         Scenario.env_extracting "Al got 5")
    = Some "Got it <b>Al</b> & co" /\
    Js.includes (Webhook.body r) "<b>Al</b> & co" = true.
Proof.
  exists (Webhook.xml_response (Webhook.teacher_xml "Got it <b>Al</b> & co")),
    (snd (Webhook.teacher_turn Scenario.JSON_parse Scenario.show_number
            Scenario.env_extracting "Al got 5" Scenario.call2
            {| db := Scenario.db2; faults := [] |})).
  assert (Hrun : Webhook.teacher_turn Scenario.JSON_parse Scenario.show_number
                   Scenario.env_extracting "Al got 5" Scenario.call2
                   {| db := Scenario.db2; faults := [] |}
                 = (Ok (Some (Webhook.xml_response
                                (Webhook.teacher_xml
                                   "Got it <b>Al</b> & co"))),
                    snd (Webhook.teacher_turn Scenario.JSON_parse
                           Scenario.show_number Scenario.env_extracting
                           "Al got 5" Scenario.call2
                           {| db := Scenario.db2; faults := [] |}))).
  { vm_compute. reflexivity. }
  split; [exact Hrun|]. split; [vm_compute; reflexivity|].
  destruct (C10_teacher_reply_is_embedded_verbatim _ _ _ _ _ _ _ _ Hrun)
    as [_ [_ [Hreply _]]].
  apply (Hreply "Got it <b>Al</b> & co"); vm_compute; reflexivity.
Defined.

(** *** Terminal status updates *)

Lemma find_map {A : Type} (p : A -> bool) (g : A -> A) (l : list A) (x : A) :
  (forall y, p (g y) = p y) ->
  find p l = Some x -> find p (map g l) = Some (g x).
Proof.
  intros Hp. induction l as [|y l IH]; simpl; [discriminate|].
  rewrite Hp. destruct (p y); [now intros [= ->] | exact IH].
Qed.

Lemma find_exists {A : Type} (p : A -> bool) (l : list A) (x : A) :
  In x l -> p x = true -> exists y, find p l = Some y.
Proof.
  induction l as [|y l IH]; simpl; [tauto|].
  intros [->|Hin] Hx.
  - rewrite Hx. eauto.
  - destruct (p y); eauto.
Qed.

Lemma find_in {A : Type} (p : A -> bool) (l : list A) (x : A) :
  find p l = Some x -> In x l /\ p x = true.
Proof. apply find_some. Qed.

(** C2. A terminal status event for an existing call that is not yet
    completed, processed with a working storage layer, marks the call
    completed, stamps its end time with the clock, sets every row of the
    assigned counselor (if any) to available, and answers with the empty
    body. Delivered again, whatever the clock and the storage layer do, the
    same event leaves the database as it is; with a working storage layer it
    is again answered with the empty body. The assigned counselor is assumed
    to exist, as the foreign key of the schema demands. *)
Theorem C2_terminal_event_completes_once
        (JSON_parse : string -> result GradeExtractor.value)
        (show_number : Js.number -> string) (default_status : string)
        (env : Webhook.Env) (form : Webhook.Form)
        (d : Prisma.Db) (call : Prisma.Call)
        (Hterminal : Webhook.is_terminal (Webhook.CallStatus form) = true)
        (Hcall : Prisma.call_by_sid (Webhook.CallSid form) d = Some call)
        (Hopen : Prisma.call_status call <> "completed")
        (Hcounselor : forall k, Prisma.assignedCounselorId call = Some k ->
                                Prisma.user_by_id k d <> None) :
  exists d',
    Webhook.handle JSON_parse show_number default_status env
      {| Webhook.formData := Ok form |} [] d
    = (Ok Webhook.empty_response, d') /\
    Prisma.call_by_sid (Webhook.CallSid form) d'
    = Some {| Prisma.call_id := Prisma.call_id call;
              Prisma.call_userId := Prisma.call_userId call;
              Prisma.twilioCallSid := Prisma.twilioCallSid call;
              Prisma.call_status := "completed";
              Prisma.assignedCounselorId := Prisma.assignedCounselorId call;
              Prisma.endedAt := Some (Webhook.now env);
              Prisma.conversationId := Prisma.conversationId call |} /\
    (forall k u, Prisma.assignedCounselorId call = Some k ->
                 In u (Prisma.users d') -> Prisma.user_id u = k ->
                 Prisma.user_status u = "available") /\
    (forall env2 fs,
       snd (Webhook.handle JSON_parse show_number default_status env2
              {| Webhook.formData := Ok form |} fs d') = d') /\
    Webhook.handle JSON_parse show_number default_status env
      {| Webhook.formData := Ok form |} [] d'
    = (Ok Webhook.empty_response, d').
Proof.
  set (done := fun c : Prisma.Call =>
                 Prisma.set_call_endedAt (Webhook.now env)
                   (Prisma.set_call_status "completed" c)).
  set (upd := fun x : Prisma.Call =>
                if Prisma.call_id x =? Prisma.call_id call then done x else x).
  assert (Hsid : forall y,
            String.eqb (Prisma.twilioCallSid (upd y)) (Webhook.CallSid form)
            = String.eqb (Prisma.twilioCallSid y) (Webhook.CallSid form)).
  { intros y. unfold upd. destruct (_ =? _); reflexivity. }
  assert (Hfound : Prisma.call_by_sid (Webhook.CallSid form)
                     (Prisma.with_calls d (map upd (Prisma.calls d)))
                   = Some (done call)).
  { unfold Prisma.call_by_sid. simpl.
    rewrite (find_map _ upd _ call Hsid Hcall).
    unfold upd. now rewrite Nat.eqb_refl. }
  destruct (find_in _ _ _ Hcall) as [Hin _].
  destruct (find_exists (fun c => Prisma.call_id c =? Prisma.call_id call)
              _ _ Hin (Nat.eqb_refl _)) as [c0 Hc0].
  assert (Hneq : String.eqb (Prisma.call_status call) "completed" = false).
  { now apply String.eqb_neq. }
  (* the database after the first delivery *)
  set (d1 := Prisma.with_calls d (map upd (Prisma.calls d))).
  set (release := fun k (x : Prisma.User) =>
                    if Prisma.user_id x =? k
                    then Prisma.set_user_status "available" x else x).
  set (d' := match Prisma.assignedCounselorId call with
             | Some k => Prisma.with_users d1 (map (release k) (Prisma.users d1))
             | None => d1
             end).
  assert (Hfound' : Prisma.call_by_sid (Webhook.CallSid form) d'
                    = Some (done call)).
  { unfold d'. destruct (Prisma.assignedCounselorId call); exact Hfound. }
  assert (Hagain : forall env2 fs,
            exists r,
              Webhook.handle JSON_parse show_number default_status env2
                {| Webhook.formData := Ok form |} fs d' = (Ok r, d') /\
              (fs = [] -> r = Webhook.empty_response)).
  { intros env2 fs.
    unfold Webhook.handle, Webhook.POST, Webhook.status_update, try_catch,
      bind, await, query, exec, ret. simpl. rewrite Hterminal.
    destruct fs as [|[|] fs]; simpl; rewrite ?Hfound'; simpl;
      eexists; (split; [reflexivity|]); intros; try discriminate;
      reflexivity. }
  exists d'. split; [|split; [|split; [|split]]].
  - unfold Webhook.handle, Webhook.POST, Webhook.status_update, try_catch,
      void, bind, await, query, exec, ret. simpl. rewrite Hterminal. simpl.
    rewrite Hcall, Hneq. simpl.
    unfold Prisma.update_calls, Prisma.call_by_id. rewrite Hc0. simpl.
    unfold d'. destruct (Prisma.assignedCounselorId call) as [k|] eqn:Hk.
    + simpl. unfold Prisma.update_users.
      pose proof (Hcounselor k eq_refl) as Hu.
      unfold Prisma.user_by_id in *. simpl.
      destruct (find (fun u => Prisma.user_id u =? k) (Prisma.users d))
        as [u|]; [reflexivity | contradiction].
    + reflexivity.
  - exact Hfound'.
  - intros k u Hk Hu Hid. unfold d' in Hu. rewrite Hk in Hu. simpl in Hu.
    apply in_map_iff in Hu as [x [<- _]]. unfold release.
    destruct (Prisma.user_id x =? k) eqn:E; [reflexivity|].
    unfold release in Hid. rewrite E in Hid.
    apply Nat.eqb_neq in E. contradiction.
  - intros env2 fs. destruct (Hagain env2 fs) as [r [-> _]]. reflexivity.
  - destruct (Hagain env []) as [r [-> Hr]]. now rewrite Hr.
Qed.

Lemma C2_witness :
  exists d',
    Scenario.run Scenario.env
      (Scenario.request None "CA1" "+15550111" (Some "completed")) []
      Scenario.db3
    = (Ok Webhook.empty_response, d') /\
    forall fs,
      Scenario.after Scenario.env_silent
        (Scenario.request None "CA1" "+15550111" (Some "completed")) fs d'
      = d'.
Proof.
  destruct (C2_terminal_event_completes_once Scenario.JSON_parse
              Scenario.show_number Scenario.default_status Scenario.env
              (Scenario.form None "CA1" "+15550111" (Some "completed"))
              Scenario.db3 Scenario.call3 eq_refl eq_refl)
    as [d' [Hrun [_ [_ [Hnoop _]]]]].
  - discriminate.
  - intros k [= <-]. discriminate.
  - exists d'. split; [exact Hrun|]. intros fs. apply Hnoop.
Defined.

(** *** Invariants that every step keeps *)

Section Keeps.
Context {A B : Type} (healthy : bool) (I : Prisma.Db -> Prop).

Lemma keeps_ret (a : A) : keeps healthy I (ret a).
Proof. apply hoare_ret. auto. Qed.

Lemma keeps_bind (m : M A) (f : A -> M B) :
  keeps healthy I m -> (forall a, keeps healthy I (f a)) ->
  keeps healthy I (bind m f).
Proof. intros Hm Hf. eapply hoare_bind; [exact Hm | exact Hf]. Qed.

Lemma keeps_try (m : M A) (h : exn -> M A) :
  keeps healthy I m -> (forall e, keeps healthy I (h e)) ->
  keeps healthy I (try_catch m h).
Proof. intros Hm Hh. eapply hoare_try; [exact Hm | exact Hh]. Qed.

Lemma keeps_await (r : result A) : keeps healthy I (await r).
Proof. apply hoare_await. intros d Hd. destruct r; exact Hd. Qed.

Lemma keeps_exec (op : Prisma.Db -> result A * Prisma.Db) :
  (forall d, I d -> I (snd (op d))) -> keeps healthy I (exec op).
Proof.
  intros H. apply hoare_exec; [auto|].
  intros d Hd. specialize (H d Hd). destruct (op d) as [[a|e] d']; exact H.
Qed.

Lemma keeps_query (f : Prisma.Db -> A) : keeps healthy I (query f).
Proof. apply keeps_exec. auto. Qed.

Lemma keeps_void (m : M A) : keeps healthy I m -> keeps healthy I (void m).
Proof. intros H. apply hoare_void. exact H. Qed.
End Keeps.

(** Unfold the blocks of the handler. *)
Ltac open_block :=
  unfold Webhook.POST, Webhook.status_update, Webhook.create_session,
    Webhook.connect, Webhook.resolve_call, Webhook.ensure_conversation,
    Webhook.save_transcription, Webhook.persist_transcription,
    Webhook.extract_grades, Webhook.ensure_classroom,
    Webhook.save_confirmation, Webhook.teacher_turn, Webhook.escalate,
    Webhook.speech_turn, Webhook.generateConversationSummary,
    Webhook.findAvailableCounselor, Cohere.getAIResponse, when.

(** One step of a walk through a computation; [known] closes the blocks a
    lemma is already known for, [op] the obligation of a storage write. *)
Ltac keeps_step known op :=
  first
    [ solve [known]
    | lazymatch goal with
      | |- keeps _ _ (ret _) => apply keeps_ret
      | |- keeps _ _ (await _) => apply keeps_await
      | |- keeps _ _ (query _) => apply keeps_query
      | |- keeps _ _ (void _) => apply keeps_void
      | |- keeps _ _ (exec _) => apply keeps_exec; solve [op]
      | |- keeps _ _ (bind _ _) => apply keeps_bind; [|intros ?]
      | |- keeps _ _ (try_catch _ _) => apply keeps_try; [|intros ?]
      | |- keeps _ _ (match ?x with _ => _ end) => destruct x
      | |- keeps _ _ (let _ := _ in _) => cbv zeta
      | |- keeps _ _ _ => progress open_block
      end ].

Ltac keeps_walk known op :=
  try match goal with
      | |- hoare ?h ?I ?m (fun _ => ?I) ?I => change (keeps h I m)
      end;
  repeat keeps_step known op.

(** The usual case of a write: unfold it and look at the tables. *)
Ltac unfold_write :=
  unfold Prisma.update_calls, Prisma.update_users, Prisma.upsert_user,
    Prisma.create_conversation, Prisma.create_call, Prisma.create_message,
    Prisma.create_escalation, Prisma.create_classroom,
    Prisma.create_student, Prisma.create_grade;
  try destruct (Prisma.call_by_id _ _);
  try destruct (Prisma.user_by_id _ _);
  try destruct (Prisma.user_by_phone _ _);
  simpl.

(** *** Message deduplication *)

Lemma is_message_user_eq conv content c k i r :
  Prisma.is_message conv "user" content
    {| Prisma.msg_id := i; Prisma.msg_conversationId := c;
       Prisma.msg_role := r; Prisma.msg_content := k |} = true ->
  c = conv /\ r = "user" /\ k = content.
Proof.
  unfold Prisma.is_message. simpl. intros H.
  apply andb_true_iff in H as [H Hk]. apply andb_true_iff in H as [Hc Hr].
  apply Nat.eqb_eq in Hc. apply String.eqb_eq in Hr, Hk. auto.
Qed.

Lemma find_none_filter {A : Type} (p : A -> bool) (l : list A) :
  find p l = None -> filter p l = [].
Proof.
  induction l as [|x l IH]; simpl; [reflexivity|].
  destruct (p x); [discriminate | exact IH].
Qed.

Lemma unique_add_assistant l i conv content :
  unique_user_messages l ->
  unique_user_messages
    (l ++ [{| Prisma.msg_id := i; Prisma.msg_conversationId := conv;
              Prisma.msg_role := "assistant";
              Prisma.msg_content := content |}])%list.
Proof.
  intros H c k. rewrite filter_app. simpl.
  destruct (Prisma.is_message c "user" k _) eqn:E.
  - apply is_message_user_eq in E as [_ [E _]]. discriminate.
  - rewrite app_nil_r. apply H.
Qed.

Lemma unique_add_new l i conv content :
  unique_user_messages l ->
  find (Prisma.is_message conv "user" content) l = None ->
  unique_user_messages
    (l ++ [{| Prisma.msg_id := i; Prisma.msg_conversationId := conv;
              Prisma.msg_role := "user";
              Prisma.msg_content := content |}])%list.
Proof.
  intros H Hnone c k. rewrite filter_app. simpl.
  destruct (Prisma.is_message c "user" k _) eqn:E.
  - apply is_message_user_eq in E as [-> [_ ->]].
    rewrite (find_none_filter _ _ Hnone). simpl. lia.
  - rewrite app_nil_r. apply H.
Qed.

(** The guarded insert of the utterance. *)
Lemma keeps_dedupe healthy conv content :
  keeps healthy user_messages_unique
    (bind (query (Prisma.message_first conv "user" content))
          (fun existing =>
             match existing with
             | Some _ => ret tt
             | None =>
                 void (exec (Prisma.create_message conv "user" content))
             end)).
Proof.
  eapply hoare_bind
    with (R := fun existing d =>
                 user_messages_unique d /\
                 existing = Prisma.message_first conv "user" content d).
  - apply hoare_query; auto.
  - intros [m|].
    + apply hoare_ret. tauto.
    + apply hoare_void. apply hoare_exec.
      * tauto.
      * intros d [Hd Hnone]. simpl.
        apply unique_add_new; [exact Hd | now symmetry].
Qed.

Ltac dedupe_write :=
  intros ? ?; unfold user_messages_unique in *; unfold_write;
  first [assumption | apply unique_add_assistant; assumption].

Lemma keeps_unique_save_entries healthy classroomId entries savedCount :
  keeps healthy user_messages_unique
        (Webhook.save_entries classroomId entries savedCount).
Proof.
  revert savedCount. induction entries as [|e rest IH]; intros n; simpl.
  - apply keeps_ret.
  - keeps_walk ltac:(first [apply IH | apply keeps_dedupe]) dedupe_write.
Qed.

Lemma keeps_unique_POST JSON_parse show_number default_status env request
      healthy :
  keeps healthy user_messages_unique
        (Webhook.POST JSON_parse show_number default_status env request).
Proof.
  keeps_walk ltac:(first [apply keeps_unique_save_entries
                         | apply keeps_dedupe]) dedupe_write.
Qed.

Lemma handle_keeps JSON_parse show_number default_status env request
      (I : Prisma.Db -> Prop) fs d :
  keeps false I
    (Webhook.POST JSON_parse show_number default_status env request) ->
  I d ->
  I (snd (Webhook.handle JSON_parse show_number default_status env
            request fs d)).
Proof.
  intros Hk Hd. unfold Webhook.handle.
  specialize (Hk {| db := d; faults := fs |}).
  destruct (Webhook.POST _ _ _ _ _ _) as [[r|e] w']; simpl;
    apply Hk; solve [discriminate | exact Hd].
Qed.

Lemma handle_answers JSON_parse show_number default_status env form fs d :
  Webhook.is_terminal (Webhook.CallStatus form) = false ->
  exists r d',
    Webhook.handle JSON_parse show_number default_status env
      {| Webhook.formData := Ok form |} fs d = (Ok r, d') /\
    Webhook.body r <> EmptyString /\ Doc.valid (Webhook.body r).
Proof.
  intros Hstatus.
  destruct (handle_always_answers JSON_parse show_number default_status
              env {| Webhook.formData := Ok form |} fs d)
    as [r [d' [Hrun [[_ Hb] _]]]].
  exists r, d'. split; [exact Hrun|].
  unfold status_update_request in Hb. simpl in Hb. rewrite Hstatus in Hb.
  destruct Hb as [[_ Hb]|[_ [Hn [_ Hv]]]]; [discriminate | auto].
Qed.

(** C5. Two deliveries of the same utterance for the same call, whatever
    the services and the storage layer do during either, leave at most one
    user message with that content in any conversation (given that the
    database held no duplicate before): each insert is guarded by a lookup
    of the same conversation, role and content. Each delivery is still
    answered with a non-empty voice-response document. *)
Theorem C5_duplicate_utterance_is_stored_once
        (JSON_parse : string -> result GradeExtractor.value)
        (show_number : Js.number -> string) (default_status : string)
        (env1 env2 : Webhook.Env) (form : Webhook.Form) (speech : string)
        (fs1 fs2 : list bool) (d : Prisma.Db)
        (Hspeech : Webhook.SpeechResult form = Some speech)
        (Hnonempty : Js.truthy (Js.trim speech) = true)
        (Hstatus : Webhook.is_terminal (Webhook.CallStatus form) = false)
        (Hunique : user_messages_unique d) :
  exists r1 d1 r2 d2,
    Webhook.handle JSON_parse show_number default_status env1
      {| Webhook.formData := Ok form |} fs1 d = (Ok r1, d1) /\
    Webhook.handle JSON_parse show_number default_status env2
      {| Webhook.formData := Ok form |} fs2 d1 = (Ok r2, d2) /\
    (forall conv,
       List.length (filter (Prisma.is_message conv "user" speech)
                           (Prisma.messages d2)) <= 1) /\
    user_messages_unique d1 /\ user_messages_unique d2 /\
    Webhook.body r1 <> EmptyString /\ Doc.valid (Webhook.body r1) /\
    Webhook.body r2 <> EmptyString /\ Doc.valid (Webhook.body r2).
Proof.
  destruct (handle_answers JSON_parse show_number default_status env1 form
              fs1 d Hstatus) as [r1 [d1 [Hrun1 [Hn1 Hv1]]]].
  destruct (handle_answers JSON_parse show_number default_status env2 form
              fs2 d1 Hstatus) as [r2 [d2 [Hrun2 [Hn2 Hv2]]]].
  assert (H1 : user_messages_unique d1).
  { pose proof (handle_keeps JSON_parse show_number default_status env1
                  {| Webhook.formData := Ok form |} user_messages_unique
                  fs1 d (keeps_unique_POST _ _ _ _ _ _) Hunique) as H.
    now rewrite Hrun1 in H. }
  assert (H2 : user_messages_unique d2).
  { pose proof (handle_keeps JSON_parse show_number default_status env2
                  {| Webhook.formData := Ok form |} user_messages_unique
                  fs2 d1 (keeps_unique_POST _ _ _ _ _ _) H1) as H.
    now rewrite Hrun2 in H. }
  exists r1, d1, r2, d2.
  split; [exact Hrun1|]. split; [exact Hrun2|].
  split; [intros conv; apply H2|]. tauto.
Qed.

Lemma C5_witness :
  exists r1 d1 r2 d2,
    Scenario.run Scenario.env
      (Scenario.request (Some "hello") "CA1" "+15550111" None) []
      Scenario.db1 = (Ok r1, d1) /\
    Scenario.run Scenario.env_silent
      (Scenario.request (Some "hello") "CA1" "+15550111" None) [false; true]
      d1 = (Ok r2, d2) /\
    List.length (filter (Prisma.is_message 3 "user" "hello")
                        (Prisma.messages d2)) <= 1 /\
    Webhook.body r1 <> EmptyString /\ Webhook.body r2 <> EmptyString.
Proof.
  destruct (C5_duplicate_utterance_is_stored_once Scenario.JSON_parse
              Scenario.show_number Scenario.default_status
              Scenario.env Scenario.env_silent
              (Scenario.form (Some "hello") "CA1" "+15550111" None)
              "hello" [] [false; true] Scenario.db1 eq_refl eq_refl eq_refl
              (fun conv content => Nat.le_0_l 1))
    as [r1 [d1 [r2 [d2 [Hrun1 [Hrun2 [Hcount [_ [_ [Hn1 [_ [Hn2 _]]]]]]]]]]]].
  exists r1, d1, r2, d2. auto.
Defined.

(** With a working storage layer the first delivery does store the
    utterance, and the second adds nothing. *)
Example C5_first_delivery_stores :
  map (fun m => (Prisma.msg_role m, Prisma.msg_content m))
      (Prisma.messages
         (Scenario.after Scenario.env_silent
            (Scenario.request (Some "hello") "CA1" "+15550111" None) []
            (Scenario.after Scenario.env
               (Scenario.request (Some "hello") "CA1" "+15550111" None) []
               Scenario.db1)))
  = [("user", "hello"); ("assistant", "I hear you.")].
Proof. vm_compute. reflexivity. Qed.

(** *** Status of a completed call *)

Lemma hoare_conj {A : Type} healthy (P P' : Prisma.Db -> Prop) (m : M A)
      (Q Q' : A -> Prisma.Db -> Prop) (E E' : Prisma.Db -> Prop) :
  hoare healthy P m Q E -> hoare healthy P' m Q' E' ->
  hoare healthy (fun d => P d /\ P' d) m
        (fun a d => Q a d /\ Q' a d) (fun d => E d /\ E' d).
Proof.
  intros H H' w Hf [Hp Hp']. specialize (H w Hf Hp). specialize (H' w Hf Hp').
  destruct (m w) as [[a|e] w']; tauto.
Qed.

Lemma keeps_weaken {A : Type} healthy (I J : Prisma.Db -> Prop) (m : M A) :
  keeps healthy I m -> (forall d, I d -> J d) ->
  hoare healthy I m (fun _ => I) J.
Proof. intros H HJ. eapply hoare_conseq; [exact H | auto ..]. Qed.

Lemma keeps_open {A : Type} healthy (I : Prisma.Db -> Prop) (m : M A) :
  keeps healthy I m -> hoare healthy I m (fun _ => I) anything.
Proof. intros H. apply keeps_weaken; [exact H | intros; exact Logic.I]. Qed.

Lemma skip_open {A : Type} healthy (P : Prisma.Db -> Prop) (m : M A) :
  keeps healthy anything m ->
  hoare healthy P m (fun _ => anything) anything.
Proof.
  intros H. eapply hoare_conseq; [exact H | intros; exact I | auto ..].
Qed.






Section Completed.
Context (JSON_parse : string -> result GradeExtractor.value)
        (show_number : Js.number -> string)
        (default_status : string)
        (env : Webhook.Env) (i : Prisma.id).





End Completed.




(** *** Assignment of counselors *)

Lemma filter_nil {A : Type} (p : A -> bool) (l : list A) :
  (forall x, In x l -> p x = false) -> filter p l = [].
Proof.
  induction l as [|x l IH]; simpl; intros H; [reflexivity|].
  rewrite (H x (or_introl eq_refl)). apply IH. auto.
Qed.

Lemma NoDup_snoc {A : Type} (l : list A) (x : A) :
  NoDup l -> ~ In x l -> NoDup (l ++ [x])%list.
Proof.
  induction l as [|y l IH]; simpl; intros Hnd Hx.
  - constructor; [tauto | constructor].
  - inversion Hnd as [|? ? Hy Hl]; subst. constructor.
    + intros Hin. apply in_app_iff in Hin as [Hin|[->|[]]]; tauto.
    + apply IH; tauto.
Qed.

Lemma consistent_exclusive pending d :
  consistent_but pending d -> exclusive d.
Proof.
  intros [Hnd _ _ Hone] k. revert Hnd Hone.
  induction (Prisma.calls d) as [|c l IH]; simpl; intros Hnd Hone; [lia|].
  inversion Hnd as [|? ? Hnotin Hnd']; subst.
  destruct (assigned_to k c) eqn:Hc.
  - rewrite filter_nil; [simpl; lia|].
    intros x Hx. destruct (assigned_to k x) eqn:E; [|reflexivity].
    exfalso. apply Hnotin.
    rewrite (Hone c x k (or_introl eq_refl) (or_intror Hx) Hc E).
    now apply in_map.
  - apply IH; [exact Hnd'|]. intros c1 c2 k'. intros. apply (Hone c1 c2 k'); auto.
Qed.

Lemma consistent_frame pending d d' :
  Prisma.calls d' = Prisma.calls d ->
  Prisma.users d' = Prisma.users d ->
  Prisma.next_id d <= Prisma.next_id d' ->
  consistent_but pending d -> consistent_but pending d'.
Proof.
  intros Hc Hu Hn [H1 H2 H3 H4].
  split; rewrite ?Hc, ?Hu; auto.
  intros c Hin. specialize (H2 c Hin). lia.
Qed.

Lemma consistent_add_user pending u d :
  available_counselor u = false ->
  consistent_but pending d -> consistent_but pending (Prisma.add_user u d).
Proof.
  intros Hu [H1 H2 H3 H4]. split; simpl; auto.
  - intros c Hin. specialize (H2 c Hin). lia.
  - intros c x Hc Hx. apply in_app_iff in Hx as [Hx|[<-|[]]]; [now apply H3|].
    congruence.
Qed.

Lemma consistent_create_call pending user sid status conv d :
  consistent_but pending d ->
  consistent_but pending
    (snd (Prisma.create_call user sid status conv d)).
Proof.
  intros [H1 H2 H3 H4]. split; simpl.
  - rewrite map_app. simpl. apply NoDup_snoc.
    + exact H1.
    + intros Hin. apply in_map_iff in Hin as [c [Hid Hc]].
      specialize (H2 c Hc). lia.
  - intros c Hin. apply in_app_iff in Hin as [Hin|[<-|[]]]; simpl.
    + specialize (H2 c Hin). lia.
    + lia.
  - intros c u Hc Hu. apply in_app_iff in Hc as [Hc|[<-|[]]].
    + now apply H3.
    + intros _ _. unfold assigned_to. simpl. apply andb_false_r.
  - intros c1 c2 k Hc1 Hc2.
    apply in_app_iff in Hc1 as [Hc1|[<-|[]]];
      apply in_app_iff in Hc2 as [Hc2|[<-|[]]]; auto;
      unfold assigned_to at 1 2; simpl; rewrite ?andb_false_r;
      try discriminate.
    all: try (intros _; unfold assigned_to; simpl; rewrite andb_false_r;
              discriminate).
    all: try (now apply H4).
Qed.

Lemma consistent_map_calls pending d (g : Prisma.Call -> Prisma.Call) :
  (forall x, Prisma.call_id (g x) = Prisma.call_id x) ->
  (forall k x, assigned_to k (g x) = true -> assigned_to k x = true) ->
  consistent_but pending d ->
  consistent_but pending (Prisma.with_calls d (map g (Prisma.calls d))).
Proof.
  intros Hid Hless [H1 H2 H3 H4]. split; simpl.
  - rewrite map_map. erewrite map_ext; [exact H1|]. exact Hid.
  - intros c Hc. apply in_map_iff in Hc as [x [<- Hx]]. rewrite Hid. auto.
  - intros c u Hc Hu Ha Hp. apply in_map_iff in Hc as [x [<- Hx]].
    destruct (assigned_to (Prisma.user_id u) (g x)) eqn:E; [|reflexivity].
    apply Hless in E. now rewrite (H3 x u Hx Hu Ha Hp) in E.
  - intros c1 c2 k Hc1 Hc2 Ha1 Ha2.
    apply in_map_iff in Hc1 as [x1 [<- Hx1]].
    apply in_map_iff in Hc2 as [x2 [<- Hx2]].
    rewrite !Hid. apply (H4 x1 x2 k); auto.
Qed.

Lemma consistent_update_calls pending j f d :
  (forall x, Prisma.call_id (f x) = Prisma.call_id x) ->
  (forall k x, assigned_to k (f x) = true -> assigned_to k x = true) ->
  consistent_but pending d ->
  consistent_but pending (snd (Prisma.update_calls j f d)).
Proof.
  intros Hid Hless Hd. unfold Prisma.update_calls.
  destruct (Prisma.call_by_id j d); simpl; [|exact Hd].
  apply consistent_map_calls; [| |exact Hd].
  - intros x. destruct (_ =? _); auto.
  - intros k x. destruct (_ =? _); auto.
Qed.

(** After the completion of an open call, its counselor is assigned to no
    open call. *)
Lemma completed_frees pending d c k t :
  consistent_but pending d ->
  In c (Prisma.calls d) -> is_open c = true ->
  Prisma.assignedCounselorId c = Some k ->
  forall c',
    In c' (Prisma.calls
             (snd (Prisma.update_calls (Prisma.call_id c)
                     (fun x => Prisma.set_call_endedAt t
                                 (Prisma.set_call_status "completed" x)) d))) ->
    assigned_to k c' = false.
Proof.
  intros [H1 H2 H3 H4] Hc Hopen Hk c'. unfold Prisma.update_calls.
  assert (Hck : assigned_to k c = true).
  { unfold assigned_to. rewrite Hopen, Hk. simpl. apply Nat.eqb_refl. }
  destruct (Prisma.call_by_id _ d) eqn:Hfind; simpl.
  - intros Hin. apply in_map_iff in Hin as [x [<- Hx]].
    destruct (Prisma.call_id x =? Prisma.call_id c) eqn:E; [reflexivity|].
    destruct (assigned_to k x) eqn:Hxk; [|reflexivity].
    apply Nat.eqb_neq in E. exfalso. apply E. now apply (H4 x c k).
  - exfalso. unfold Prisma.call_by_id in Hfind.
    destruct (find_exists (fun x => Prisma.call_id x =? Prisma.call_id c)
                _ c Hc (Nat.eqb_refl _)) as [y Hy].
    congruence.
Qed.

Lemma consistent_release d k :
  consistent d ->
  (forall c, In c (Prisma.calls d) -> assigned_to k c = false) ->
  consistent (snd (Prisma.update_users k
                     (Prisma.set_user_status "available") d)).
Proof.
  intros Hd Hfree. unfold Prisma.update_users.
  destruct (Prisma.user_by_id k d); simpl; [|exact Hd].
  destruct Hd as [H1 H2 H3 H4]. split; simpl; auto.
  intros c y Hc Hy Ha Hp. apply in_map_iff in Hy as [x [<- Hx]].
  destruct (Prisma.user_id x =? k) eqn:E.
  - apply Nat.eqb_eq in E. simpl. rewrite E. now apply Hfree.
  - apply H3; auto.
Qed.

Lemma consistent_assign d j u :
  consistent d ->
  In u (Prisma.users d) -> available_counselor u = true ->
  consistent_but (Some (Prisma.user_id u))
    (snd (Prisma.update_calls j
            (fun c => Prisma.set_call_counselor (Prisma.user_id u)
                        (Prisma.set_call_status "counselor_assigned" c)) d)).
Proof.
  intros [H1 H2 H3 H4] Hu Ha. unfold Prisma.update_calls.
  assert (Hfree : forall c, In c (Prisma.calls d) ->
                            assigned_to (Prisma.user_id u) c = false).
  { intros c Hc. apply H3; auto. discriminate. }
  assert (Hnew : forall k x,
            assigned_to k
              (Prisma.set_call_counselor (Prisma.user_id u)
                 (Prisma.set_call_status "counselor_assigned" x)) = true ->
            k = Prisma.user_id u).
  { intros k x. unfold assigned_to. simpl. intros E.
    apply Nat.eqb_eq in E. auto. }
  destruct (Prisma.call_by_id j d) as [found|]; simpl.
  - split; simpl.
    + rewrite map_map. erewrite map_ext; [exact H1|].
      intros x. destruct (_ =? _); reflexivity.
    + intros c Hc. apply in_map_iff in Hc as [x [<- Hx]].
      destruct (_ =? _); simpl; auto.
    + intros c x Hc Hx Hax Hp. apply in_map_iff in Hc as [y [<- Hy]].
      destruct (Prisma.call_id y =? j); [|now apply H3].
      destruct (assigned_to _ _) eqn:E; [|reflexivity].
      apply Hnew in E. congruence.
    + intros c1 c2 k Hc1 Hc2 Ha1 Ha2.
      apply in_map_iff in Hc1 as [x1 [<- Hx1]].
      apply in_map_iff in Hc2 as [x2 [<- Hx2]].
      destruct (Prisma.call_id x1 =? j) eqn:E1;
        destruct (Prisma.call_id x2 =? j) eqn:E2; simpl.
      * apply Nat.eqb_eq in E1, E2. congruence.
      * apply Hnew in Ha1. subst k. now rewrite Hfree in Ha2.
      * apply Hnew in Ha2. subst k. now rewrite Hfree in Ha1.
      * now apply (H4 x1 x2 k).
  - split; auto. intros c x Hc Hx Hax _. apply H3; auto. discriminate.
Qed.

Lemma consistent_busy d k :
  consistent_but (Some k) d ->
  Prisma.user_by_id k d <> None ->
  consistent (snd (Prisma.update_users k (Prisma.set_user_status "busy") d)).
Proof.
  intros [H1 H2 H3 H4] Hex. unfold Prisma.update_users.
  destruct (Prisma.user_by_id k d); simpl; [|contradiction].
  split; simpl; auto.
  intros c y Hc Hy Ha _. apply in_map_iff in Hy as [x [<- Hx]].
  destruct (Prisma.user_id x =? k) eqn:E.
  - unfold available_counselor in Ha. simpl in Ha.
    rewrite andb_false_r in Ha. discriminate.
  - apply H3; auto.
    apply Nat.eqb_neq in E. congruence.
Qed.

Lemma user_first_found role status d u :
  Prisma.user_first role status d = Some u ->
  In u (Prisma.users d) /\
  String.eqb (Prisma.user_role u) role
  && String.eqb (Prisma.user_status u) status = true.
Proof. unfold Prisma.user_first. apply find_some. Qed.

Ltac consistent_write :=
  intros ? ?; unfold consistent in *;
  first
    [ apply consistent_update_calls;
      [ reflexivity | intros ? ? ?; assumption | assumption ]
    | apply consistent_create_call; assumption
    | unfold Prisma.upsert_user; destruct (Prisma.user_by_phone _ _); simpl;
      [ assumption
      | apply consistent_add_user; [reflexivity | assumption] ]
    | eapply consistent_frame; [ | | | eassumption ];
      unfold_write; solve [reflexivity | lia] ].

Section Exclusive.
Context (JSON_parse : string -> result GradeExtractor.value)
        (show_number : Js.number -> string)
        (default_status : string)
        (env : Webhook.Env).

Lemma consistent_status_update callSid :
  keeps true consistent (Webhook.status_update env callSid).
Proof.
  unfold Webhook.status_update.
  eapply hoare_bind
    with (R := fun found d =>
                 consistent d /\ found = Prisma.call_by_sid callSid d).
  { apply hoare_query; [discriminate | auto]. }
  intros found.
  eapply hoare_bind with (R := fun _ => consistent);
    [|intros; apply keeps_ret].
  destruct found as [c|].
  - destruct (negb _) eqn:Hopen.
    + eapply hoare_bind
        with (R := fun _ d =>
                consistent d /\
                forall k, Prisma.assignedCounselorId c = Some k ->
                  forall c', In c' (Prisma.calls d) ->
                             assigned_to k c' = false).
      * apply hoare_exec; [discriminate|].
        intros d [Hd Hc]. symmetry in Hc. apply find_in in Hc as [Hc _].
        pose proof (consistent_update_calls None (Prisma.call_id c)
                      (fun x => Prisma.set_call_endedAt (Webhook.now env)
                                  (Prisma.set_call_status "completed" x))
                      d (fun _ => eq_refl)) as Hkeep.
        pose proof (fun k => completed_frees None d c k (Webhook.now env)
                               Hd Hc Hopen) as Hfree.
        destruct (Prisma.update_calls _ _ d) as [[a|e] d']; simpl in *.
        -- split; [apply Hkeep; [|exact Hd] | exact Hfree].
           intros k x. unfold assigned_to. simpl. discriminate.
        -- apply Hkeep; [|exact Hd].
           intros k x. unfold assigned_to. simpl. discriminate.
      * intros _. destruct (Prisma.assignedCounselorId c) as [k|].
        -- apply hoare_void. apply hoare_exec; [discriminate|].
           intros d [Hd Hfree].
           pose proof (consistent_release d k Hd (Hfree k eq_refl)) as H.
           destruct (Prisma.update_users _ _ d) as [[a|e] d']; exact H.
        -- apply hoare_ret. tauto.
    + apply hoare_ret. tauto.
  - apply hoare_ret. tauto.
Qed.

Lemma consistent_escalate call aiResult :
  keeps true consistent (Webhook.escalate call aiResult).
Proof.
  unfold Webhook.escalate.
  eapply hoare_bind with (R := fun _ => consistent).
  { keeps_walk fail consistent_write. }
  intros summary.
  eapply hoare_bind
    with (R := fun found d =>
                 consistent d /\
                 found = Prisma.user_first "counselor" "available" d).
  { apply hoare_query; [discriminate | auto]. }
  intros [u|]; [|apply hoare_ret; tauto].
  eapply hoare_bind
    with (R := fun _ d => consistent d /\ In u (Prisma.users d) /\
                          available_counselor u = true).
  { apply hoare_exec; [discriminate|]. intros d [Hd Hu]. simpl.
    symmetry in Hu. apply user_first_found in Hu as [Hin Ha].
    split; [|split; [exact Hin | exact Ha]].
    eapply consistent_frame; [ | | | exact Hd]; simpl;
      solve [reflexivity | lia]. }
  intros _.
  eapply hoare_bind
    with (R := fun _ d =>
                 consistent_but (Some (Prisma.user_id u)) d /\
                 In u (Prisma.users d)).
  { apply hoare_exec; [discriminate|]. intros d [Hd [Hin Ha]].
    pose proof (consistent_assign d (Prisma.call_id call) u Hd Hin Ha)
      as H.
    unfold Prisma.update_calls in *.
    destruct (Prisma.call_by_id _ d); simpl in *; [split; auto | exact Hd]. }
  intros _.
  eapply hoare_bind with (R := fun _ => consistent);
    [|intros; apply keeps_ret].
  apply hoare_exec; [discriminate|]. intros d [Hd Hin].
  assert (Hex : Prisma.user_by_id (Prisma.user_id u) d <> None).
  { destruct (find_exists (fun x => Prisma.user_id x =? Prisma.user_id u)
                _ u Hin (Nat.eqb_refl _)) as [y Hy].
    unfold Prisma.user_by_id. congruence. }
  pose proof (consistent_busy d _ Hd Hex) as H.
  unfold Prisma.update_users in *.
  destruct (Prisma.user_by_id _ d); simpl in *; [exact H | contradiction].
Qed.

Lemma consistent_save_entries classroomId entries savedCount :
  keeps true consistent
        (Webhook.save_entries classroomId entries savedCount).
Proof.
  revert savedCount. induction entries as [|e rest IH]; intros n; simpl.
  - apply keeps_ret.
  - keeps_walk ltac:(apply IH) consistent_write.
Qed.

Lemma consistent_POST request :
  keeps true consistent
        (Webhook.POST JSON_parse show_number default_status env request).
Proof.
  keeps_walk ltac:(first [ apply consistent_status_update
                         | apply consistent_escalate
                         | apply consistent_save_entries ])
             consistent_write.
Qed.
End Exclusive.

(** *** Telling the documents apart by their endings *)

Lemma ending_append n a t :
  n <= List.length (Js.chars t) -> ending n (a ++ t) = ending n t.
Proof.
  intros Hn. unfold ending. rewrite chars_append, rev_app_distr.
  rewrite firstn_app. rewrite length_rev.
  replace (n - List.length (Js.chars t)) with 0 by lia.
  simpl. now rewrite app_nil_r.
Qed.

Lemma ending_template n a b t :
  n <= List.length (Js.chars t) -> ending n (a ++ b ++ t) = ending n t.
Proof.
  intros Hn. rewrite ending_append.
  - now apply ending_append.
  - rewrite chars_append, length_app. lia.
Qed.

Lemma transfer_ending phone :
  ending 60 (Webhook.transfer_xml phone) = ending 60 Webhook.transfer_tail.
Proof.
  unfold Webhook.transfer_xml. apply ending_template. vm_compute. lia.
Qed.

Lemma teacher_ending speakReply :
  ending 60 (Webhook.teacher_xml speakReply)
  = ending 60 Webhook.teacher_tail.
Proof.
  unfold Webhook.teacher_xml. apply ending_template. vm_compute. lia.
Qed.

Lemma conversation_ending reply :
  ending 60 (Webhook.conversation_xml reply)
  = ending 60 Webhook.conversation_tail.
Proof.
  unfold Webhook.conversation_xml. apply ending_template.
  vm_compute. lia.
Qed.

Lemma ordinary_not_escalation xml :
  ordinary xml -> ~ is_escalation xml.
Proof.
  intros Ho [[phone H]|H];
    apply (f_equal (ending 60)) in H;
    rewrite ?transfer_ending in H;
    destruct Ho; rewrite ?teacher_ending, ?conversation_ending in H;
    vm_compute in H; discriminate.
Qed.

(** *** Two escalations and one available counselor *)

Lemma find_hd_filter {A : Type} (p : A -> bool) (l : list A) :
  find p l = hd_error (filter p l).
Proof.
  induction l as [|x l IH]; simpl; [reflexivity|].
  destruct (p x); [reflexivity | exact IH].
Qed.

Lemma available_after_busy d u :
  available d = [u] ->
  available (snd (Prisma.update_users (Prisma.user_id u)
                    (Prisma.set_user_status "busy") d)) = [] \/
  Prisma.user_by_id (Prisma.user_id u) d = None.
Proof.
  intros Ha. unfold Prisma.update_users.
  destruct (Prisma.user_by_id _ d); [left | now right].
  unfold available in *. simpl. apply filter_nil.
  intros x Hx. apply in_map_iff in Hx as [y [<- Hy]].
  destruct (Prisma.user_id y =? Prisma.user_id u) eqn:E.
  - unfold available_counselor. simpl. apply andb_false_r.
  - destruct (available_counselor y) eqn:Hy'; [|reflexivity].
    assert (Hin : In y (filter available_counselor (Prisma.users d))).
    { apply filter_In. auto. }
    rewrite Ha in Hin. destruct Hin as [<-|[]].
    now rewrite Nat.eqb_refl in E.
Qed.

Ltac available_write :=
  intros ? ?; unfold available_is, available in *; unfold_write;
  rewrite ?filter_app; simpl; rewrite ?app_nil_r; assumption.

Ltac anything_write := intros; exact I.

Section TwoCalls.
Context (JSON_parse : string -> result GradeExtractor.value)
        (show_number : Js.number -> string)
        (default_status : string)
        (env : Webhook.Env) (l : list Prisma.User).

Lemma available_save_entries classroomId entries savedCount :
  keeps true (available_is l)
        (Webhook.save_entries classroomId entries savedCount).
Proof.
  revert savedCount. induction entries as [|e rest IH]; intros n; simpl.
  - apply keeps_ret.
  - keeps_walk ltac:(apply IH) available_write.
Qed.

Lemma anything_save_entries classroomId entries savedCount :
  keeps true anything (Webhook.save_entries classroomId entries savedCount).
Proof.
  revert savedCount. induction entries as [|e rest IH]; intros n; simpl.
  - apply keeps_ret.
  - keeps_walk ltac:(apply IH) anything_write.
Qed.

(** A block that keeps the list, with the state at a throw left open. *)
Ltac kept :=
  apply keeps_open;
  keeps_walk ltac:(apply available_save_entries) available_write.

Lemma outcome_teacher_turn speech call :
  hoare true (available_is l)
    (Webhook.teacher_turn JSON_parse show_number env speech call)
    (fun returned d =>
       (forall r, returned = Some r -> ordinary (Webhook.body r)) /\
       available_is l d)
    anything.
Proof.
  unfold Webhook.teacher_turn.
  eapply hoare_try with (E' := available_is l);
    [|intros e; apply hoare_ret; intros d H; split;
      [discriminate | exact H]].
  eapply hoare_bind with (R := fun _ => available_is l);
    [keeps_walk fail available_write|].
  intros [caller|];
    [|apply hoare_ret; intros d H; split; [discriminate | exact H]].
  destruct (String.eqb _ _);
    [|apply hoare_ret; intros d H; split; [discriminate | exact H]].
  eapply hoare_bind with (R := fun _ => available_is l);
    [keeps_walk fail available_write|].
  intros parsedResult. destruct (negb _);
    [|apply hoare_ret; intros d H; split; [discriminate | exact H]].
  eapply hoare_bind with (R := fun _ => available_is l);
    [keeps_walk fail available_write|].
  intros classroomId.
  eapply hoare_bind with (R := fun _ => available_is l);
    [apply available_save_entries|].
  intros savedCount.
  eapply hoare_bind with (R := fun _ => available_is l);
    [keeps_walk fail available_write|].
  intros _. apply hoare_ret. intros d H. split; [|exact H].
  intros r [= <-]. apply o_teacher.
Qed.

Lemma outcome_escalate call aiResult :
  hoare true (available_is l) (Webhook.escalate call aiResult)
        (escalation_outcome l) anything.
Proof.
  unfold Webhook.escalate.
  eapply hoare_bind with (R := fun _ => available_is l); [kept|].
  intros summary.
  eapply hoare_bind
    with (R := fun found d => available_is l d /\ found = hd_error l).
  { apply hoare_query; [discriminate|]. intros d H. split; [exact H|].
    unfold Prisma.user_first. rewrite <- H.
    apply (find_hd_filter available_counselor). }
  intros found. apply hoare_conseq
    with (P := fun d => found = hd_error l /\ available_is l d)
         (Q := escalation_outcome l) (E := anything); [|tauto|auto|auto].
  apply hoare_assume. intros ->.
  destruct l as [|u rest]; simpl.
  { apply hoare_ret. intros. now right. }
  eapply hoare_bind with (R := fun _ => available_is (u :: rest)); [kept|].
  intros _.
  eapply hoare_bind with (R := fun _ => available_is (u :: rest)); [kept|].
  intros _.
  eapply hoare_bind
    with (R := fun _ d => rest = [] -> available d = []).
  { apply hoare_exec; [discriminate|]. intros d H.
    destruct (Prisma.update_users _ _ d) as [[a|e] d'] eqn:Eu;
      [|exact I].
    intros ->. destruct (available_after_busy d u H) as [Hb|Hb].
    - now rewrite Eu in Hb.
    - unfold Prisma.update_users in Eu. rewrite Hb in Eu. discriminate. }
  intros _. apply hoare_ret. intros d H. right. simpl. auto.
Qed.

Lemma outcome_speech_turn speech callSid from :
  hoare true (available_is l)
    (Webhook.speech_turn JSON_parse show_number default_status env
                         speech callSid from)
    (escalation_outcome l) anything.
Proof.
  unfold Webhook.speech_turn.
  eapply hoare_try with (E' := anything);
    [|intros e; apply hoare_ret; intros; left; apply o_fallback].
  eapply hoare_bind with (R := fun _ => available_is l); [kept|].
  intros call.
  eapply hoare_bind with (R := fun _ => available_is l); [kept|].
  intros call'.
  eapply hoare_bind; [apply outcome_teacher_turn|].
  intros returned. apply hoare_assume. intros Hreturned.
  destruct returned as [r|].
  { apply hoare_ret. intros. left. now apply Hreturned. }
  eapply hoare_bind with (R := fun _ => available_is l); [kept|].
  intros aiResult. destruct (Cohere.needsEscalation aiResult).
  - apply outcome_escalate.
  - apply hoare_ret. intros. left. apply o_conversation.
Qed.

Lemma outcome_POST request :
  hoare true (available_is l)
    (Webhook.POST JSON_parse show_number default_status env request)
    (escalation_outcome l) anything.
Proof.
  unfold Webhook.POST.
  eapply hoare_try with (E' := anything);
    [|intros e; apply hoare_ret; intros; left; apply o_error].
  eapply hoare_bind with (R := fun _ => available_is l).
  { apply hoare_await. intros d H. now destruct (Webhook.formData request). }
  intros form. destruct (Webhook.is_terminal _).
  - unfold Webhook.status_update.
    eapply hoare_bind with (R := fun _ => anything).
    { apply skip_open. keeps_walk fail anything_write. }
    intros found.
    eapply hoare_bind with (R := fun _ => anything).
    { apply skip_open. keeps_walk fail anything_write. }
    intros _. apply hoare_ret. intros. left. apply o_empty.
  - eapply hoare_bind with (R := fun _ => available_is l); [kept|].
    intros _. destruct (negb _).
    { apply hoare_ret. intros. left. apply o_greeting. }
    destruct (Js.truthy _).
    + apply outcome_speech_turn.
    + apply hoare_ret. intros. left. apply o_repeat.
Qed.
End TwoCalls.

Lemma handle_outcome JSON_parse show_number default_status env request
      l d r d' :
  available d = l ->
  Webhook.handle JSON_parse show_number default_status env request [] d
    = (Ok r, d') ->
  escalation_outcome l r d'.
Proof.
  intros Hl Hrun. unfold Webhook.handle in Hrun.
  pose proof (outcome_POST JSON_parse show_number default_status env l
                request {| db := d; faults := [] |} (fun _ => eq_refl) Hl)
    as H.
  destruct (Webhook.POST _ _ _ _ _ _) as [[r0|e] w'].
  - injection Hrun as -> <-. apply H.
  - discriminate.
Qed.

Lemma consistent_handle JSON_parse show_number default_status env request d :
  consistent d ->
  consistent (snd (Webhook.handle JSON_parse show_number default_status env
                     request [] d)).
Proof.
  intros Hd. unfold Webhook.handle.
  pose proof (consistent_POST JSON_parse show_number default_status env
                request {| db := d; faults := [] |} (fun _ => eq_refl) Hd)
    as H.
  destruct (Webhook.POST _ _ _ _ _ _) as [[r|e] w']; simpl; apply H.
Qed.

Lemma consistent_serve JSON_parse show_number default_status events d :
  consistent d ->
  consistent (serve JSON_parse show_number default_status events d).
Proof.
  revert d. induction events as [|[env request] rest IH]; intros d Hd; simpl.
  - exact Hd.
  - apply IH. now apply consistent_handle.
Qed.

Lemma consistent_without_calls d :
  Prisma.calls d = [] -> consistent d.
Proof.
  intros H. split; rewrite H; simpl; try tauto. constructor.
Qed.

(** What the escalation step does when storage works. *)
Lemma escalate_assigns call aiResult d :
  match Prisma.user_first "counselor" "available" d with
  | Some u =>
      Prisma.user_role u = "counselor" /\
      Prisma.user_status u = "available" /\
      In u (Prisma.users d) /\
      (Prisma.call_by_id (Prisma.call_id call) d <> None ->
       exists d',
         Webhook.escalate call aiResult {| db := d; faults := [] |}
         = (Ok (Webhook.xml_response
                  (Webhook.transfer_xml (Prisma.user_phone u))),
            {| db := d'; faults := [] |}) /\
         (forall c, In c (Prisma.calls d') ->
                    Prisma.call_id c = Prisma.call_id call ->
                    Prisma.assignedCounselorId c = Some (Prisma.user_id u) /\
                    Prisma.call_status c = "counselor_assigned") /\
         (forall x, In x (Prisma.users d') ->
                    Prisma.user_id x = Prisma.user_id u ->
                    Prisma.user_status x = "busy"))
  | None =>
      Webhook.escalate call aiResult {| db := d; faults := [] |}
      = (Ok (Webhook.xml_response Webhook.unavailable_xml),
         {| db := d; faults := [] |})
  end.
Proof.
  assert (Hsummary : exists summary,
            Webhook.generateConversationSummary (Prisma.call_id call)
              {| db := d; faults := [] |}
            = (Ok summary, {| db := d; faults := [] |})).
  { unfold Webhook.generateConversationSummary, bind, query, exec, ret.
    simpl. destruct (Prisma.call_by_id _ d) as [c|]; [|eauto].
    destruct (Prisma.conversationId c); eauto. }
  destruct Hsummary as [summary Hsummary].
  unfold Webhook.escalate, bind. rewrite Hsummary.
  unfold Webhook.findAvailableCounselor, query, exec, ret. simpl.
  destruct (Prisma.user_first "counselor" "available" d) as [u|] eqn:Hu;
    [|reflexivity].
  apply user_first_found in Hu as [Hin Ha].
  apply andb_true_iff in Ha as [Hr Hs].
  apply String.eqb_eq in Hr, Hs.
  split; [exact Hr|]. split; [exact Hs|]. split; [exact Hin|].
  intros Hcall.
  unfold Prisma.update_calls, Prisma.update_users, Prisma.call_by_id,
    Prisma.user_by_id in *. simpl.
  destruct (find _ (Prisma.calls d)) as [c|]; [|contradiction].
  simpl.
  destruct (find_exists (fun x => Prisma.user_id x =? Prisma.user_id u)
              _ u Hin (Nat.eqb_refl _)) as [y Hy].
  rewrite Hy. simpl.
  eexists. split; [reflexivity|]. simpl. split.
  - intros c' Hc' Hid. apply in_map_iff in Hc' as [x [<- Hx]].
    destruct (Prisma.call_id x =? Prisma.call_id call) eqn:E.
    + split; reflexivity.
    + apply Nat.eqb_neq in E. contradiction.
  - intros x Hx Hid. apply in_map_iff in Hx as [z [<- Hz]].
    destruct (Prisma.user_id z =? Prisma.user_id u) eqn:E.
    + reflexivity.
    + apply Nat.eqb_neq in E. contradiction.
Qed.

Lemma two_escalations JSON_parse show_number default_status
      env1 env2 request1 request2 d u r1 d1 r2 d2 :
  available d = [u] ->
  Webhook.handle JSON_parse show_number default_status env1 request1 [] d
    = (Ok r1, d1) ->
  Webhook.handle JSON_parse show_number default_status env2 request2 [] d1
    = (Ok r2, d2) ->
  is_escalation (Webhook.body r1) -> is_escalation (Webhook.body r2) ->
  Webhook.body r1 = Webhook.transfer_xml (Prisma.user_phone u) /\
  Webhook.body r2 = Webhook.unavailable_xml.
Proof.
  intros Ha Hrun1 Hrun2 He1 He2.
  destruct (handle_outcome _ _ _ _ _ _ _ _ _ Ha Hrun1) as [Ho|[Hb Hnone]].
  { now apply ordinary_not_escalation in Ho. }
  split; [exact Hb|].
  destruct (handle_outcome _ _ _ _ _ _ _ _ _ (Hnone eq_refl) Hrun2)
    as [Ho|Hb2].
  { now apply ordinary_not_escalation in Ho. }
  exact Hb2.
Qed.

(** C3 as stated fails: when the write that marks the counselor busy
    fails, the counselor stays available although a call is assigned to
    them, and the next escalation assigns them to a second open call. *)
Lemma C3_counterexample :
  map (fun c => (Prisma.call_status c, Prisma.assignedCounselorId c))
      (Prisma.calls
         (Scenario.after Scenario.env
            (Scenario.request (Some "please, a therapist") "CA2"
                              "+15550122" None) []
            (Scenario.after Scenario.env
               (Scenario.request (Some "I want a counselor") "CA1"
                                 "+15550111" None)
               (repeat false 14 ++ [true]) Scenario.db0)))
  = [("counselor_assigned", Some 0); ("counselor_assigned", Some 0)].
Proof. vm_compute. reflexivity. Qed.

(** C3 (amended). When every storage call succeeds, in each state reached
    from a consistent database (one without calls, for instance) by a
    sequence of webhook events, each counselor is assigned to at most one
    open call. The escalation step assigns the first user whose role is
    counselor and whose status is available, marks every row of that user
    busy, and without such a user changes nothing and answers with the
    no-counselor document. With exactly one available counselor, of two
    events served one after the other that both take the escalation branch,
    the first is answered with the transfer to that counselor and the second
    with the no-counselor document. *)
Theorem C3_counselor_exclusive_when_storage_works
        (JSON_parse : string -> result GradeExtractor.value)
        (show_number : Js.number -> string) (default_status : string)
        (events : list (Webhook.Env * Webhook.Request)) (d : Prisma.Db)
        (Hd : consistent d) :
  exclusive (serve JSON_parse show_number default_status events d) /\
  consistent (serve JSON_parse show_number default_status events d) /\
  (forall call aiResult d0,
     match Prisma.user_first "counselor" "available" d0 with
     | Some u =>
         Prisma.user_role u = "counselor" /\
         Prisma.user_status u = "available" /\
         In u (Prisma.users d0) /\
         (Prisma.call_by_id (Prisma.call_id call) d0 <> None ->
          exists d',
            Webhook.escalate call aiResult {| db := d0; faults := [] |}
            = (Ok (Webhook.xml_response
                     (Webhook.transfer_xml (Prisma.user_phone u))),
               {| db := d'; faults := [] |}) /\
            (forall c, In c (Prisma.calls d') ->
                       Prisma.call_id c = Prisma.call_id call ->
                       Prisma.assignedCounselorId c
                         = Some (Prisma.user_id u) /\
                       Prisma.call_status c = "counselor_assigned") /\
            (forall x, In x (Prisma.users d') ->
                       Prisma.user_id x = Prisma.user_id u ->
                       Prisma.user_status x = "busy"))
     | None =>
         Webhook.escalate call aiResult {| db := d0; faults := [] |}
         = (Ok (Webhook.xml_response Webhook.unavailable_xml),
            {| db := d0; faults := [] |})
     end) /\
  (forall env1 env2 request1 request2 d0 u r1 d1 r2 d2,
     available d0 = [u] ->
     Webhook.handle JSON_parse show_number default_status env1 request1 []
                    d0 = (Ok r1, d1) ->
     Webhook.handle JSON_parse show_number default_status env2 request2 []
                    d1 = (Ok r2, d2) ->
     is_escalation (Webhook.body r1) -> is_escalation (Webhook.body r2) ->
     Webhook.body r1 = Webhook.transfer_xml (Prisma.user_phone u) /\
     Webhook.body r2 = Webhook.unavailable_xml).
Proof.
  pose proof (consistent_serve JSON_parse show_number default_status events
                d Hd) as H.
  split; [now apply consistent_exclusive in H|].
  split; [exact H|]. split.
  - apply escalate_assigns.
  - apply two_escalations.
Qed.

Lemma C3_witness :
  exclusive
    (serve Scenario.JSON_parse Scenario.show_number Scenario.default_status
       [(Scenario.env,
         Scenario.request (Some "I want a counselor") "CA1" "+15550111" None);
        (Scenario.env,
         Scenario.request (Some "please, a therapist") "CA2" "+15550122"
                          None);
        (Scenario.env,
         Scenario.request None "CA1" "+15550111" (Some "completed"))]
       Scenario.db0) /\
  map Webhook.body
      [match Scenario.run Scenario.env
               (Scenario.request (Some "I want a counselor") "CA1"
                                 "+15550111" None) [] Scenario.db0 with
       | (Ok r, _) => r
       | _ => Webhook.empty_response
       end;
       match Scenario.run Scenario.env
               (Scenario.request (Some "please, a therapist") "CA2"
                                 "+15550122" None) []
               (Scenario.after Scenario.env
                  (Scenario.request (Some "I want a counselor") "CA1"
                                    "+15550111" None) [] Scenario.db0) with
       | (Ok r, _) => r
       | _ => Webhook.empty_response
       end]
  = [Webhook.transfer_xml "+15550100"; Webhook.unavailable_xml].
Proof.
  split.
  - apply (C3_counselor_exclusive_when_storage_works Scenario.JSON_parse
             Scenario.show_number Scenario.default_status).
    apply consistent_without_calls. reflexivity.
  - vm_compute. reflexivity.
Defined.

(* ================================================================== *)
(** ** Further properties of the code *)
(* ================================================================== *)

(** *** The matcher finds words of the expression *)

Lemma run_rep {R : Type} lo hi a s c (k : list ascii -> Regex.captures -> option R) :
  Regex.run (Regex.Rep lo hi a) s c k
  = Lang.rep_loop (Regex.run a) lo hi k (lo + List.length s + 1) 0 s c.
Proof. reflexivity. Qed.

Lemma group_app (e c : Regex.captures) (n : string) :
  Regex.group e n <> None -> Regex.group (e ++ c)%list n <> None.
Proof.
  induction e as [|[m v] e IH]; simpl; [congruence|].
  destruct (String.eqb m n); [discriminate | exact IH].
Qed.

Lemma group_app_r (e c : Regex.captures) (n : string) :
  Regex.group c n <> None -> Regex.group (e ++ c)%list n <> None.
Proof.
  intros H. induction e as [|[m v] e IH]; simpl; [exact H|].
  destruct (String.eqb m n); [discriminate | exact IH].
Qed.

Lemma consumed_app (u s : list ascii) :
  Regex.consumed (u ++ s)%list s = Js.str u.
Proof.
  unfold Regex.consumed. rewrite length_app.
  replace (List.length u + List.length s - List.length s) with (List.length u)
    by lia.
  rewrite firstn_app, firstn_all, Nat.sub_diag. simpl.
  now rewrite app_nil_r.
Qed.

Section Sound.
Context {R : Type} (G : string -> list ascii -> Prop).

Lemma rep_loop_sound a step lo hi k :
  Lang.sound_step (R := R) G a step ->
  forall fuel i s c x,
    Lang.within hi i ->
    Lang.rep_loop step lo hi k fuel i s c = Some x ->
    exists us s' e,
      s = (concat us ++ s')%list /\ Forall (Lang.word a) us /\
      lo <= i + List.length us /\ Lang.within hi (i + List.length us) /\
      Lang.recorded G e /\
      (forall n, i < lo -> Lang.binds n a = true -> Regex.group e n <> None) /\
      k s' (e ++ c)%list = Some x.
Proof.
  intros Hstep. induction fuel as [|f IH]; intros i s c x Hi; simpl;
    [discriminate|].
  destruct (if Regex.below hi i then _ else None) as [y|] eqn:Hagain.
  - intros [= ->].
    destruct (Regex.below hi i) eqn:Hb; [|discriminate].
    apply Hstep in Hagain as [u [s1 [e1 [-> [Hu [He1 [Hb1 Hk]]]]]]].
    destruct (_ && _); [discriminate|].
    apply IH in Hk as [us [s' [e [-> [Hus [Hlo [Hhi [He [Hbs Hk]]]]]]]]].
    2:{ destruct hi as [h|]; simpl in *; [|exact I].
        apply Nat.ltb_lt in Hb. lia. }
    exists (u :: us), s', (e ++ e1)%list. simpl.
    split; [now rewrite app_assoc|]. split; [now constructor|].
    split; [lia|]. split.
    { destruct hi; simpl in *; [lia | exact I]. }
    split; [now apply Forall_app|]. split.
    { intros n _ Hn. apply group_app_r. now apply Hb1. }
    now rewrite <- app_assoc.
  - destruct (lo <=? i) eqn:Hlo; [|discriminate].
    intros Hk. exists [], s, []. simpl.
    apply Nat.leb_le in Hlo.
    split; [reflexivity|]. split; [constructor|]. split; [lia|].
    split.
    { destruct hi as [h|]; simpl in *; [lia | exact I]. }
    split; [constructor|]. split; [intros; lia | exact Hk].
Qed.

Lemma run_sound r : Lang.records G r -> Lang.sound_step G r (Regex.run (R := R) r).
Proof.
  induction r as [|p|a IHa b IHb|a IHa b IHb|lo hi a IHa|m a IHa];
    intros Hr s c k x; simpl.
  - intros Hk. exists [], s, []. repeat split; try constructor; try easy.
  - destruct s as [|y s']; [discriminate|].
    destruct (p y) eqn:Hp; [|discriminate].
    intros Hk. exists [y], s', []. simpl.
    split; [reflexivity|]. split; [eauto|]. split; [constructor|].
    split; [discriminate | exact Hk].
  - destruct Hr as [Ha Hb]. intros H.
    apply (IHa Ha) in H as [u [s1 [e1 [-> [Hu [He1 [Hb1 H]]]]]]].
    apply (IHb Hb) in H as [v [s' [e2 [-> [Hv [He2 [Hb2 H]]]]]]].
    exists (u ++ v)%list, s', (e2 ++ e1)%list.
    split; [now rewrite app_assoc|]. split; [eauto|].
    split; [now apply Forall_app|]. split.
    { intros n Hn. apply orb_true_iff in Hn as [Hn|Hn].
      - apply group_app_r. now apply Hb1.
      - apply group_app. now apply Hb2. }
    now rewrite <- app_assoc.
  - destruct Hr as [Ha Hb].
    destruct (Regex.run a s c k) as [y|] eqn:Hrun.
    + intros [= ->].
      apply (IHa Ha) in Hrun as [u [s' [e [-> [Hu [He [Hbs H]]]]]]].
      exists u, s', e. repeat split; auto.
      intros n Hn. apply andb_true_iff in Hn as [Hn _]. now apply Hbs.
    + intros Hrun'.
      apply (IHb Hb) in Hrun' as [u [s' [e [-> [Hu [He [Hbs H]]]]]]].
      exists u, s', e. repeat split; auto.
      intros n Hn. apply andb_true_iff in Hn as [_ Hn]. now apply Hbs.
  - intros H. change (Lang.rep_loop (Regex.run a) lo hi k
                        (lo + List.length s + 1) 0 s c = Some x) in H.
    apply (rep_loop_sound a _ lo hi k (IHa Hr)) in H
      as [us [s' [e [-> [Hus [Hlo [Hhi [He [Hbs H]]]]]]]]].
    2:{ destruct hi; simpl; [lia | exact I]. }
    exists (concat us), s', e. split; [reflexivity|].
    split; [exists us; auto|]. split; [exact He|]. split; [|exact H].
    intros n Hn. apply andb_true_iff in Hn as [H1 Hn].
    destruct lo; [discriminate|]. apply Hbs; [lia | exact Hn].
  - destruct Hr as [Hm Ha]. intros H.
    apply (IHa Ha) in H as [u [s' [e [-> [Hu [He [Hbs H]]]]]]].
    rewrite consumed_app in H.
    exists u, s', ((m, Js.str u) :: e). split; [reflexivity|].
    split; [exact Hu|]. split.
    { constructor; [|exact He]. exists u. simpl. auto. }
    split; [|exact H].
    intros n Hn. simpl. destruct (String.eqb m n); [discriminate|].
    apply Hbs. exact Hn.
Qed.

End Sound.

Lemma match_at_sound G r s s' c :
  Lang.records G r -> Regex.match_at r s = Some (s', c) ->
  exists u,
    s = (u ++ s')%list /\ Lang.word r u /\ Lang.recorded G c /\
    (forall n, Lang.binds n r = true -> Regex.group c n <> None).
Proof.
  intros Hr H. unfold Regex.match_at in H.
  apply (run_sound G r Hr) in H as [u [s1 [e [-> [Hu [He [Hb H]]]]]]].
  injection H as <- <-. rewrite app_nil_r. eauto.
Qed.

Lemma search_sound G r s c :
  Lang.records G r -> Regex.search r s = Some c ->
  exists pre u post,
    s = (pre ++ u ++ post)%list /\ Lang.word r u /\ Lang.recorded G c /\
    (forall n, Lang.binds n r = true -> Regex.group c n <> None).
Proof.
  intros Hr. induction s as [|x s IH]; simpl.
  - destruct (Regex.match_at r []) as [[s' c']|] eqn:Hm; [|discriminate].
    intros [= ->]. apply (match_at_sound G) in Hm as [u [Hs H]]; [|exact Hr].
    exists [], u, s'. auto.
  - destruct (Regex.match_at r (x :: s)) as [[s' c']|] eqn:Hm.
    + intros [= ->]. apply (match_at_sound G) in Hm as [u [Hs H]]; [|exact Hr].
      exists [], u, s'. auto.
    + intros H. apply IH in H as [pre [u [post [-> H]]]].
      exists (x :: pre), u, post. auto.
Qed.

Lemma search_text_sound r s t :
  Regex.search_text r s = Some t ->
  exists pre u post,
    s = (pre ++ u ++ post)%list /\ Lang.word r u /\ t = Js.str u.
Proof.
  assert (Hr : forall r, Lang.records (fun _ _ => True) r).
  { clear. induction r; simpl; auto. }
  induction s as [|x s IH]; simpl.
  - destruct (Regex.match_at r []) as [[s' c']|] eqn:Hm; [|discriminate].
    intros [= <-].
    apply (match_at_sound (fun _ _ => True)) in Hm as [u [Hs [Hu _]]];
      [|apply Hr].
    exists [], u, s'. simpl. rewrite Hs at 2. rewrite Hs at 1.
    now rewrite consumed_app.
  - destruct (Regex.match_at r (x :: s)) as [[s' c']|] eqn:Hm.
    + intros [= <-].
      apply (match_at_sound (fun _ _ => True)) in Hm as [u [Hs [Hu _]]];
        [|apply Hr].
      exists [], u, s'. simpl. rewrite Hs. now rewrite consumed_app.
    + intros H. apply IH in H as [pre [u [post [-> H]]]].
      exists (x :: pre), u, post. auto.
Qed.

Lemma group_recorded G c n v :
  Lang.recorded G c -> Regex.group c n = Some v ->
  exists u, v = Js.str u /\ G n u.
Proof.
  intros Hc. induction Hc as [|[m w] c [u [Hw Hu]] Hc IH]; simpl;
    [discriminate|].
  destruct (String.eqb m n) eqn:E.
  - apply String.eqb_eq in E as ->. intros [= <-]. eauto.
  - exact IH.
Qed.

(** *** Words of the parser's groups *)

Lemma word_rep_cls lo hi p u :
  Lang.word (Regex.Rep lo hi (Regex.Cls p)) u ->
  forallb p u = true /\ lo <= List.length u /\ Lang.within hi (List.length u).
Proof.
  intros [us [-> [Hus [Hlo Hhi]]]].
  assert (H : forallb p (concat us) = true /\
              List.length (concat us) = List.length us).
  { clear Hlo Hhi. induction Hus as [|v us [x [-> Hx]] Hus [IH1 IH2]];
      simpl; [auto|]. rewrite Hx, IH1, IH2. auto. }
  destruct H as [H1 H2]. rewrite H2. auto.
Qed.

Lemma dot_only (x : ascii) :
  Js.char_eqb (Js.lower_char x) (Js.lower_char ".") = true -> x = "."%char.
Proof.
  destruct x as [[] [] [] [] [] [] [] []]; vm_compute;
    solve [discriminate | reflexivity].
Qed.

Lemma word_grade u :
  Lang.word (Regex.Seq (Regex.Rep 1 (Some 3) Regex.digit)
               (Regex.opt (Regex.Seq (Regex.chr true ".")
                                     (Regex.plus Regex.digit)))) u ->
  numeral u.
Proof.
  intros [ip [w [-> [Hip Hw]]]].
  apply word_rep_cls in Hip as [Hd [H1 H3]]. simpl in H3.
  exists ip. split; [exact Hd|]. split; [lia|].
  destruct Hw as [us [-> [Hus [_ Hone]]]]. simpl in Hone.
  destruct us as [|z [|z' us]]; simpl in *; try lia.
  - left. now rewrite app_nil_r.
  - right. apply Forall_inv in Hus.
    destruct Hus as [v [fp [-> [[x [-> Hx]] Hfp]]]].
    apply dot_only in Hx as ->.
    apply (word_rep_cls 1 None Js.is_digit) in Hfp as [Hfd [Hf1 _]].
    exists fp. rewrite app_nil_r. simpl. split; [reflexivity|].
    split; [exact Hfd|]. destruct fp; [simpl in Hf1; lia | discriminate].
Qed.

Lemma parser_groups_name u :
  Lang.word (Regex.Rep 2 (Some 50) (Regex.Cls GradeParser.name_char)) u ->
  parser_groups "name" u.
Proof.
  intros H. apply word_rep_cls in H as [H1 [H2 H3]]. simpl in H3.
  repeat split; try discriminate; auto.
Qed.

Lemma parser_groups_grade u :
  Lang.word (Regex.Seq (Regex.Rep 1 (Some 3) Regex.digit)
               (Regex.opt (Regex.Seq (Regex.chr true ".")
                                     (Regex.plus Regex.digit)))) u ->
  parser_groups "grade" u.
Proof.
  intros H. apply word_grade in H.
  repeat split; try discriminate; auto.
Qed.

Lemma parser_groups_subject u :
  Lang.word (Regex.plus (Regex.Cls GradeParser.subject_char)) u ->
  parser_groups "subject" u.
Proof.
  intros H. apply word_rep_cls in H as [H1 [H2 _]].
  repeat split; try discriminate; auto.
  intros ->. simpl in H2. lia.
Qed.

Lemma parser_groups_class u :
  Lang.word (Regex.plus (Regex.Cls GradeParser.class_id_char)) u ->
  parser_groups "1" u.
Proof.
  intros H. apply word_rep_cls in H as [H1 [H2 _]].
  repeat split; try discriminate; auto.
  intros ->. simpl in H2. lia.
Qed.

Ltac parser_records :=
  cbn [Lang.records Regex.seqs Regex.alts Regex.star Regex.plus Regex.opt
       Regex.lit Regex.lit_chars Regex.chr Regex.space Regex.digit Js.chars
       list_ascii_of_string GradeParser.name_group GradeParser.grade_group
       GradeParser.subject_group];
  repeat match goal with
         | |- True => exact I
         | |- _ /\ _ => split
         | |- forall u, _ -> parser_groups _ u =>
             first [ apply parser_groups_name
                   | apply parser_groups_grade
                   | apply parser_groups_subject
                   | apply parser_groups_class ]
         end.

Lemma records_gradeRegexes rx :
  In rx GradeParser.gradeRegexes -> Lang.records parser_groups rx.
Proof.
  intros [<-|[<-|[<-|[]]]].
  - unfold GradeParser.rx_name_grade_subject. parser_records.
  - unfold GradeParser.rx_name_subject_grade. parser_records.
  - unfold GradeParser.rx_subject_name_grade. parser_records.
Qed.

Lemma records_fallback : Lang.records parser_groups GradeParser.fallback_rx.
Proof. unfold GradeParser.fallback_rx. parser_records. Qed.

Lemma records_class : Lang.records parser_groups GradeParser.class_rx.
Proof. unfold GradeParser.class_rx. parser_records. Qed.

Lemma binds_gradeRegexes rx :
  In rx GradeParser.gradeRegexes ->
  Lang.binds "name" rx = true /\ Lang.binds "grade" rx = true.
Proof.
  intros [<-|[<-|[<-|[]]]]; split; reflexivity.
Qed.

(** *** Trimming *)

Lemma drop_space_clean l : starts_clean (Js.drop_space l).
Proof.
  induction l as [|c l IH]; simpl; [exact I|].
  destruct (Js.is_space c) eqn:E; [exact IH | exact E].
Qed.

Lemma drop_space_id l : starts_clean l -> Js.drop_space l = l.
Proof. destruct l as [|c l]; simpl; [auto|]. now intros ->. Qed.

Lemma drop_space_split l :
  exists sp, l = (sp ++ Js.drop_space l)%list.
Proof.
  induction l as [|c l [sp IH]]; simpl; [now exists []|].
  destruct (Js.is_space c).
  - exists (c :: sp). simpl. now rewrite <- IH.
  - now exists [].
Qed.

Lemma starts_clean_app x y :
  starts_clean (x ++ y)%list -> x <> [] -> starts_clean x.
Proof. destruct x; simpl; [congruence | auto]. Qed.

Lemma trim_chars_clean l :
  starts_clean (Js.trim_chars l) /\ starts_clean (rev (Js.trim_chars l)).
Proof.
  unfold Js.trim_chars. rewrite rev_involutive.
  split; [|apply drop_space_clean].
  pose proof (drop_space_clean l) as Ha.
  destruct (drop_space_split (rev (Js.drop_space l))) as [sp Hsp].
  set (b := Js.drop_space (rev (Js.drop_space l))) in *.
  assert (H : Js.drop_space l = (rev b ++ rev sp)%list).
  { rewrite <- rev_app_distr, <- Hsp. now rewrite rev_involutive. }
  rewrite H in Ha. destruct b as [|y b]; [exact I|].
  apply (starts_clean_app _ _ Ha). simpl.
  intros E. apply app_eq_nil in E as [_ E]. discriminate.
Qed.

Lemma trim_chars_fixed l :
  starts_clean l -> starts_clean (rev l) -> Js.trim_chars l = l.
Proof.
  intros H1 H2. unfold Js.trim_chars.
  rewrite (drop_space_id l H1), (drop_space_id _ H2).
  apply rev_involutive.
Qed.

Lemma trim_chars_idem l :
  Js.trim_chars (Js.trim_chars l) = Js.trim_chars l.
Proof. apply trim_chars_fixed; apply trim_chars_clean. Qed.

Lemma trim_trimmed s : trimmed (Js.trim s).
Proof.
  unfold trimmed, Js.trim. rewrite chars_str. now rewrite trim_chars_idem.
Qed.

Lemma length_drop_space l :
  List.length (Js.drop_space l) <= List.length l.
Proof.
  induction l as [|c l IH]; simpl; [lia|].
  destruct (Js.is_space c); simpl; lia.
Qed.

Lemma length_trim_chars l :
  List.length (Js.trim_chars l) <= List.length l.
Proof.
  unfold Js.trim_chars. rewrite length_rev.
  etransitivity; [apply length_drop_space|].
  rewrite length_rev. apply length_drop_space.
Qed.

Lemma trim_chars_nospace l :
  forallb (fun c => negb (Js.is_space c)) l = true -> Js.trim_chars l = l.
Proof.
  intros H. apply trim_chars_fixed.
  - destruct l as [|c l]; simpl in *; [exact I|].
    apply andb_true_iff in H as [H _]. now apply negb_true_iff.
  - apply forallb_rev in H. destruct (rev l) as [|c r]; simpl in *; [exact I|].
    apply andb_true_iff in H as [H _]. now apply negb_true_iff.
Qed.

Lemma truthy_str l : Js.truthy (Js.str l) = negb (Js.is_nil l).
Proof. destruct l; reflexivity. Qed.

Lemma length_chars s : List.length (Js.chars s) = String.length s.
Proof.
  unfold Js.chars. induction s as [|c s IH]; simpl; [reflexivity|].
  now rewrite IH.
Qed.

Lemma str_chars s : Js.str (Js.chars s) = s.
Proof. apply string_of_list_ascii_of_string. Qed.

(** *** Numerals read as numbers *)

Lemma digit_facts c :
  Js.is_digit c = true ->
  Js.is_space c = false /\ Js.char_eqb c "-" = false /\
  Js.char_eqb c "+" = false /\ Js.char_eqb c "." = false /\
  Js.digit_val c <= 9.
Proof.
  destruct c as [[] [] [] [] [] [] [] []]; vm_compute; intros H;
    try discriminate; repeat split; try reflexivity; repeat constructor.
Qed.

Lemma split_dot_digits ip :
  forallb Js.is_digit ip = true ->
  Js.split_dot ip = (ip, None) /\
  forall fp, Js.split_dot (ip ++ "."%char :: fp)%list = (ip, Some fp).
Proof.
  induction ip as [|c ip IH]; simpl; [auto|].
  intros H. apply andb_true_iff in H as [Hc Hip].
  destruct (digit_facts c Hc) as [_ [_ [_ [Hdot _]]]]. rewrite Hdot.
  destruct (IH Hip) as [H1 H2]. rewrite H1. split; [reflexivity|].
  intros fp. now rewrite H2.
Qed.

Lemma digits_val_bound l acc :
  forallb Js.is_digit l = true ->
  Js.digits_val l acc < (acc + 1) * 10 ^ List.length l.
Proof.
  revert acc. induction l as [|c l IH]; intros acc H; [simpl; lia|].
  apply andb_true_iff in H as [Hc Hl].
  destruct (digit_facts c Hc) as [_ [_ [_ [_ Hv]]]].
  change (Js.digits_val (c :: l) acc)
    with (Js.digits_val l (10 * acc + Js.digit_val c)).
  change (List.length (c :: l)) with (S (List.length l)).
  rewrite Nat.pow_succ_r'. specialize (IH (10 * acc + Js.digit_val c) Hl).
  nia.
Qed.

Lemma numeral_chars u :
  numeral u ->
  forallb (fun c => negb (Js.is_space c)) u = true /\
  exists c rest, u = c :: rest /\ Js.is_digit c = true.
Proof.
  intros [ip [Hd [Hlen Hu]]].
  assert (Hns : forall l, forallb Js.is_digit l = true ->
                  forallb (fun c => negb (Js.is_space c)) l = true).
  { intros l Hl. apply forallb_forall. intros x Hx.
    apply negb_true_iff. apply digit_facts.
    revert x Hx. now apply forallb_forall. }
  destruct ip as [|c ip]; [simpl in Hlen; lia|].
  assert (Hc : Js.is_digit c = true).
  { simpl in Hd. now apply andb_true_iff in Hd as [Hc _]. }
  destruct Hu as [->|[fp [-> [Hf _]]]].
  - split; [now apply Hns | eauto].
  - split; [|simpl; eauto].
    rewrite forallb_app. rewrite (Hns _ Hd). simpl. now apply Hns.
Qed.

Lemma Number_numeral u :
  numeral u ->
  exists q, Js.Number (Js.str u) = Js.Num q /\ (0 <= q)%Q /\ (q < 1000)%Q.
Proof.
  intros Hn. destruct (numeral_chars u Hn) as [Hns [c [rest [Hu Hc]]]].
  unfold Js.Number. rewrite chars_str, (trim_chars_nospace u Hns).
  rewrite Hu.
  destruct (digit_facts c Hc) as [_ [Hminus [Hplus _]]].
  rewrite Hminus, Hplus. rewrite <- Hu. clear Hu Hc Hminus Hplus c rest Hns.
  destruct Hn as [ip [Hd [Hlen Hu]]].
  destruct (split_dot_digits ip Hd) as [Hint Hfrac].
  assert (Hnil : Js.is_nil ip = false).
  { destruct ip; [simpl in Hlen; lia | reflexivity]. }
  pose proof (digits_val_bound ip 0 Hd) as Hb.
  assert (Hp : 10 ^ List.length ip <= 1000).
  { destruct Hlen as [_ Hlen].
    change 1000 with (10 ^ 3). apply Nat.pow_le_mono_r; lia. }
  unfold Js.decimal.
  destruct Hu as [->|[fp [-> [Hf Hne]]]].
  - rewrite Hint, Hnil, Hd. simpl.
    eexists. split; [reflexivity|]. unfold Qle, Qlt. simpl. lia.
  - rewrite Hfrac, Hnil, Hd, Hf. cbn [negb andb].
    eexists. split; [reflexivity|].
    assert (Hall : forallb Js.is_digit (ip ++ fp)%list = true).
    { rewrite forallb_app, Hd, Hf. reflexivity. }
    pose proof (digits_val_bound (ip ++ fp)%list 0 Hall) as Hb2.
    rewrite length_app, Nat.pow_add_r in Hb2.
    assert (Hpos : 0 < 10 ^ List.length fp).
    { apply Nat.neq_0_lt_0. apply Nat.pow_nonzero. lia. }
    assert (Hlt : Js.digits_val (ip ++ fp)%list 0
                  < 1000 * 10 ^ List.length fp) by nia.
    assert (Hden : Z.pos (Pos.of_nat (10 ^ List.length fp))
                   = Z.of_nat (10 ^ List.length fp)).
    { rewrite <- positive_nat_Z. rewrite Nat2Pos.id by lia. reflexivity. }
    split; rewrite Qred_correct; unfold Qle, Qlt; cbn [Qnum Qden];
      rewrite ?Hden; lia.
Qed.

(** *** Entries of the heuristic parser *)

Lemma or_else_empty (o : option string) :
  Js.or_else o EmptyString = match o with Some v => v | None => EmptyString end.
Proof. destruct o as [[|c v]|]; reflexivity. Qed.

Lemma trim_str_chars u : Js.chars (Js.trim (Js.str u)) = Js.trim_chars u.
Proof. unfold Js.trim. now rewrite !chars_str. Qed.

Lemma plain_name_trim u :
  forallb GradeParser.name_char u = true -> List.length u <= 50 ->
  plain_name (Js.trim (Js.str u)).
Proof.
  intros Hu Hlen. split; [|split].
  - unfold all_chars. rewrite trim_str_chars. now apply forallb_trim.
  - rewrite <- length_chars, trim_str_chars.
    etransitivity; [apply length_trim_chars | exact Hlen].
  - apply trim_trimmed.
Qed.

Lemma numeral_text u :
  numeral u ->
  Js.trim (Js.str u) = Js.str u /\ Js.truthy (Js.str u) = true.
Proof.
  intros Hn. destruct (numeral_chars u Hn) as [Hns [c [rest [-> _]]]].
  split; [|reflexivity].
  unfold Js.trim. rewrite chars_str. now rewrite trim_chars_nospace.
Qed.

Lemma group_found G c n :
  Lang.recorded G c -> Regex.group c n <> None ->
  exists u, Regex.group c n = Some (Js.str u) /\ G n u.
Proof.
  intros Hc Hn. destruct (Regex.group c n) as [v|] eqn:E; [|congruence].
  destruct (group_recorded G c n v Hc E) as [u [-> Hu]]. eauto.
Qed.

Lemma plain_subject_group m :
  Lang.recorded parser_groups m ->
  plain_subject
    (let s := Js.trim (GradeParser.group_or_empty m "subject") in
     if Js.truthy s then Some s else None).
Proof.
  intros Hm. cbv zeta.
  destruct (Js.truthy _) eqn:Ht; [|intros s; discriminate].
  intros s [= <-]. split; [|split].
  - intros E. rewrite E in Ht. discriminate.
  - unfold GradeParser.group_or_empty. rewrite or_else_empty.
    destruct (Regex.group m "subject") as [v|] eqn:E; [|reflexivity].
    destruct (group_recorded _ _ _ _ Hm E) as [u [-> [_ [_ [Hs _]]]]].
    destruct (Hs eq_refl) as [Hu _].
    unfold all_chars. rewrite trim_str_chars. now apply forallb_trim.
  - apply trim_trimmed.
Qed.

Lemma first_entry_plain rxs part e :
  (forall rx, In rx rxs -> In rx GradeParser.gradeRegexes) ->
  GradeParser.first_entry rxs part = Some e ->
  plain_entry e /\ Js.truthy (GradeParser.studentName e) = true.
Proof.
  intros Hrxs. induction rxs as [|rx rxs IH]; simpl; [discriminate|].
  assert (IH' : GradeParser.first_entry rxs part = Some e ->
                plain_entry e /\ Js.truthy (GradeParser.studentName e) = true).
  { apply IH. intros r Hr. apply Hrxs. now right. }
  destruct (Regex.search rx (Js.chars part)) as [m|] eqn:Hs; [|exact IH'].
  destruct (Js.truthy (Js.trim (GradeParser.group_or_empty m "name")))
    eqn:Hname; [|exact IH'].
  intros [= <-]. simpl. split; [|exact Hname].
  pose proof (Hrxs rx (or_introl eq_refl)) as Hin.
  apply (search_sound parser_groups) in Hs
    as [pre [u [post [_ [_ [Hm Hb]]]]]]; [|now apply records_gradeRegexes].
  destruct (binds_gradeRegexes rx Hin) as [Hbn Hbg].
  destruct (group_found _ _ _ Hm (Hb _ Hbn)) as [un [En [Hn _]]].
  destruct (group_found _ _ _ Hm (Hb _ Hbg)) as [ug [Eg [_ [Hg _]]]].
  destruct (Hn eq_refl) as [Hchars Hlen]. specialize (Hg eq_refl).
  unfold GradeParser.group_or_empty. rewrite En, Eg, !or_else_empty.
  split; [|split]; simpl.
  - apply plain_name_trim; [exact Hchars | lia].
  - destruct (numeral_text ug Hg) as [-> ->].
    destruct (Number_numeral ug Hg) as [q Hq]. exists q.
    destruct Hq as [-> Hq]. auto.
  - rewrite <- or_else_empty. now apply plain_subject_group.
Qed.

Lemma part_entries_plain part :
  Forall plain_entry (GradeParser.part_entries part).
Proof.
  unfold GradeParser.part_entries.
  destruct (GradeParser.first_entry _ part) as [e|] eqn:He.
  - apply first_entry_plain in He as [He _]; [|auto]. now constructor.
  - destruct (Regex.search GradeParser.fallback_rx _) as [m|] eqn:Hs;
      [|constructor].
    apply (search_sound parser_groups) in Hs
      as [pre [u [post [_ [_ [Hm Hb]]]]]]; [|apply records_fallback].
    destruct (group_found _ _ "name" Hm (Hb "name" eq_refl))
      as [un [En [Hn _]]].
    destruct (group_found _ _ "grade" Hm (Hb "grade" eq_refl))
      as [ug [Eg [_ [Hg _]]]].
    destruct (Hn eq_refl) as [Hchars Hlen]. specialize (Hg eq_refl).
    unfold GradeParser.group_or_empty. rewrite En, Eg, !or_else_empty.
    constructor; [|constructor]. split; [|split]; simpl.
    + apply plain_name_trim; [exact Hchars | lia].
    + destruct (Number_numeral ug Hg) as [q [-> Hq]]. exists q. auto.
    + intros s. discriminate.
Qed.

Lemma parseGrades_plain text :
  Forall plain_entry (GradeParser.entries (GradeParser.parseGrades text)).
Proof.
  unfold GradeParser.parseGrades. destruct (negb _); simpl; [constructor|].
  induction (GradeParser.parse_parts text) as [|p ps IH]; simpl;
    [constructor|].
  apply Forall_app. split; [apply part_entries_plain | exact IH].
Qed.

(** X1. Every entry the heuristic parser returns carries a grade, and
    that grade is a number, never NaN, at least 0 and below 1000: each of
    the four expressions of the parser has a mandatory grade group of one to
    three digits with an optional fraction. So the test of the handler that
    a grade is a number and not NaN succeeds on every heuristic entry. *)
Theorem parsed_grades_are_numbers (text : string) :
  Forall (fun e =>
            exists q, GradeParser.grade e = Some (Js.Num q) /\
                      (0 <= q)%Q /\ (q < 1000)%Q)
         (GradeParser.entries (GradeParser.parseGrades text)).
Proof.
  eapply Forall_impl; [|apply parseGrades_plain].
  intros e [_ [H _]]. exact H.
Qed.

(** X2. The student name of every entry the heuristic parser returns
    holds only letters, apostrophes, hyphens and spaces, has at most 50
    characters and no white space at either end; a subject, when the entry
    has one, is not empty, holds only letters, spaces and ampersands, and
    has no white space at either end. *)
Theorem parsed_names_are_plain (text : string) :
  Forall (fun e =>
            (all_chars GradeParser.name_char (GradeParser.studentName e) /\
             String.length (GradeParser.studentName e) <= 50 /\
             Js.trim (GradeParser.studentName e) = GradeParser.studentName e) /\
            (forall s, GradeParser.subject e = Some s ->
               s <> EmptyString /\
               all_chars GradeParser.subject_char s /\ Js.trim s = s))
         (GradeParser.entries (GradeParser.parseGrades text)).
Proof.
  eapply Forall_impl; [|apply parseGrades_plain].
  intros e [Hn [_ Hs]]. split; [exact Hn | exact Hs].
Qed.

Lemma className_plain text c :
  GradeParser.className (GradeParser.parseGrades text) = Some c ->
  c <> EmptyString /\ all_chars GradeParser.class_id_char c.
Proof.
  unfold GradeParser.parseGrades. destruct (negb _); simpl; [discriminate|].
  destruct (Regex.search GradeParser.class_rx _) as [m|] eqn:Hs;
    [|discriminate].
  apply (search_sound parser_groups) in Hs
    as [pre [u [post [_ [_ [Hm _]]]]]]; [|apply records_class].
  intros Hc. destruct (group_recorded _ _ _ _ Hm Hc) as [v [-> [_ [_ [_ H]]]]].
  destruct (H eq_refl) as [Hv Hne]. split.
  - destruct v; [congruence | discriminate].
  - unfold all_chars. now rewrite chars_str.
Qed.

(** X3. A class name the heuristic parser returns is not empty and
    holds only letters, digits and hyphens. *)
Theorem parsed_class_name_is_plain (text c : string) :
  GradeParser.className (GradeParser.parseGrades text) = Some c ->
  c <> EmptyString /\ all_chars GradeParser.class_id_char c.
Proof. apply className_plain. Qed.

Lemma parsed_class_name_is_plain_witness :
  GradeParser.className
    (GradeParser.parseGrades "Class 10B: John 85 in Math") = Some "10B" /\
  all_chars GradeParser.class_id_char "10B".
Proof.
  split; [vm_compute; reflexivity|].
  apply (parsed_class_name_is_plain "Class 10B: John 85 in Math" "10B").
  vm_compute. reflexivity.
Defined.

(** *** Utterances without digits *)

Lemma in_all_ascii c : In c all_ascii.
Proof.
  unfold all_ascii. rewrite <- (ascii_nat_embedding c).
  apply in_map. apply in_seq. pose proof (nat_ascii_bounded c). lia.
Qed.

Lemma demands_word q r u :
  demands q r = true -> Lang.word r u -> existsb q u = true.
Proof.
  revert u. induction r as [|p|a IHa b IHb|a IHa b IHb|lo hi a IHa|m a IHa];
    cbn [demands Lang.word]; intros u Hd Hw.
  - discriminate.
  - destruct Hw as [x [-> Hx]]. cbn [existsb].
    rewrite forallb_forall in Hd. specialize (Hd x (in_all_ascii x)).
    rewrite Hx in Hd. simpl in Hd. now rewrite Hd.
  - destruct Hw as [v [w [-> [Hv Hw]]]]. rewrite existsb_app.
    apply orb_true_iff in Hd as [Hd|Hd].
    + now rewrite (IHa _ Hd Hv).
    + rewrite (IHb _ Hd Hw). apply orb_true_r.
  - apply andb_true_iff in Hd as [Ha Hb].
    destruct Hw as [Hw|Hw]; auto.
  - apply andb_true_iff in Hd as [Hlo Hd].
    destruct Hw as [us [-> [Hus [Hlen _]]]].
    destruct lo; [discriminate|].
    destruct us as [|v us]; [simpl in Hlen; lia|].
    simpl. rewrite existsb_app. apply Forall_inv in Hus.
    now rewrite (IHa _ Hd Hus).
  - auto.
Qed.

Lemma records_trivial r : Lang.records (fun _ _ => True) r.
Proof. induction r; simpl; auto. Qed.

Lemma search_none q r s :
  demands q r = true -> forallb (fun c => negb (q c)) s = true ->
  Regex.search r s = None.
Proof.
  intros Hd Hs. destruct (Regex.search r s) as [c|] eqn:E; [|reflexivity].
  apply (search_sound (fun _ _ => True)) in E
    as [pre [u [post [-> [Hu _]]]]]; [|apply records_trivial].
  apply (demands_word q) in Hu; [|exact Hd].
  apply existsb_exists in Hu as [x [Hx Hq]].
  rewrite forallb_forall in Hs.
  assert (Hin : In x (pre ++ u ++ post)%list).
  { apply in_or_app. right. apply in_or_app. now left. }
  apply Hs in Hin. rewrite Hq in Hin. discriminate.
Qed.

Lemma split_loop_chars q r fuel :
  forall piece s,
    forallb q piece = true -> forallb q s = true ->
    Forall (all_chars q) (Regex.split_loop fuel r piece s).
Proof.
  induction fuel as [|f IH]; intros piece s Hp Hs; simpl.
  - constructor; [|constructor]. unfold all_chars. rewrite chars_str.
    rewrite forallb_app, Hs. now rewrite (forallb_rev _ _ Hp).
  - assert (Hpiece : all_chars q (Js.str (rev piece))).
    { unfold all_chars. rewrite chars_str. now apply forallb_rev. }
    destruct s as [|x s']; [now repeat constructor|].
    assert (Hnext : Forall (all_chars q)
                      (Regex.split_loop f r (x :: piece) s')).
    { simpl in Hs. apply andb_true_iff in Hs as [Hx Hs'].
      apply IH; [simpl; now rewrite Hx | exact Hs']. }
    destruct (Regex.match_at r (x :: s')) as [[rest c]|] eqn:Hm;
      [|exact Hnext].
    destruct (_ && _); [exact Hnext|].
    constructor; [exact Hpiece|]. apply IH; [reflexivity|].
    apply (match_at_sound (fun _ _ => True)) in Hm as [u [Hu _]];
      [|apply records_trivial].
    rewrite Hu, forallb_app in Hs. now apply andb_true_iff in Hs as [_ Hs].
Qed.

Lemma parse_parts_chars q text :
  all_chars q text -> Forall (all_chars q) (GradeParser.parse_parts text).
Proof.
  intros Ht. unfold GradeParser.parse_parts.
  assert (Hsplit : Forall (all_chars q)
                     (Regex.split GradeParser.separator_rx text)).
  { unfold Regex.split. unfold all_chars in Ht.
    destruct (Js.chars text) as [|x l] eqn:E.
    - destruct (Regex.match_at _ []); repeat constructor.
    - now apply split_loop_chars. }
  induction Hsplit as [|p ps Hp Hps IH]; simpl; [constructor|].
  destruct (Js.truthy (Js.trim p)); [|exact IH].
  constructor; [|exact IH].
  unfold all_chars, Js.trim. rewrite chars_str. now apply forallb_trim.
Qed.

Lemma part_entries_without_digit part :
  all_chars (fun c => negb (Js.is_digit c)) part ->
  GradeParser.part_entries part = [].
Proof.
  intros Hp. unfold GradeParser.part_entries.
  assert (Hnone : forall rx, demands Js.is_digit rx = true ->
                    Regex.search rx (Js.chars part) = None).
  { intros rx Hd. now apply (search_none Js.is_digit). }
  unfold GradeParser.gradeRegexes. simpl.
  rewrite !Hnone by (vm_compute; reflexivity). reflexivity.
Qed.

(** X4. An utterance without a digit yields no entry: each
    expression of the heuristic parser needs a grade of at least one
    digit. *)
Theorem no_digit_no_entry (text : string) :
  all_chars (fun c => negb (Js.is_digit c)) text ->
  GradeParser.entries (GradeParser.parseGrades text) = [].
Proof.
  intros Ht. unfold GradeParser.parseGrades.
  destruct (negb _); simpl; [reflexivity|].
  pose proof (parse_parts_chars _ _ Ht) as Hparts.
  induction Hparts as [|p ps Hp Hps IH]; simpl; [reflexivity|].
  now rewrite (part_entries_without_digit p Hp), IH.
Qed.

Lemma no_digit_no_entry_witness :
  GradeParser.entries
    (GradeParser.parseGrades "John did well in Math, and Mary too.") = [].
Proof.
  apply (no_digit_no_entry "John did well in Math, and Mary too.").
  vm_compute. reflexivity.
Defined.

(** *** The JSON text of a reply *)

Lemma upto_last_close_prefix l p :
  upto_last_close l = Some p ->
  firstn (List.length p) l = p /\ List.length p <= List.length l.
Proof.
  revert p. induction l as [|x l IH]; simpl; intros p; [discriminate|].
  destruct (upto_last_close l) as [p'|].
  - intros [= <-]. destruct (IH p' eq_refl) as [H1 H2]. simpl.
    rewrite H1. split; [reflexivity | lia].
  - destruct (Js.char_eqb x "}"); [|discriminate].
    intros [= <-]. simpl. split; [reflexivity | lia].
Qed.

Lemma upto_last_close_none l :
  upto_last_close l = None ->
  forallb (fun c => negb (Js.char_eqb c "}")) l = true.
Proof.
  induction l as [|x l IH]; simpl; [reflexivity|].
  destruct (upto_last_close l); [discriminate|].
  destruct (Js.char_eqb x "}"); [discriminate|]. intros _. now apply IH.
Qed.

(** The greedy loop of [[\s\S]*] followed by the closing brace. *)
Lemma star_any_then_close fuel :
  forall i s c,
    List.length s < fuel ->
    Lang.rep_loop (Regex.run (Regex.Cls (fun _ => true))) 0 None
      (fun s' c' =>
         Regex.run (Regex.chr false "}") s' c' (fun s'' c'' => Some (s'', c'')))
      fuel i s c
    = match upto_last_close s with
      | Some p => Some (skipn (List.length p) s, c)
      | None => None
      end.
Proof.
  induction fuel as [|f IH]; intros i s c Hlen; [lia|].
  destruct s as [|x s'].
  - reflexivity.
  - cbn [Lang.rep_loop Regex.below Regex.run]. cbv beta.
    replace (List.length s' =? List.length (x :: s')) with false
      by (symmetry; apply Nat.eqb_neq; simpl; lia).
    rewrite andb_false_r. rewrite IH by (simpl in Hlen; lia).
    cbn [upto_last_close].
    destruct (upto_last_close s') as [p|]; [reflexivity|].
    unfold Regex.chr. cbn [Regex.run Nat.leb].
    destruct (Js.char_eqb x "}"); reflexivity.
Qed.

Lemma match_at_json x l :
  Regex.match_at GradeExtractor.json_rx (x :: l)
  = if Js.char_eqb x "{" then
      match upto_last_close l with
      | Some p => Some (skipn (List.length p) l, [])
      | None => None
      end
    else None.
Proof.
  unfold Regex.match_at, GradeExtractor.json_rx.
  cbn [Regex.seqs Regex.run Regex.chr Regex.star].
  destruct (Js.char_eqb x "{"); [|reflexivity].
  change (Lang.rep_loop (Regex.run (Regex.Cls (fun _ => true))) 0 None
            (fun s' c' =>
               Regex.run (Regex.chr false "}") s' c'
                 (fun s'' c'' => Some (s'', c'')))
            (0 + List.length l + 1) 0 l []
          = match upto_last_close l with
            | Some p => Some (skipn (List.length p) l, [])
            | None => None
            end).
  apply star_any_then_close. lia.
Qed.

Lemma search_text_none q r s :
  demands q r = true -> forallb (fun c => negb (q c)) s = true ->
  Regex.search_text r s = None.
Proof.
  intros Hd Hs. destruct (Regex.search_text r s) as [t|] eqn:E; [|reflexivity].
  apply search_text_sound in E as [pre [u [post [-> [Hu _]]]]].
  apply (demands_word q) in Hu; [|exact Hd].
  apply existsb_exists in Hu as [x [Hx Hq]].
  rewrite forallb_forall in Hs.
  assert (Hin : In x (pre ++ u ++ post)%list).
  { apply in_or_app. right. apply in_or_app. now left. }
  apply Hs in Hin. rewrite Hq in Hin. discriminate.
Qed.

Lemma search_text_json l :
  Regex.search_text GradeExtractor.json_rx l
  = option_map Js.str (brace_span l).
Proof.
  induction l as [|x l IH].
  - reflexivity.
  - cbn [Regex.search_text brace_span]. rewrite match_at_json.
    destruct (Js.char_eqb x "{") eqn:Ex; [|exact IH].
    destruct (upto_last_close l) as [p|] eqn:Ep.
    + destruct (upto_last_close_prefix l p Ep) as [Hp Hlen].
      cbn [option_map]. unfold Regex.consumed. f_equal. f_equal.
      rewrite length_skipn.
      change (List.length (x :: l)) with (S (List.length l)).
      replace (S (List.length l) - (List.length l - List.length p))
        with (S (List.length p)) by lia.
      cbn [firstn]. now rewrite Hp.
    + simpl. apply (search_text_none (fun c => Js.char_eqb c "}")).
      * vm_compute. reflexivity.
      * now apply upto_last_close_none.
Qed.

(** X5. The text handed to [JSON.parse] runs from the first opening
    brace of the reply to the last closing brace after it, whatever lies
    between them; a reply without such a pair is handed over whole. *)
Theorem json_text_spans_braces (raw : string) :
  GradeExtractor.json_text raw
  = match brace_span (Js.chars raw) with
    | Some p => Js.str p
    | None => raw
    end.
Proof.
  unfold GradeExtractor.json_text. rewrite search_text_json.
  destruct (brace_span (Js.chars raw)); reflexivity.
Qed.

(** *** What the extractor hands back *)

Lemma entry_of_named e : Forall named (GradeExtractor.entry_of e).
Proof.
  unfold GradeExtractor.entry_of. destruct (GradeExtractor.is_object e);
    [|constructor].
  destruct (Js.truthy _) eqn:Ht; [|constructor].
  constructor; [|constructor]. split; simpl.
  - intros E. rewrite E in Ht. discriminate.
  - destruct (GradeExtractor.get e "studentName"); try discriminate.
    apply trim_trimmed.
Qed.

Lemma result_of_shape show_number v :
  exists reply,
    GradeExtractor.assistantReply (GradeExtractor.result_of show_number v)
      = Some reply /\
    Js.truthy reply = true /\
    Forall named
      (GradeExtractor.entries (GradeExtractor.result_of show_number v)).
Proof.
  unfold GradeExtractor.result_of. cbv zeta. cbn [GradeExtractor.entries
    GradeExtractor.assistantReply].
  set (obj := if GradeExtractor.is_object v then v
              else GradeExtractor.VObject []).
  assert (He : Forall named
                 match GradeExtractor.get obj "entries" with
                 | GradeExtractor.VArray items =>
                     flat_map GradeExtractor.entry_of items
                 | _ => []
                 end).
  { destruct (GradeExtractor.get obj "entries"); try constructor.
    induction items as [|x items IH]; simpl; [constructor|].
    apply Forall_app. split; [apply entry_of_named | exact IH]. }
  destruct (GradeExtractor.get obj "assistantReply") as [| |b|n|s|l|f];
    try solve [exists GradeExtractor.parsed_reply; simpl; auto].
  destruct s as [|c s].
  - exists GradeExtractor.parsed_reply. simpl. auto.
  - exists (String c s). simpl. auto.
Qed.

Lemma extract_shape JSON_parse show_number complete text :
  exists r reply,
    GradeExtractor.extractGradesWithOpenAI JSON_parse show_number complete text
      = Ok r /\
    GradeExtractor.assistantReply r = Some reply /\
    Js.truthy reply = true /\
    Forall named (GradeExtractor.entries r).
Proof.
  assert (Hempty : forall line, Js.truthy line = true ->
            exists r reply,
              Ok (GradeExtractor.with_reply GradeExtractor.empty line) = Ok r /\
              GradeExtractor.assistantReply r = Some reply /\
              Js.truthy reply = true /\
              Forall named (GradeExtractor.entries r)).
  { intros line Hl. eexists. exists line. split; [reflexivity|].
    split; [reflexivity|]. split; [exact Hl | constructor]. }
  assert (Hdefault : exists r reply,
            Ok GradeExtractor.empty = Ok r /\
            GradeExtractor.assistantReply r = Some reply /\
            Js.truthy reply = true /\
            Forall named (GradeExtractor.entries r)).
  { eexists. eexists. split; [reflexivity|]. split; [reflexivity|].
    split; [reflexivity | constructor]. }
  assert (Hparsed : forall v, exists r reply,
            Ok (GradeExtractor.result_of show_number v) = Ok r /\
            GradeExtractor.assistantReply r = Some reply /\
            Js.truthy reply = true /\
            Forall named (GradeExtractor.entries r)).
  { intros v. destruct (result_of_shape show_number v) as [reply H].
    eexists. exists reply. split; [reflexivity | exact H]. }
  unfold GradeExtractor.extractGradesWithOpenAI, GradeExtractor.try_result.
  destruct (_ || _); [exact Hdefault|].
  destruct (race _) as [completion|e]; [|now apply Hempty].
  destruct (GradeExtractor.content_of completion) as [raw|];
    [|exact Hdefault].
  destruct (negb _); [exact Hdefault|].
  destruct (JSON_parse _); [apply Hparsed|].
  destruct (JSON_parse _); [apply Hparsed | now apply Hempty].
Qed.

(** X6. Whatever the completion service and [JSON.parse] do, the
    extractor returns a result with a reply that is not empty, so that the
    handler speaks this reply, and never its own confirmation text, whenever
    it works with the extractor's result; and every entry of the result has
    a student name that is not empty and has no white space at either
    end. *)
Theorem extractor_always_replies
        (JSON_parse : string -> result GradeExtractor.value)
        (show_number : Js.number -> string)
        (complete : GradeExtractor.CompletionRequest ->
                    outcome GradeExtractor.value) (text : string) :
  exists r reply,
    GradeExtractor.extractGradesWithOpenAI JSON_parse show_number complete text
      = Ok r /\
    GradeExtractor.assistantReply r = Some reply /\
    reply <> EmptyString /\
    (forall confirmText, Webhook.speak_reply confirmText r = reply) /\
    Forall (fun e =>
              GradeExtractor.studentName e <> EmptyString /\
              Js.trim (GradeExtractor.studentName e)
                = GradeExtractor.studentName e)
           (GradeExtractor.entries r).
Proof.
  destruct (extract_shape JSON_parse show_number complete text)
    as [r [reply [Hr [Ha [Ht He]]]]].
  exists r, reply. split; [exact Hr|]. split; [exact Ha|]. split; [|split].
  - intros E. rewrite E in Ht. discriminate.
  - intros c. now apply speak_reply_prefers_extractor.
  - exact He.
Qed.

(** *** The reply spoken to a teacher *)

Lemma all_chars_app p a b :
  all_chars p a -> all_chars p b -> all_chars p (a ++ b).
Proof.
  unfold all_chars. intros Ha Hb. rewrite chars_append, forallb_app.
  now rewrite Ha, Hb.
Qed.

Lemma all_chars_impl (p q : ascii -> bool) s :
  (forall c, p c = true -> q c = true) -> all_chars p s -> all_chars q s.
Proof.
  unfold all_chars. intros Hpq Hp. apply forallb_forall. intros x Hx.
  apply Hpq. revert x Hx. now apply forallb_forall.
Qed.

Lemma nat_digits_digits fuel :
  forall n acc,
    forallb Js.is_digit acc = true ->
    forallb Js.is_digit (Js.nat_digits fuel n acc) = true.
Proof.
  induction fuel as [|f IH]; intros n acc Hacc; [exact Hacc|].
  assert (Hd : Js.is_digit (Js.digit_char (n mod 10)) = true).
  { pose proof (Nat.mod_upper_bound n 10) as Hlt.
    destruct (n mod 10) as [|[|[|[|[|[|[|[|[|[|k]]]]]]]]]];
      try reflexivity. lia. }
  cbn [Js.nat_digits]. cbv zeta.
  destruct (n / 10 =? 0); [|apply IH]; cbn [forallb]; now rewrite Hd.
Qed.

Lemma of_nat_digits n : all_chars Js.is_digit (Js.of_nat n).
Proof.
  unfold all_chars, Js.of_nat. rewrite chars_str.
  now apply nat_digits_digits.
Qed.

Lemma plain_char_unmarked c :
  Js.is_digit c || GradeParser.class_id_char c = true ->
  negb (Webhook.markup_char c) = true.
Proof.
  destruct c as [[] [] [] [] [] [] [] []]; vm_compute;
    solve [discriminate | reflexivity].
Qed.

Lemma confirm_heuristic_unmarked n speech :
  unmarked (Webhook.confirm_text n (Webhook.heuristic_result speech)
            ++ " Would you like to add more grades?").
Proof.
  unfold Webhook.confirm_text, Webhook.heuristic_result.
  cbn [GradeExtractor.className GradeExtractor.missing Js.join].
  assert (Hclass : unmarked
            (if Js.truthy_opt
                  (GradeParser.className (GradeParser.parseGrades speech))
             then " for class " ++
                  Js.or_else
                    (GradeParser.className (GradeParser.parseGrades speech))
                    EmptyString
             else EmptyString)).
  { destruct (GradeParser.className (GradeParser.parseGrades speech))
      as [c|] eqn:Hc; [|reflexivity].
    destruct (className_plain speech c Hc) as [_ Hp].
    destruct c as [|x c]; [reflexivity|]. cbn [Js.truthy_opt Js.truthy Js.or_else].
    apply all_chars_app; [reflexivity|].
    eapply all_chars_impl; [|exact Hp].
    intros y Hy. apply plain_char_unmarked. rewrite Hy. apply orb_true_r. }
  unfold unmarked in *.
  repeat (apply all_chars_app; [|try reflexivity]); try reflexivity.
  - eapply all_chars_impl; [|apply of_nat_digits].
    intros y Hy. apply plain_char_unmarked. now rewrite Hy.
  - exact Hclass.
Qed.

(** X7. What a teacher hears is decided by where the entries came
    from. When the extractor found entries, the document speaks the
    extractor's own reply and the confirmation text is only stored. When
    the extractor found none and the heuristic parser did, the document
    speaks the confirmation text followed by the question whether to add
    more grades, and this line holds none of the characters < > & ' and the
    double quote. *)
Theorem teacher_reply_by_path
        (JSON_parse : string -> result GradeExtractor.value)
        (show_number : Js.number -> string)
        (env : Webhook.Env) (speech : string) (call : Prisma.Call)
        (w w' : World) (r : Webhook.Response)
        (Hrun : Webhook.teacher_turn JSON_parse show_number env speech call w
                = (Ok (Some r), w')) :
  exists p reply savedCount,
    GradeExtractor.extractGradesWithOpenAI JSON_parse show_number
      (Webhook.complete env) speech = Ok p /\
    Webhook.body r
      = (Webhook.teacher_head ++ reply ++ Webhook.teacher_tail)%string /\
    (GradeExtractor.entries p <> [] ->
     GradeExtractor.assistantReply p = Some reply) /\
    (GradeExtractor.entries p = [] ->
     reply = (Webhook.confirm_text savedCount (Webhook.heuristic_result speech)
              ++ " Would you like to add more grades?")%string /\
     unmarked reply).
Proof.
  pose proof (teacher_turn_speaks JSON_parse show_number env anything
                anything speech call w) as H.
  rewrite Hrun in H. destruct H as [H _]; [discriminate | exact I |].
  destruct (H r eq_refl) as [n ->]. clear H.
  destruct (extract_shape JSON_parse show_number (Webhook.complete env)
              speech) as [p [reply [Hp [Ha [Ht _]]]]].
  unfold chosen_result. rewrite Hp.
  destruct (GradeExtractor.entries p) as [|e es] eqn:He; simpl.
  - exists p, (Webhook.confirm_text n (Webhook.heuristic_result speech)
               ++ " Would you like to add more grades?")%string, n.
    split; [reflexivity|]. split; [reflexivity|]. split; [congruence|].
    intros _. split; [reflexivity | apply confirm_heuristic_unmarked].
  - exists p, reply, n. split; [reflexivity|]. split.
    + unfold Webhook.teacher_xml.
      now rewrite (speak_reply_prefers_extractor _ _ _ Ha Ht).
    + split; [auto | congruence].
Qed.

Lemma teacher_reply_by_path_witness :
  exists p reply savedCount,
    Webhook.teacher_xml "Saved 1 grade(s). Would you like to add more grades?"
      = (Webhook.teacher_head ++ reply ++ Webhook.teacher_tail)%string /\
    (GradeExtractor.entries p = [] ->
     reply = (Webhook.confirm_text savedCount
                (Webhook.heuristic_result "Alice got 90")
              ++ " Would you like to add more grades?")%string /\
     unmarked reply).
Proof.
  destruct (teacher_reply_by_path
              Scenario.JSON_parse Scenario.show_number
              Scenario.env "Alice got 90" Scenario.call2
              {| db := Scenario.db2; faults := [] |}
              (snd (Webhook.teacher_turn Scenario.JSON_parse
                      Scenario.show_number Scenario.env
                      "Alice got 90" Scenario.call2
                      {| db := Scenario.db2; faults := [] |}))
              (Webhook.xml_response
                 (Webhook.teacher_xml
                    "Saved 1 grade(s). Would you like to add more grades?")))
    as [p [reply [n [_ [Hbody [_ Hh]]]]]].
  - vm_compute. reflexivity.
  - exists p, reply, n. split; [exact Hbody | exact Hh].
Defined.

(** *** The conversational engine, beyond timeouts *)

(** X8. Asked about a call that does not exist or has no
    conversation, the engine answers with its fixed error line without
    escalation, whatever the utterance says; it consults no service and
    writes nothing. (When the lookup itself fails, the error is thrown on
    to the caller.) *)
Theorem engine_without_conversation
        (chat : Cohere.ChatRequest -> outcome Cohere.ChatReply)
        (input : string) (callId : Prisma.id) (w : World)
        (Hread : hd false (faults w) = false)
        (Hnone : forall call,
            Prisma.call_by_id callId (db w) = Some call ->
            Prisma.conversationId call = None) :
  Cohere.getAIResponse chat input callId w
  = (Ok {| Cohere.response := "Sorry, there was an error.";
           Cohere.needsEscalation := false;
           Cohere.escalationReason := EmptyString |},
     {| db := db w; faults := tl (faults w) |}).
Proof.
  destruct w as [d fs]. simpl in *.
  unfold Cohere.getAIResponse, bind, query, exec, ret. simpl.
  destruct (Prisma.call_by_id callId d) as [call|] eqn:Hc.
  - rewrite (Hnone call eq_refl).
    destruct fs as [|[|] fs]; simpl in *; try discriminate; reflexivity.
  - destruct fs as [|[|] fs]; simpl in *; try discriminate; reflexivity.
Qed.

Lemma engine_without_conversation_witness :
  Cohere.getAIResponse (fun _ => Resolved (Some "I hear you."))
    "I want to kill myself" 9 {| db := Scenario.db1; faults := [] |}
  = (Ok Cohere.error_response, {| db := Scenario.db1; faults := [] |}).
Proof.
  apply (engine_without_conversation (fun _ => Resolved (Some "I hear you."))
           "I want to kill myself" 9 {| db := Scenario.db1; faults := [] |}).
  - reflexivity.
  - intros call H. vm_compute in H. discriminate.
Defined.

(** X9. When the service replies and storage works, the engine
    leaves the conversation with the utterance in it (stored now unless it
    was there already) and with the reply as its newest message, stored
    under the role assistant with exactly the text the engine returns; no
    other table changes. *)
Theorem engine_stores_exchange
        (chat : Cohere.ChatRequest -> outcome Cohere.ChatReply)
        (input : string) (callId : Prisma.id) (w : World)
        (call : Prisma.Call) (conv : Prisma.id) (reply : Cohere.ChatReply)
        (Hhealthy : faults w = [])
        (Hcall : Prisma.call_by_id callId (db w) = Some call)
        (Hconv : Prisma.conversationId call = Some conv)
        (Hreply : chat (Cohere.chat_request input
                          (Prisma.messages_of conv (db w))) = Resolved reply) :
  exists r d',
    Cohere.getAIResponse chat input callId w
      = (Ok r, {| db := d'; faults := [] |}) /\
    (Prisma.message_first conv "user" input (db w) <> None ->
     Prisma.messages d' =
       (Prisma.messages (db w) ++
        [{| Prisma.msg_id := Prisma.next_id (db w);
            Prisma.msg_conversationId := conv;
            Prisma.msg_role := "assistant";
            Prisma.msg_content := Cohere.response r |}])%list) /\
    (Prisma.message_first conv "user" input (db w) = None ->
     Prisma.messages d' =
       (Prisma.messages (db w) ++
        [{| Prisma.msg_id := Prisma.next_id (db w);
            Prisma.msg_conversationId := conv;
            Prisma.msg_role := "user";
            Prisma.msg_content := input |};
         {| Prisma.msg_id := S (Prisma.next_id (db w));
            Prisma.msg_conversationId := conv;
            Prisma.msg_role := "assistant";
            Prisma.msg_content := Cohere.response r |}])%list) /\
    Prisma.calls d' = Prisma.calls (db w) /\
    Prisma.users d' = Prisma.users (db w) /\
    Prisma.conversations d' = Prisma.conversations (db w) /\
    Prisma.escalations d' = Prisma.escalations (db w) /\
    Prisma.grades d' = Prisma.grades (db w) /\
    Prisma.classrooms d' = Prisma.classrooms (db w) /\
    Prisma.students d' = Prisma.students (db w).
Proof.
  destruct w as [d fs]. simpl in *. subst fs.
  unfold Cohere.getAIResponse, bind, query, exec, try_catch, void, await,
    ret. simpl.
  rewrite Hcall, Hconv.
  destruct (Prisma.message_first conv "user" input d) eqn:Hm; simpl;
    rewrite ?Hm; simpl; rewrite Hreply; simpl;
    eexists; eexists; (split; [reflexivity|]); simpl.
  - split; [reflexivity|]. split; [discriminate|]. repeat split.
  - split; [congruence|]. split.
    + intros _. now rewrite <- app_assoc.
    + repeat split.
Qed.

Lemma engine_stores_exchange_witness :
  exists r d',
    Cohere.getAIResponse (Webhook.chat Scenario.env) "hello" 4
      {| db := Scenario.db1; faults := [] |}
      = (Ok r, {| db := d'; faults := [] |}) /\
    map (fun m => (Prisma.msg_role m, Prisma.msg_content m))
        (Prisma.messages d')
    = [("user", "hello"); ("assistant", "I hear you.")].
Proof.
  destruct (engine_stores_exchange (Webhook.chat Scenario.env) "hello" 4
              {| db := Scenario.db1; faults := [] |} Scenario.call1 3
              (Some "I hear you.") eq_refl eq_refl eq_refl eq_refl)
    as [r [d' [Hrun [_ [Hnew _]]]]].
  exists r, d'. split; [exact Hrun|].
  rewrite (Hnew eq_refl). simpl.
  revert Hrun. vm_compute. intros [= <- _]. reflexivity.
Defined.

Lemma getAIResponse_answers chat input callId d0 :
  hoare false (fun d => d = d0) (Cohere.getAIResponse chat input callId)
    (fun r d =>
       fixed_answer r \/
       (exists conv, newest_is_reply conv (Cohere.response r) d) /\
       (Cohere.needsEscalation r, Cohere.escalationReason r)
         = Lexicon.classify input)
    (fun d => d = d0).
Proof.
  unfold Cohere.getAIResponse.
  eapply hoare_bind with (R := fun _ => anything).
  { apply hoare_query; [auto | intros; exact I]. }
  intros found.
  eapply hoare_conseq with (E := fun _ => False);
    [|intros d H; exact H | intros r d H; exact H | intros d []].
  destruct found as [[conversation msgs]|];
    [|apply hoare_ret; intros; left; now left].
  eapply hoare_bind with (R := fun _ => anything).
  { eapply hoare_try with (E' := anything); [apply hoare_any|].
    intros e. apply hoare_ret. intros; exact I. }
  intros _. eapply hoare_try with (E' := anything).
  - eapply hoare_bind with (R := fun _ => anything); [apply hoare_any|].
    intros reply.
    eapply hoare_bind
      with (R := fun _ d =>
                   newest_is_reply conversation
                     (Js.or_else reply "I'm here to listen.") d).
    + apply hoare_exec; [intros; exact I|].
      intros d _. simpl. eexists. eexists. reflexivity.
    + intros m. apply hoare_ret. intros d Hd. right. simpl. split.
      * exists conversation. exact Hd.
      * apply classification_is_lexical.
  - intros e. destruct (String.eqb _ _); apply hoare_ret; intros; left;
      [right; now left | right; now right].
Qed.

Lemma getAIResponse_returns chat input callId w :
  hd false (faults w) = false ->
  exists r w', Cohere.getAIResponse chat input callId w = (Ok r, w').
Proof.
  destruct w as [d fs]. intros Hread.
  unfold Cohere.getAIResponse, void, bind, query, exec, try_catch, await,
    ret.
  destruct fs as [|[|] fs]; simpl in Hread; try discriminate; simpl;
    (destruct (Prisma.call_by_id callId d) as [call|]; [|eauto]);
    (destruct (Prisma.conversationId call) as [conv|]; [|eauto]); simpl;
    repeat match goal with
      | |- context [match ?l with [] => _ | _ :: _ => _ end] =>
          is_var l; destruct l as [|[|] ?]; simpl
      | |- context [Prisma.message_first ?a ?b ?c ?d] =>
          lazymatch goal with
          | H : Prisma.message_first a b c d = _ |- _ => rewrite H
          | _ => destruct (Prisma.message_first a b c d) eqn:?
          end; simpl
      | |- context [race ?o] =>
          destruct (race o) as [?|?]; simpl
      | |- context [String.eqb (message_of ?e) ?s] =>
          destruct (String.eqb (message_of e) s); simpl
      end; eauto.
Qed.

(** X10. Whatever the service and the storage layer do, the engine
    answers with one of its three fixed lines, which never ask for
    escalation, or with the reply of the service, and then that reply is
    already stored as the newest message. So an escalation is reported
    only for a reply that has been stored; when storing it fails, the
    caller gets the fixed apology and even a crisis utterance is not
    escalated. The engine throws only when its first lookup fails, before
    anything is written. *)
Theorem reply_reported_only_if_stored
        (chat : Cohere.ChatRequest -> outcome Cohere.ChatReply)
        (input : string) (callId : Prisma.id) (w : World) :
  match Cohere.getAIResponse chat input callId w with
  | (Ok r, w') =>
      (fixed_answer r /\ Cohere.needsEscalation r = false) \/
      ((exists conv, newest_is_reply conv (Cohere.response r) (db w')) /\
       (Cohere.needsEscalation r, Cohere.escalationReason r)
         = Lexicon.classify input)
  | (Throw _, w') => db w' = db w /\ hd false (faults w) = true
  end.
Proof.
  pose proof (getAIResponse_returns chat input callId w) as Hret.
  pose proof (getAIResponse_answers chat input callId (db w) w) as H.
  destruct (Cohere.getAIResponse chat input callId w) as [[r|e] w'].
  - destruct H as [[H|H] _]; [discriminate | reflexivity | |now right].
    left. split; [exact H|].
    destruct H as [->|[->| ->]]; reflexivity.
  - destruct H as [H _]; [discriminate | reflexivity |].
    split; [exact H|].
    destruct (hd false (faults w)); [reflexivity|].
    destruct (Hret eq_refl) as [r [w0 Hr]]. discriminate Hr.
Qed.

(** With a crisis utterance and a reply of the service, a failure of the
    write that stores the reply leaves the caller with the apology. *)
Example crisis_not_escalated_when_store_fails :
  fst (Cohere.getAIResponse (Webhook.chat Scenario.env)
         "I want to kill myself" 4
         {| db := Scenario.db1; faults := [false; false; false; true] |})
  = Ok Cohere.trouble_response.
Proof. vm_compute. reflexivity. Qed.

(** X11. The request the engine sends to the service carries the
    utterance as its message and, as history, the messages the conversation
    held when the engine looked the call up, one entry each in stored
    order, marked CHATBOT for the role assistant and USER otherwise. The
    utterance the engine stores itself is not part of that history; an
    utterance that was stored before the engine was called is, so the
    service then receives it twice, as the last words of the history and as
    the message. *)
Theorem engine_sends_history_snapshot
        (chat : Cohere.ChatRequest -> outcome Cohere.ChatReply)
        (input : string) (callId : Prisma.id) (w : World)
        (call : Prisma.Call) (conv : Prisma.id)
        (Hcall : Prisma.call_by_id callId (db w) = Some call)
        (Hconv : Prisma.conversationId call = Some conv) :
  let request :=
    Cohere.chat_request input (Prisma.messages_of conv (db w)) in
  Cohere.getAIResponse chat input callId w
    = Cohere.getAIResponse (fun _ => chat request) input callId w /\
  Cohere.message request = input /\
  map Cohere.chat_message (Cohere.chatHistory request)
    = map Prisma.msg_content (Prisma.messages_of conv (db w)) /\
  map Cohere.chat_role (Cohere.chatHistory request)
    = map (fun m => if String.eqb (Prisma.msg_role m) "assistant"
                    then "CHATBOT" else "USER")
          (Prisma.messages_of conv (db w)) /\
  (Prisma.message_first conv "user" input (db w) <> None ->
   In {| Cohere.chat_role := "USER"; Cohere.chat_message := input |}
      (Cohere.chatHistory request)).
Proof.
  cbv zeta. split; [|split; [|split; [|split]]].
  - destruct w as [d fs]. simpl in *.
    unfold Cohere.getAIResponse, bind, query, exec. simpl.
    rewrite Hcall, Hconv.
    destruct fs as [|[|] fs]; reflexivity.
  - reflexivity.
  - simpl. now rewrite map_map.
  - simpl. now rewrite map_map.
  - intros Hm. simpl.
    destruct (Prisma.message_first conv "user" input (db w)) as [m|] eqn:E;
      [|congruence].
    unfold Prisma.message_first in E. apply find_some in E as [Hin Hp].
    unfold Prisma.is_message in Hp.
    apply andb_true_iff in Hp as [Hp Hcontent].
    apply andb_true_iff in Hp as [Hc Hrole].
    apply String.eqb_eq in Hrole, Hcontent.
    apply in_map_iff. exists m. split.
    + rewrite Hrole, Hcontent. reflexivity.
    + unfold Prisma.messages_of. apply filter_In. auto.
Qed.

Lemma engine_sends_history_snapshot_witness :
  Cohere.chatHistory
    (Cohere.chat_request "hello"
       (Prisma.messages_of 3
          (Prisma.add_message
             {| Prisma.msg_id := 5; Prisma.msg_conversationId := 3;
                Prisma.msg_role := "user"; Prisma.msg_content := "hello" |}
             Scenario.db1)))
  = [{| Cohere.chat_role := "USER"; Cohere.chat_message := "hello" |}] /\
  In {| Cohere.chat_role := "USER"; Cohere.chat_message := "hello" |}
     (Cohere.chatHistory
        (Cohere.chat_request "hello"
           (Prisma.messages_of 3
              (Prisma.add_message
                 {| Prisma.msg_id := 5; Prisma.msg_conversationId := 3;
                    Prisma.msg_role := "user"; Prisma.msg_content := "hello" |}
                 Scenario.db1)))).
Proof.
  split; [reflexivity|].
  apply (engine_sends_history_snapshot (fun _ => TimedOut) "hello" 4
           {| db := Prisma.add_message
                      {| Prisma.msg_id := 5; Prisma.msg_conversationId := 3;
                         Prisma.msg_role := "user";
                         Prisma.msg_content := "hello" |} Scenario.db1;
              faults := [] |} Scenario.call1 3 eq_refl eq_refl).
  vm_compute. discriminate.
Defined.

(** *** What a status update may change *)

Lemma status_change_refl d : status_change d d.
Proof. split; auto. Qed.

Lemma map_update {A B : Type} (g : A -> B) (p : A -> bool) (f : A -> A)
      (l : list A) :
  (forall x, g (f x) = g x) ->
  map g (map (fun x => if p x then f x else x) l) = map g l.
Proof.
  intros H. rewrite map_map. apply map_ext.
  intros x. destruct (p x); [apply H | reflexivity].
Qed.

Lemma status_change_complete d0 d i t :
  status_change d0 d ->
  status_change d0
    (snd (Prisma.update_calls i
            (fun c => Prisma.set_call_endedAt t
                        (Prisma.set_call_status "completed" c)) d)).
Proof.
  intros [H1 H2 H3 H4 H5 H6 H7 H8 H9 Hc Hu]. unfold Prisma.update_calls.
  destruct (Prisma.call_by_id i d); simpl; [|now split].
  split; simpl; auto.
  - rewrite map_update; [exact H1 | reflexivity].
  - intros y Hin. apply in_map_iff in Hin as [x [<- Hx]].
    destruct (Prisma.call_id x =? i); [now left | now apply Hc].
Qed.

Lemma status_change_release d0 d i :
  status_change d0 d ->
  status_change d0
    (snd (Prisma.update_users i (Prisma.set_user_status "available") d)).
Proof.
  intros [H1 H2 H3 H4 H5 H6 H7 H8 H9 Hc Hu]. unfold Prisma.update_users.
  destruct (Prisma.user_by_id i d); simpl; [|now split].
  split; simpl; auto.
  - rewrite map_update; [exact H2 | reflexivity].
  - intros y Hin. apply in_map_iff in Hin as [x [<- Hx]].
    destruct (Prisma.user_id x =? i); [now left | now apply Hu].
Qed.

Lemma status_update_changes_statuses env callSid d0 :
  keeps false (status_change d0) (Webhook.status_update env callSid).
Proof.
  keeps_walk fail
    ltac:(intros ? ?;
          first [ apply status_change_complete; assumption
                | apply status_change_release; assumption ]).
Qed.

(** X12. A terminal status update, whatever else the request carries
    and whatever the storage layer does, creates no row and deletes none:
    it leaves every table but calls and users as it is, and in those two it
    changes at most statuses (and end times), of calls to completed and of
    users to available. *)
Theorem status_update_only_sets_statuses
        (JSON_parse : string -> result GradeExtractor.value)
        (show_number : Js.number -> string) (default_status : string)
        (env : Webhook.Env) (form : Webhook.Form)
        (fs : list bool) (d : Prisma.Db)
        (Hterminal : Webhook.is_terminal (Webhook.CallStatus form) = true) :
  status_change d
    (snd (Webhook.handle JSON_parse show_number default_status env
            {| Webhook.formData := Ok form |} fs d)).
Proof.
  pose proof (status_update_changes_statuses env (Webhook.CallSid form) d
                {| db := d; faults := fs |}) as H.
  unfold Webhook.handle, Webhook.POST, try_catch, bind, await. simpl.
  rewrite Hterminal.
  destruct (Webhook.status_update env (Webhook.CallSid form) _)
    as [[r|e] w']; simpl; apply H;
    solve [discriminate | apply status_change_refl].
Qed.

Lemma status_update_only_sets_statuses_witness :
  status_change Scenario.db3
    (Scenario.after Scenario.env
       (Scenario.request (Some "one more thing") "CA1" "+15550111"
                         (Some "completed")) [] Scenario.db3).
Proof.
  apply (status_update_only_sets_statuses Scenario.JSON_parse
           Scenario.show_number Scenario.default_status Scenario.env
           (Scenario.form (Some "one more thing") "CA1" "+15550111"
                          (Some "completed")) [] Scenario.db3).
  reflexivity.
Defined.

(** *** Stored rows stay *)

Lemma grown_refl {A : Type} (l : list A) : grown l l.
Proof. exists []. now rewrite app_nil_r. Qed.

Lemma grown_snoc {A : Type} (l l' : list A) (x : A) :
  grown l l' -> grown l (l' ++ [x])%list.
Proof. intros [a ->]. exists (a ++ [x])%list. now rewrite app_assoc. Qed.

Lemma grown_map_snoc {A B : Type} (g : A -> B) (l : list B) (l' : list A)
      (x : A) :
  grown l (map g l') -> grown l (map g (l' ++ [x])%list).
Proof. intros H. rewrite map_app. now apply grown_snoc. Qed.

Lemma extends_refl d : extends d d.
Proof. split; try apply grown_refl. lia. Qed.

Ltac extends_fields :=
  match goal with
  | H : extends _ _ |- _ => destruct H as [? ? ? ? ? ? ? ? ?]
  end;
  split; simpl;
  first [ assumption
        | apply grown_snoc; assumption
        | apply grown_map_snoc; assumption
        | rewrite map_update by reflexivity; assumption
        | lia ].

Ltac extends_write :=
  intros ? ?; unfold_write; extends_fields.

Lemma extends_save_entries d0 classroomId entries savedCount :
  keeps false (extends d0)
        (Webhook.save_entries classroomId entries savedCount).
Proof.
  revert savedCount. induction entries as [|e rest IH]; intros n; simpl.
  - apply keeps_ret.
  - keeps_walk ltac:(apply IH) extends_write.
Qed.

Lemma extends_POST JSON_parse show_number default_status env request d0 :
  keeps false (extends d0)
        (Webhook.POST JSON_parse show_number default_status env request).
Proof.
  keeps_walk ltac:(apply extends_save_entries) extends_write.
Qed.

(** X13. No webhook event, whatever the services and the storage layer
    do, removes or rewrites what is stored: conversations, messages,
    escalations, classrooms, students and grades stay as they are, calls
    keep their identifier, caller and CallSid, users keep their identifier,
    phone number and role, every table keeps its order, and new rows come
    only at the end. *)
Theorem handler_keeps_stored_rows
        (JSON_parse : string -> result GradeExtractor.value)
        (show_number : Js.number -> string) (default_status : string)
        (env : Webhook.Env) (request : Webhook.Request)
        (fs : list bool) (d : Prisma.Db) :
  extends d
    (snd (Webhook.handle JSON_parse show_number default_status env request
            fs d)).
Proof.
  apply handle_keeps; [apply extends_POST | apply extends_refl].
Qed.

(** *** One call per CallSid, one user per phone number *)

Lemma find_none_not_in {A B : Type} (key : A -> B) (eqb : B -> B -> bool)
      (k : B) (l : list A) :
  (forall a b, eqb a b = true <-> a = b) ->
  find (fun x => eqb (key x) k) l = None -> ~ In k (map key l).
Proof.
  intros Heq Hnone Hin. apply in_map_iff in Hin as [x [Hk Hx]].
  apply (find_none _ _ Hnone) in Hx. simpl in Hx.
  rewrite <- Hk in Hx. assert (H : eqb (key x) (key x) = true) by now apply Heq.
  congruence.
Qed.

Lemma keys_unique_frame d d' :
  Prisma.calls d' = Prisma.calls d -> Prisma.users d' = Prisma.users d ->
  keys_unique d -> keys_unique d'.
Proof. unfold keys_unique, sids_unique, phones_unique. now intros -> ->. Qed.

Lemma keys_unique_update_calls i f d :
  (forall c, Prisma.twilioCallSid (f c) = Prisma.twilioCallSid c) ->
  keys_unique d -> keys_unique (snd (Prisma.update_calls i f d)).
Proof.
  intros Hf [Hs Hp]. unfold Prisma.update_calls.
  destruct (Prisma.call_by_id i d); simpl; [|now split].
  split; [|exact Hp]. unfold sids_unique. simpl.
  now rewrite map_update.
Qed.

Lemma keys_unique_update_users i f d :
  (forall u, Prisma.user_phone (f u) = Prisma.user_phone u) ->
  keys_unique d -> keys_unique (snd (Prisma.update_users i f d)).
Proof.
  intros Hf [Hs Hp]. unfold Prisma.update_users.
  destruct (Prisma.user_by_id i d); simpl; [|now split].
  split; [exact Hs|]. unfold phones_unique. simpl.
  now rewrite map_update.
Qed.

Lemma keys_unique_upsert phone role status d :
  keys_unique d -> keys_unique (snd (Prisma.upsert_user phone role status d)).
Proof.
  intros [Hs Hp]. unfold Prisma.upsert_user.
  destruct (Prisma.user_by_phone phone d) eqn:E; simpl; [now split|].
  split; [exact Hs|]. unfold phones_unique. simpl.
  rewrite map_app. simpl. apply NoDup_snoc; [exact Hp|].
  apply (find_none_not_in _ String.eqb); [apply String.eqb_eq | exact E].
Qed.

Ltac keys_write :=
  intros ? ?;
  first [ apply keys_unique_update_calls; [reflexivity | assumption]
        | apply keys_unique_update_users; [reflexivity | assumption]
        | apply keys_unique_upsert; assumption
        | eapply keys_unique_frame; [| |eassumption]; reflexivity ].

(** The call is created only after its CallSid was looked up in vain. *)
Lemma keys_unique_create_session default_status callSid from :
  hoare false
    (fun d => keys_unique d /\ Prisma.call_by_sid callSid d = None)
    (Webhook.create_session default_status callSid from)
    (fun _ => keys_unique) keys_unique.
Proof.
  unfold Webhook.create_session.
  eapply hoare_bind
    with (R := fun _ d => keys_unique d /\ Prisma.call_by_sid callSid d = None).
  { apply hoare_exec; [tauto|]. intros d [Hd Hnone].
    pose proof (keys_unique_upsert from "user" default_status d Hd) as H.
    unfold Prisma.upsert_user in *.
    destruct (Prisma.user_by_phone from d); simpl in *; auto. }
  intros user.
  eapply hoare_bind
    with (R := fun _ d => keys_unique d /\ Prisma.call_by_sid callSid d = None).
  { apply hoare_exec; [tauto|]. intros d [Hd Hnone]. simpl.
    split; [|exact Hnone].
    eapply keys_unique_frame; [| |exact Hd]; reflexivity. }
  intros conversation.
  apply hoare_exec; [tauto|]. intros d [[Hs Hp] Hnone]. simpl.
  split; [|exact Hp]. unfold sids_unique. simpl.
  rewrite map_app. simpl. apply NoDup_snoc; [exact Hs|].
  apply (find_none_not_in _ String.eqb); [apply String.eqb_eq | exact Hnone].
Qed.

Lemma keys_unique_connect default_status callSid from :
  keeps false keys_unique (Webhook.connect default_status callSid from).
Proof.
  unfold Webhook.connect.
  eapply hoare_bind
    with (R := fun existing d =>
                 keys_unique d /\ existing = Prisma.call_by_sid callSid d).
  - apply hoare_query; auto.
  - intros [c|].
    + apply hoare_ret. tauto.
    + apply hoare_void.
      eapply hoare_conseq; [apply keys_unique_create_session | | auto ..].
      intros d [Hd Hnone]. auto.
Qed.

Lemma keys_unique_resolve_call default_status callSid from :
  keeps false keys_unique (Webhook.resolve_call default_status callSid from).
Proof.
  unfold Webhook.resolve_call.
  eapply hoare_bind
    with (R := fun existing d =>
                 keys_unique d /\ existing = Prisma.call_by_sid callSid d).
  - apply hoare_query; auto.
  - intros [c|].
    + apply hoare_ret. tauto.
    + eapply hoare_conseq; [apply keys_unique_create_session | | auto ..].
      intros d [Hd Hnone]. auto.
Qed.

Lemma keys_unique_save_entries classroomId entries savedCount :
  keeps false keys_unique
        (Webhook.save_entries classroomId entries savedCount).
Proof.
  revert savedCount. induction entries as [|e rest IH]; intros n; simpl.
  - apply keeps_ret.
  - keeps_walk ltac:(apply IH) keys_write.
Qed.

Lemma keys_unique_POST JSON_parse show_number default_status env request :
  keeps false keys_unique
        (Webhook.POST JSON_parse show_number default_status env request).
Proof.
  keeps_walk ltac:(first [ apply keys_unique_save_entries
                         | apply keys_unique_connect
                         | apply keys_unique_resolve_call ]) keys_write.
Qed.

(** X14. The handler never stores a second call under a CallSid nor a
    second user under a phone number, whatever the services and the storage
    layer do: a call is created only after its CallSid was looked up in
    vain during the same event, and users are created by an upsert on the
    phone number. *)
Theorem handler_keeps_keys_unique
        (JSON_parse : string -> result GradeExtractor.value)
        (show_number : Js.number -> string) (default_status : string)
        (env : Webhook.Env) (request : Webhook.Request)
        (fs : list bool) (d : Prisma.Db)
        (Hsids : NoDup (map Prisma.twilioCallSid (Prisma.calls d)))
        (Hphones : NoDup (map Prisma.user_phone (Prisma.users d))) :
  let d' := snd (Webhook.handle JSON_parse show_number default_status env
                   request fs d) in
  NoDup (map Prisma.twilioCallSid (Prisma.calls d')) /\
  NoDup (map Prisma.user_phone (Prisma.users d')).
Proof.
  apply (handle_keeps JSON_parse show_number default_status env request
           keys_unique fs d); [apply keys_unique_POST | now split].
Qed.

Lemma handler_keeps_keys_unique_witness :
  map Prisma.twilioCallSid
      (Prisma.calls
         (Scenario.after Scenario.env
            (Scenario.request (Some "hello") "CA2" "+15550111" None) []
            Scenario.db1)) = ["CA1"; "CA2"] /\
  NoDup (map Prisma.user_phone
           (Prisma.users
              (Scenario.after Scenario.env
                 (Scenario.request (Some "hello") "CA2" "+15550111" None) []
                 Scenario.db1))).
Proof.
  split; [vm_compute; reflexivity|].
  apply (handler_keeps_keys_unique Scenario.JSON_parse Scenario.show_number
           Scenario.default_status Scenario.env
           (Scenario.request (Some "hello") "CA2" "+15550111" None) []
           Scenario.db1).
  - repeat (constructor; [simpl; intuition discriminate|]). constructor.
  - repeat (constructor; [simpl; intuition discriminate|]). constructor.
Defined.

(** *** Grades are written for teachers only *)

Lemma without_teacher_users d0 d l :
  (forall u, In u l -> Prisma.user_role u <> "teacher") ->
  without_teacher d0 d -> without_teacher d0 (Prisma.with_users d l).
Proof. intros Hl [_ H]. split; [exact Hl | exact H]. Qed.

Ltac teacher_write :=
  intros ? [? [? [? ?]]]; unfold without_teacher; unfold_write;
  (split; [|auto]);
  first [ assumption
        | intros ? Hin; apply in_map_iff in Hin as [? [<- ?]];
          match goal with
          | |- context [if ?b then _ else _] => destruct b
          end; simpl; auto
        | intros ? Hin; apply in_app_iff in Hin as [Hin|[<-|[]]];
          [auto | simpl; discriminate] ].

Lemma without_teacher_teacher_turn JSON_parse show_number env d0 speech call :
  keeps false (without_teacher d0)
        (Webhook.teacher_turn JSON_parse show_number env speech call).
Proof.
  unfold Webhook.teacher_turn. apply keeps_try.
  - eapply hoare_bind
      with (R := fun caller d =>
                   (forall u, caller = Some u ->
                              Prisma.user_role u <> "teacher") /\
                   without_teacher d0 d).
    + apply hoare_query; [auto|]. intros d Hd. split; [|exact Hd].
      intros u Hu. apply find_some in Hu as [Hin _]. now apply Hd.
    + intros [caller|]; apply hoare_assume; intros Hrole;
        [|apply keeps_ret].
      destruct (String.eqb _ _) eqn:E; [|apply keeps_ret].
      apply String.eqb_eq in E. now destruct (Hrole caller eq_refl).
  - intros e. apply keeps_ret.
Qed.

Lemma without_teacher_POST JSON_parse show_number default_status env request
      d0 :
  keeps false (without_teacher d0)
        (Webhook.POST JSON_parse show_number default_status env request).
Proof.
  keeps_walk ltac:(apply without_teacher_teacher_turn) teacher_write.
Qed.

(** X15. While no user has the role teacher, no webhook event,
    whatever it says and whatever the services and the storage layer do,
    creates a classroom, a student or a grade; and no event makes a user a
    teacher. *)
Theorem no_teacher_no_grades
        (JSON_parse : string -> result GradeExtractor.value)
        (show_number : Js.number -> string) (default_status : string)
        (env : Webhook.Env) (request : Webhook.Request)
        (fs : list bool) (d : Prisma.Db)
        (Hnone : forall u, In u (Prisma.users d) ->
                           Prisma.user_role u <> "teacher") :
  let d' := snd (Webhook.handle JSON_parse show_number default_status env
                   request fs d) in
  Prisma.classrooms d' = Prisma.classrooms d /\
  Prisma.students d' = Prisma.students d /\
  Prisma.grades d' = Prisma.grades d /\
  (forall u, In u (Prisma.users d') -> Prisma.user_role u <> "teacher").
Proof.
  destruct (handle_keeps JSON_parse show_number default_status env request
              (without_teacher d) fs d) as [H1 [H2 [H3 H4]]].
  - apply without_teacher_POST.
  - split; auto.
  - cbv zeta. auto.
Qed.

Lemma no_teacher_no_grades_witness :
  Prisma.grades
    (Scenario.after Scenario.env_extracting
       (Scenario.request (Some "Al got 5") "CA1" "+15550111" None) []
       (Prisma.with_users Scenario.db1
          [Scenario.counselor; Scenario.caller])) = [].
Proof.
  apply (no_teacher_no_grades Scenario.JSON_parse Scenario.show_number
           Scenario.default_status Scenario.env_extracting
           (Scenario.request (Some "Al got 5") "CA1" "+15550111" None) []
           (Prisma.with_users Scenario.db1
              [Scenario.counselor; Scenario.caller])).
  intros u [<-|[<-|[]]]; discriminate.
Defined.

(** *** Students and classrooms are found before they are created *)

Lemma student_first_none name classroom d :
  Prisma.student_first name classroom d = None ->
  ~ In (name, classroom) (map student_key (Prisma.students d)).
Proof.
  intros Hnone Hin. apply in_map_iff in Hin as [s [Hk Hs]].
  apply (find_none _ _ Hnone) in Hs. simpl in Hs.
  injection Hk as Hn Hc. rewrite Hn, String.eqb_refl in Hs. simpl in Hs.
  destruct classroom as [k|]; [|discriminate].
  rewrite Hc, Nat.eqb_refl in Hs. discriminate.
Qed.

Lemma classroom_first_none name teacher d :
  Prisma.classroom_first name teacher d = None ->
  ~ In (name, teacher) (map classroom_key (Prisma.classrooms d)).
Proof.
  intros Hnone Hin. apply in_map_iff in Hin as [c [Hk Hc]].
  apply (find_none _ _ Hnone) in Hc. simpl in Hc.
  injection Hk as Hn Ht. rewrite Hn, Ht, String.eqb_refl, Nat.eqb_refl in Hc.
  discriminate.
Qed.

Lemma roster_unique_frame d d' :
  Prisma.students d' = Prisma.students d ->
  Prisma.classrooms d' = Prisma.classrooms d ->
  roster_unique d -> roster_unique d'.
Proof. unfold roster_unique. now intros -> ->. Qed.

Ltac roster_write :=
  intros ? ?; unfold_write;
  (eapply roster_unique_frame; [| |eassumption]; reflexivity).

Lemma roster_unique_save_entries classroomId entries savedCount :
  keeps false roster_unique
        (Webhook.save_entries classroomId entries savedCount).
Proof.
  revert savedCount. induction entries as [|e rest IH]; intros n; simpl.
  - apply keeps_ret.
  - destruct (negb _) eqn:Hname; [apply IH|].
    apply negb_false_iff in Hname.
    assert (Hne : Js.trim (GradeExtractor.studentName e) <> EmptyString).
    { intros E. rewrite E in Hname. discriminate. }
    eapply hoare_bind
      with (R := fun found d =>
                   roster_unique d /\
                   found = Prisma.student_first
                             (Js.trim (GradeExtractor.studentName e))
                             classroomId d).
    { apply hoare_query; auto. }
    intros found. eapply hoare_bind with (R := fun _ => roster_unique).
    + destruct found as [s|].
      * apply hoare_ret. tauto.
      * apply hoare_exec; [tauto|].
        intros d [[Hs [Hc Hn]] Hnone]. symmetry in Hnone.
        unfold roster_unique. cbn [Prisma.create_student Prisma.add_student
          Prisma.students Prisma.classrooms]. split; [|split].
        -- rewrite map_app. simpl. apply NoDup_snoc; [exact Hs|].
           now apply student_first_none.
        -- exact Hc.
        -- apply Forall_app. split; [exact Hn|].
           constructor; [|constructor]. split; [exact Hne|].
           apply trim_trimmed.
    + intros student. keeps_walk ltac:(apply IH) roster_write.
Qed.

Lemma roster_unique_ensure_classroom className teacher :
  keeps false roster_unique (Webhook.ensure_classroom className teacher).
Proof.
  unfold Webhook.ensure_classroom.
  destruct (Js.truthy_opt className); [|apply keeps_ret]. cbv zeta.
  eapply hoare_bind
    with (R := fun found d =>
                 roster_unique d /\
                 found = Prisma.classroom_first
                           (Js.or_else className EmptyString) teacher d).
  { apply hoare_query; auto. }
  intros found. eapply hoare_bind with (R := fun _ => roster_unique);
    [|intros; apply keeps_ret].
  destruct found as [c|].
  - apply hoare_ret. tauto.
  - apply hoare_exec; [tauto|].
    intros d [[Hs [Hc Hn]] Hnone]. symmetry in Hnone.
    unfold roster_unique. cbn [Prisma.create_classroom Prisma.add_classroom
      Prisma.students Prisma.classrooms]. split; [exact Hs|].
    split; [|exact Hn].
    rewrite map_app. simpl. apply NoDup_snoc; [exact Hc|].
    now apply classroom_first_none.
Qed.

Lemma roster_unique_POST JSON_parse show_number default_status env request :
  keeps false roster_unique
        (Webhook.POST JSON_parse show_number default_status env request).
Proof.
  keeps_walk ltac:(first [ apply roster_unique_save_entries
                         | apply roster_unique_ensure_classroom ])
             roster_write.
Qed.

(** X16. The handler never stores a second student under the same
    name and classroom, nor a second classroom under the same name and
    teacher, and never a student whose name is empty or has white space at
    either end, whatever the services and the storage layer do: the rows
    are looked up before they are created, and entries without a name are
    skipped. *)
Theorem handler_keeps_roster_unique
        (JSON_parse : string -> result GradeExtractor.value)
        (show_number : Js.number -> string) (default_status : string)
        (env : Webhook.Env) (request : Webhook.Request)
        (fs : list bool) (d : Prisma.Db)
        (Hroster : roster_unique d) :
  roster_unique
    (snd (Webhook.handle JSON_parse show_number default_status env request
            fs d)).
Proof.
  apply handle_keeps; [apply roster_unique_POST | exact Hroster].
Qed.

Lemma handler_keeps_roster_unique_witness :
  map Prisma.student_name
      (Prisma.students
         (Scenario.after Scenario.env
            (Scenario.request (Some "Alice 90, Alice 95") "CA2"
                              "+15550101" None) [] Scenario.db2))
  = ["Alice"] /\
  roster_unique
    (Scenario.after Scenario.env
       (Scenario.request (Some "Alice 90, Alice 95") "CA2"
                         "+15550101" None) [] Scenario.db2).
Proof.
  split; [vm_compute; reflexivity|].
  apply (handler_keeps_roster_unique Scenario.JSON_parse Scenario.show_number
           Scenario.default_status Scenario.env
           (Scenario.request (Some "Alice 90, Alice 95") "CA2"
                             "+15550101" None) [] Scenario.db2).
  repeat split; constructor.
Defined.

(** *** Saving the entries of a dictation *)

Lemma grown_in {A : Type} (l l' : list A) (x : A) :
  grown l l' -> In x l -> In x l'.
Proof. intros [a ->] H. apply in_or_app. now left. Qed.

Lemma grown_trans {A : Type} (l1 l2 l3 : list A) :
  grown l1 l2 -> grown l2 l3 -> grown l1 l3.
Proof.
  intros [a ->] [b ->]. exists (a ++ b)%list. now rewrite app_assoc.
Qed.

Lemma saved_as_nil d : saved_as [] d d.
Proof.
  split; try reflexivity; [|apply grown_refl].
  exists []. split; [now rewrite app_nil_r | constructor].
Qed.

(** A step that only added students, followed by the saving of [es]. *)
Lemma saved_as_after_students es d d1 d' :
  grown (Prisma.students d) (Prisma.students d1) ->
  Prisma.grades d1 = Prisma.grades d ->
  Prisma.users d1 = Prisma.users d -> Prisma.calls d1 = Prisma.calls d ->
  Prisma.conversations d1 = Prisma.conversations d ->
  Prisma.messages d1 = Prisma.messages d ->
  Prisma.escalations d1 = Prisma.escalations d ->
  Prisma.classrooms d1 = Prisma.classrooms d ->
  saved_as es d1 d' -> saved_as es d d'.
Proof.
  intros Hs Hg Hu Hc Hv Hm He Hk [[a [Ha Hf]] H2 H3 H4 H5 H6 H7 H8].
  split; try congruence.
  - exists a. split; [congruence | exact Hf].
  - eapply grown_trans; eassumption.
Qed.

(** A grade row [g] saved for [e], followed by the saving of [es]. *)
Lemma saved_as_cons e es g d d1 d' s :
  In s (Prisma.students d1) ->
  Prisma.student_id s = Prisma.grade_studentId g ->
  Prisma.student_name s = Js.trim (GradeExtractor.studentName e) ->
  GradeExtractor.grade e = Some (Prisma.grade_value g) ->
  Prisma.grade_subject g = Js.or_else (GradeExtractor.subject e) "General" ->
  saved_as es (Prisma.add_grade g d1) d' ->
  grown (Prisma.students d) (Prisma.students d1) ->
  Prisma.grades d1 = Prisma.grades d ->
  Prisma.users d1 = Prisma.users d -> Prisma.calls d1 = Prisma.calls d ->
  Prisma.conversations d1 = Prisma.conversations d ->
  Prisma.messages d1 = Prisma.messages d ->
  Prisma.escalations d1 = Prisma.escalations d ->
  Prisma.classrooms d1 = Prisma.classrooms d ->
  saved_as (e :: es) d d'.
Proof.
  intros Hin Hid Hname Hgrade Hsubject
         [[a [Ha Hf]] H2 H3 H4 H5 H6 H7 H8] Hs Hg Hu Hc Hv Hm He Hk.
  simpl in *. split; try congruence.
  - exists (g :: a). split.
    + rewrite Ha, Hg, <- app_assoc. reflexivity.
    + constructor; [|exact Hf]. split; [exact Hgrade|].
      split; [exact Hsubject|]. exists s. split; [|auto].
      eapply grown_in; eassumption.
  - eapply grown_trans; eassumption.
Qed.

Lemma save_entries_saves classroomId entries :
  forall savedCount d,
  exists d',
    Webhook.save_entries classroomId entries savedCount
      {| db := d; faults := [] |}
    = (Ok (savedCount + List.length (filter savable entries)),
       {| db := d'; faults := [] |}) /\
    saved_as (filter savable entries) d d'.
Proof.
  induction entries as [|e rest IH]; intros n d.
  - exists d. simpl. unfold ret. rewrite Nat.add_0_r.
    split; [reflexivity | apply saved_as_nil].
  - assert (Hskip : savable e = false ->
              forall d1,
                grown (Prisma.students d) (Prisma.students d1) ->
                Prisma.grades d1 = Prisma.grades d ->
                Prisma.users d1 = Prisma.users d ->
                Prisma.calls d1 = Prisma.calls d ->
                Prisma.conversations d1 = Prisma.conversations d ->
                Prisma.messages d1 = Prisma.messages d ->
                Prisma.escalations d1 = Prisma.escalations d ->
                Prisma.classrooms d1 = Prisma.classrooms d ->
                exists d',
                  Webhook.save_entries classroomId rest n
                    {| db := d1; faults := [] |}
                  = (Ok (n + List.length (filter savable (e :: rest))),
                     {| db := d'; faults := [] |}) /\
                  saved_as (filter savable (e :: rest)) d d').
    { intros Hsav d1 Hs Hg Hu Hc Hv Hm He Hk. cbn [filter]. rewrite Hsav.
      destruct (IH n d1) as [d' [Hrun H]]. exists d'.
      split; [exact Hrun|]. now apply (saved_as_after_students _ d d1). }
    assert (Hsave : forall q s d1,
              savable e = true ->
              GradeExtractor.grade e = Some (Js.Num q) ->
              In s (Prisma.students d1) ->
              Prisma.student_name s
                = Js.trim (GradeExtractor.studentName e) ->
              grown (Prisma.students d) (Prisma.students d1) ->
              Prisma.grades d1 = Prisma.grades d ->
              Prisma.users d1 = Prisma.users d ->
              Prisma.calls d1 = Prisma.calls d ->
              Prisma.conversations d1 = Prisma.conversations d ->
              Prisma.messages d1 = Prisma.messages d ->
              Prisma.escalations d1 = Prisma.escalations d ->
              Prisma.classrooms d1 = Prisma.classrooms d ->
              exists d',
                Webhook.save_entries classroomId rest (S n)
                  {| db := Prisma.add_grade
                             {| Prisma.grade_id := Prisma.next_id d1;
                                Prisma.grade_studentId := Prisma.student_id s;
                                Prisma.grade_subject :=
                                  Js.or_else (GradeExtractor.subject e)
                                             "General";
                                Prisma.grade_value := Js.Num q |} d1;
                     faults := [] |}
                = (Ok (n + List.length (filter savable (e :: rest))),
                   {| db := d'; faults := [] |}) /\
                saved_as (filter savable (e :: rest)) d d').
    { intros q s d1 Hsav Hq Hin Hname Hs Hg Hu Hc Hv Hm He Hk.
      cbn [filter]. rewrite Hsav.
      destruct (IH (S n) (Prisma.add_grade
                          {| Prisma.grade_id := Prisma.next_id d1;
                             Prisma.grade_studentId := Prisma.student_id s;
                             Prisma.grade_subject :=
                               Js.or_else (GradeExtractor.subject e) "General";
                             Prisma.grade_value := Js.Num q |} d1))
        as [d' [Hrun H]].
      exists d'. split.
      - rewrite Hrun. cbn [List.length]. f_equal. f_equal. lia.
      - apply (saved_as_cons e _
                 {| Prisma.grade_id := Prisma.next_id d1;
                    Prisma.grade_studentId := Prisma.student_id s;
                    Prisma.grade_subject :=
                      Js.or_else (GradeExtractor.subject e) "General";
                    Prisma.grade_value := Js.Num q |} d d1 d' s);
          solve [assumption | reflexivity]. }
    cbn [Webhook.save_entries].
    destruct (Js.truthy (Js.trim (GradeExtractor.studentName e))) eqn:Hn;
      cbn [negb].
    2:{ apply Hskip; try reflexivity; [|apply grown_refl].
        unfold savable. now rewrite Hn. }
    unfold bind at 1, query, exec at 1. cbn [faults db].
    destruct (Prisma.student_first _ classroomId d) as [s|] eqn:Hf.
    + (* the student exists *)
      apply find_some in Hf as [Hin Hp].
      apply andb_true_iff in Hp as [Hp _]. apply String.eqb_eq in Hp.
      unfold bind at 1, ret at 1.
      destruct (GradeExtractor.grade e) as [[q|]|] eqn:Hg.
      * unfold bind at 1, exec at 1. cbn [faults db Prisma.create_grade].
        apply Hsave; try reflexivity; try assumption; [|apply grown_refl].
        unfold savable. now rewrite Hn, Hg.
      * apply Hskip; try reflexivity; [|apply grown_refl].
        unfold savable. now rewrite Hn, Hg.
      * apply Hskip; try reflexivity; [|apply grown_refl].
        unfold savable. now rewrite Hn, Hg.
    + (* the student is created *)
      unfold bind at 1, exec at 1. cbn [faults db Prisma.create_student].
      set (s := {| Prisma.student_id := Prisma.next_id d;
                   Prisma.student_name :=
                     Js.trim (GradeExtractor.studentName e);
                   Prisma.student_classroomId := classroomId |}).
      assert (Hgrown : grown (Prisma.students d)
                             (Prisma.students (Prisma.add_student s d))).
      { exists [s]. reflexivity. }
      destruct (GradeExtractor.grade e) as [[q|]|] eqn:Hg.
      * unfold bind at 1, exec at 1. cbn [faults db Prisma.create_grade].
        apply (Hsave q s (Prisma.add_student s d));
          try reflexivity; try assumption.
        -- unfold savable. now rewrite Hn, Hg.
        -- simpl. apply in_or_app. right. now left.
      * apply Hskip; try reflexivity; [|exact Hgrown].
        unfold savable. now rewrite Hn, Hg.
      * apply Hskip; try reflexivity; [|exact Hgrown].
        unfold savable. now rewrite Hn, Hg.
Qed.

(** X17. With a working storage layer, the loop over the entries of a
    dictation returns its starting count plus the number of entries that
    have a name and a numeric grade. For each of these it appends one grade
    row, in the order of the entries, with the entry's grade, with the
    entry's subject or General when it has none, and for a student row
    whose name is the trimmed name of the entry. Entries without a name are
    skipped, entries without a numeric grade only get their student, and no
    other table changes. *)
Theorem save_entries_saves_named_grades
        (classroomId : option Prisma.id)
        (entries : list GradeExtractor.AIGradeEntry) (savedCount : nat)
        (w : World) (Hhealthy : faults w = []) :
  exists d',
    Webhook.save_entries classroomId entries savedCount w
    = (Ok (savedCount + List.length (filter savable entries)),
       {| db := d'; faults := [] |}) /\
    saved_as (filter savable entries) (db w) d'.
Proof.
  destruct w as [d fs]. simpl in *. subst fs. apply save_entries_saves.
Qed.

Lemma save_entries_saves_named_grades_witness :
  exists d',
    Webhook.save_entries None
      [{| GradeExtractor.studentName := " Ann ";
          GradeExtractor.subject := None;
          GradeExtractor.grade := Some (Js.Num (7 # 1)) |};
       {| GradeExtractor.studentName := "  ";
          GradeExtractor.subject := Some "Math";
          GradeExtractor.grade := Some (Js.Num (9 # 1)) |};
       {| GradeExtractor.studentName := "Bob";
          GradeExtractor.subject := Some "Math";
          GradeExtractor.grade := Some Js.NaN |}] 0
      {| db := Scenario.db2; faults := [] |}
    = (Ok 1, {| db := d'; faults := [] |}) /\
    map Prisma.student_name (Prisma.students d') = ["Ann"; "Bob"] /\
    map Prisma.grade_subject (Prisma.grades d') = ["General"].
Proof.
  destruct (save_entries_saves_named_grades None
              [{| GradeExtractor.studentName := " Ann ";
                  GradeExtractor.subject := None;
                  GradeExtractor.grade := Some (Js.Num (7 # 1)) |};
               {| GradeExtractor.studentName := "  ";
                  GradeExtractor.subject := Some "Math";
                  GradeExtractor.grade := Some (Js.Num (9 # 1)) |};
               {| GradeExtractor.studentName := "Bob";
                  GradeExtractor.subject := Some "Math";
                  GradeExtractor.grade := Some Js.NaN |}] 0
              {| db := Scenario.db2; faults := [] |} eq_refl)
    as [d' [Hrun _]].
  exists d'. split; [exact Hrun|].
  revert Hrun. vm_compute. intros [= <-]. split; reflexivity.
Defined.

(** *** The first event of a call *)

Lemma find_snoc_none {A : Type} (p : A -> bool) (l : list A) (x : A) :
  find p l = None -> find p (l ++ [x])%list = if p x then Some x else None.
Proof.
  induction l as [|y l IH]; simpl; [reflexivity|].
  destruct (p y); [discriminate | exact IH].
Qed.

(** X18. With a working storage layer, the first in-progress event
    of a call, one whose CallSid is not known yet, is answered with the
    greeting and creates the session: one conversation and one call, the
    call in the status ai_handling, without counselor and end time, linked
    to that conversation and found by its CallSid from then on, both for
    the user with the caller's phone number, who is created with the role
    user when the number is new and is left as they are otherwise. The same
    event delivered again creates nothing, whatever the storage layer
    does. *)
Theorem first_event_creates_session
        (JSON_parse : string -> result GradeExtractor.value)
        (show_number : Js.number -> string) (default_status : string)
        (env : Webhook.Env) (form : Webhook.Form) (d : Prisma.Db)
        (Hstatus : Webhook.CallStatus form = Some "in-progress")
        (Hspeech : Webhook.SpeechResult form = None)
        (Hnew : Prisma.call_by_sid (Webhook.CallSid form) d = None) :
  exists user conv call d',
    Webhook.handle JSON_parse show_number default_status env
      {| Webhook.formData := Ok form |} [] d
    = (Ok (Webhook.xml_response Webhook.greeting_xml), d') /\
    Prisma.user_phone user = Webhook.From form /\
    match Prisma.user_by_phone (Webhook.From form) d with
    | Some u => user = u /\ Prisma.users d' = Prisma.users d
    | None =>
        Prisma.user_role user = "user" /\
        Prisma.user_status user = default_status /\
        Prisma.users d' = (Prisma.users d ++ [user])%list
    end /\
    Prisma.conversations d' = (Prisma.conversations d ++ [conv])%list /\
    Prisma.conv_userId conv = Prisma.user_id user /\
    Prisma.calls d' = (Prisma.calls d ++ [call])%list /\
    Prisma.call_userId call = Prisma.user_id user /\
    Prisma.twilioCallSid call = Webhook.CallSid form /\
    Prisma.call_status call = "ai_handling" /\
    Prisma.assignedCounselorId call = None /\
    Prisma.endedAt call = None /\
    Prisma.conversationId call = Some (Prisma.conv_id conv) /\
    Prisma.call_by_sid (Webhook.CallSid form) d' = Some call /\
    Prisma.messages d' = Prisma.messages d /\
    (forall env2 fs,
       snd (Webhook.handle JSON_parse show_number default_status env2
              {| Webhook.formData := Ok form |} fs d') = d').
Proof.
  assert (Hagain : forall d1 c,
            Prisma.call_by_sid (Webhook.CallSid form) d1 = Some c ->
            forall env2 fs,
              snd (Webhook.handle JSON_parse show_number default_status env2
                     {| Webhook.formData := Ok form |} fs d1) = d1).
  { intros d1 c Hc env2 fs.
    unfold Webhook.handle, Webhook.POST, Webhook.connect, when, try_catch,
      bind, await, query, exec, ret. simpl.
    rewrite Hstatus, Hspeech. simpl.
    destruct fs as [|[|] fs]; simpl; rewrite ?Hc; reflexivity. }
  set (fresh_user := {| Prisma.user_id := Prisma.next_id d;
                        Prisma.user_phone := Webhook.From form;
                        Prisma.user_role := "user";
                        Prisma.user_status := default_status |}).
  set (user := match Prisma.user_by_phone (Webhook.From form) d with
               | Some u => u
               | None => fresh_user
               end).
  set (d1 := match Prisma.user_by_phone (Webhook.From form) d with
             | Some _ => d
             | None => Prisma.add_user fresh_user d
             end).
  set (conv := {| Prisma.conv_id := Prisma.next_id d1;
                  Prisma.conv_userId := Prisma.user_id user |}).
  set (call := {| Prisma.call_id := S (Prisma.next_id d1);
                  Prisma.call_userId := Prisma.user_id user;
                  Prisma.twilioCallSid := Webhook.CallSid form;
                  Prisma.call_status := "ai_handling";
                  Prisma.assignedCounselorId := None;
                  Prisma.endedAt := None;
                  Prisma.conversationId := Some (Prisma.conv_id conv) |}).
  set (d' := Prisma.add_call call (Prisma.add_conversation conv d1)).
  assert (Hcalls : Prisma.calls d1 = Prisma.calls d).
  { unfold d1. now destruct (Prisma.user_by_phone _ d). }
  assert (Hfound : Prisma.call_by_sid (Webhook.CallSid form) d' = Some call).
  { unfold Prisma.call_by_sid in *. simpl. rewrite Hcalls.
    rewrite (find_snoc_none _ _ _ Hnew). simpl.
    now rewrite String.eqb_refl. }
  exists user, conv, call, d'.
  split; [|split; [|split; [|repeat split]]].
  - unfold Webhook.handle, Webhook.POST, Webhook.connect,
      Webhook.create_session, when, void, try_catch, bind, await, query,
      exec, ret. simpl.
    rewrite Hstatus, Hspeech. simpl. rewrite Hnew. simpl.
    unfold Prisma.upsert_user, d', call, conv, d1, user.
    destruct (Prisma.user_by_phone (Webhook.From form) d); reflexivity.
  - unfold user.
    destruct (Prisma.user_by_phone (Webhook.From form) d) as [u|] eqn:Hu;
      [|reflexivity].
    apply find_some in Hu as [_ Hp]. now apply String.eqb_eq in Hp.
  - unfold user, d', d1.
    destruct (Prisma.user_by_phone (Webhook.From form) d); simpl; auto.
  - unfold d', d1.
    destruct (Prisma.user_by_phone (Webhook.From form) d); reflexivity.
  - simpl. now rewrite Hcalls.
  - exact Hfound.
  - unfold d', d1.
    destruct (Prisma.user_by_phone (Webhook.From form) d); reflexivity.
  - intros env2 fs. eapply Hagain. exact Hfound.
Qed.

Lemma first_event_creates_session_witness :
  exists d',
    Scenario.run Scenario.env
      (Scenario.request None "CA1" "+15550111" (Some "in-progress")) []
      Scenario.db0
    = (Ok (Webhook.xml_response Webhook.greeting_xml), d') /\
    Prisma.call_by_sid "CA1" d' = Some Scenario.call1.
Proof.
  destruct (first_event_creates_session Scenario.JSON_parse
              Scenario.show_number Scenario.default_status Scenario.env
              (Scenario.form None "CA1" "+15550111" (Some "in-progress"))
              Scenario.db0 eq_refl eq_refl eq_refl)
    as [user [conv [call [d' [Hrun _]]]]].
  exists d'. split; [exact Hrun|].
  revert Hrun. vm_compute. intros [= <-]. reflexivity.
Defined.

(** *** A status update that fails half-way *)

(** X19. A terminal status update completes the call and releases
    its counselor in two separate writes. When the first write succeeds
    and the second fails, because the storage layer fails or because the
    counselor's row does not exist, the event is answered with the
    technical-difficulty document, the call is completed all the same, and
    no user has changed. The same event delivered again, whatever the
    storage layer does then, changes nothing, since a completed call is
    skipped: status updates do not release that counselor any more. *)
Theorem failed_release_is_not_retried
        (JSON_parse : string -> result GradeExtractor.value)
        (show_number : Js.number -> string) (default_status : string)
        (env : Webhook.Env) (form : Webhook.Form) (fs : list bool)
        (d : Prisma.Db) (call : Prisma.Call) (k : Prisma.id)
        (Hterminal : Webhook.is_terminal (Webhook.CallStatus form) = true)
        (Hcall : Prisma.call_by_sid (Webhook.CallSid form) d = Some call)
        (Hopen : Prisma.call_status call <> "completed")
        (Hcounselor : Prisma.assignedCounselorId call = Some k)
        (Hfail : (exists rest, fs = false :: false :: true :: rest) \/
                 (fs = [] /\ Prisma.user_by_id k d = None)) :
  exists d',
    Webhook.handle JSON_parse show_number default_status env
      {| Webhook.formData := Ok form |} fs d
    = (Ok (Webhook.xml_response Webhook.errorXml), d') /\
    Prisma.users d' = Prisma.users d /\
    Prisma.call_by_sid (Webhook.CallSid form) d'
    = Some (Prisma.set_call_endedAt (Webhook.now env)
              (Prisma.set_call_status "completed" call)) /\
    (forall env2 fs2,
       snd (Webhook.handle JSON_parse show_number default_status env2
              {| Webhook.formData := Ok form |} fs2 d') = d').
Proof.
  set (done := fun c : Prisma.Call =>
                 Prisma.set_call_endedAt (Webhook.now env)
                   (Prisma.set_call_status "completed" c)).
  set (upd := fun x : Prisma.Call =>
                if Prisma.call_id x =? Prisma.call_id call then done x else x).
  set (d' := Prisma.with_calls d (map upd (Prisma.calls d))).
  assert (Hsid : forall y,
            String.eqb (Prisma.twilioCallSid (upd y)) (Webhook.CallSid form)
            = String.eqb (Prisma.twilioCallSid y) (Webhook.CallSid form)).
  { intros y. unfold upd. destruct (_ =? _); reflexivity. }
  assert (Hfound : Prisma.call_by_sid (Webhook.CallSid form) d'
                   = Some (done call)).
  { unfold Prisma.call_by_sid. simpl.
    rewrite (find_map _ upd _ call Hsid Hcall).
    unfold upd. now rewrite Nat.eqb_refl. }
  destruct (find_in _ _ _ Hcall) as [Hin _].
  destruct (find_exists (fun c => Prisma.call_id c =? Prisma.call_id call)
              _ _ Hin (Nat.eqb_refl _)) as [c0 Hc0].
  assert (Hneq : String.eqb (Prisma.call_status call) "completed" = false).
  { now apply String.eqb_neq. }
  exists d'. split; [|split; [reflexivity|split; [exact Hfound|]]].
  - unfold Webhook.handle, Webhook.POST, Webhook.status_update, try_catch,
      void, bind, await, query, exec, ret. simpl. rewrite Hterminal.
    destruct Hfail as [[rest ->]|[-> Hmissing]]; simpl;
      rewrite Hcall, Hneq; simpl;
      unfold Prisma.update_calls, Prisma.call_by_id; rewrite Hc0; simpl;
      rewrite Hcounselor; simpl; [reflexivity|].
    unfold Prisma.update_users. unfold Prisma.user_by_id in *. simpl.
    now rewrite Hmissing.
  - intros env2 fs2.
    unfold Webhook.handle, Webhook.POST, Webhook.status_update, try_catch,
      bind, await, query, exec, ret. simpl. rewrite Hterminal.
    destruct fs2 as [|[|] fs2]; simpl; rewrite ?Hfound; reflexivity.
Qed.

Lemma failed_release_is_not_retried_witness :
  exists d',
    Scenario.run Scenario.env
      (Scenario.request None "CA1" "+15550111" (Some "completed"))
      [false; false; true] Scenario.db3
    = (Ok (Webhook.xml_response Webhook.errorXml), d') /\
    map Prisma.user_status (Prisma.users d') = ["busy"; "offline"; "offline"] /\
    (forall fs2,
       Scenario.after Scenario.env
         (Scenario.request None "CA1" "+15550111" (Some "completed")) fs2 d'
       = d').
Proof.
  destruct (failed_release_is_not_retried Scenario.JSON_parse
              Scenario.show_number Scenario.default_status Scenario.env
              (Scenario.form None "CA1" "+15550111" (Some "completed"))
              [false; false; true] Scenario.db3 Scenario.call3 0
              eq_refl eq_refl)
    as [d' [Hrun [Husers [_ Hagain]]]].
  - discriminate.
  - reflexivity.
  - left. now exists [].
  - exists d'. split; [exact Hrun|]. split.
    + rewrite Husers. reflexivity.
    + intros fs2. apply Hagain.
Defined.

(** *** Events without an utterance *)

(** X20. An event that is neither a terminal status update nor an
    in-progress event and carries no utterance is answered with the
    greeting, and one whose utterance is white space only with the request
    to repeat, in both cases without a single call to the storage layer, so
    whatever state the storage layer is in. An in-progress event without
    utterance does go to the storage layer first: when that call fails it
    is answered with the technical-difficulty document, not with the
    greeting. *)
Theorem quiet_events_skip_storage
        (JSON_parse : string -> result GradeExtractor.value)
        (show_number : Js.number -> string) (default_status : string)
        (env : Webhook.Env) (form : Webhook.Form) (w : World)
        (Hstatus : Webhook.is_terminal (Webhook.CallStatus form) = false) :
  (Webhook.CallStatus form <> Some "in-progress" ->
   Js.truthy_opt (Webhook.SpeechResult form) = false ->
   Webhook.POST JSON_parse show_number default_status env
     {| Webhook.formData := Ok form |} w
   = (Ok (Webhook.xml_response Webhook.greeting_xml), w)) /\
  (forall speech,
     Webhook.CallStatus form <> Some "in-progress" ->
     Webhook.SpeechResult form = Some speech ->
     speech <> EmptyString -> Js.trim speech = EmptyString ->
     Webhook.POST JSON_parse show_number default_status env
       {| Webhook.formData := Ok form |} w
     = (Ok (Webhook.xml_response Webhook.repeat_xml), w)) /\
  (forall fs,
     Webhook.CallStatus form = Some "in-progress" ->
     Js.truthy_opt (Webhook.SpeechResult form) = false ->
     faults w = true :: fs ->
     Webhook.POST JSON_parse show_number default_status env
       {| Webhook.formData := Ok form |} w
     = (Ok (Webhook.xml_response Webhook.errorXml),
        {| db := db w; faults := fs |})).
Proof.
  assert (Hquiet : Webhook.CallStatus form <> Some "in-progress" ->
            match Webhook.CallStatus form with
            | Some s => String.eqb s "in-progress"
            | None => false
            end = false).
  { intros H. destruct (Webhook.CallStatus form) as [s|]; [|reflexivity].
    apply String.eqb_neq. congruence. }
  split; [|split].
  - intros Hs Hspeech.
    unfold Webhook.POST, when, try_catch, bind, await, ret. simpl.
    rewrite Hstatus, (Hquiet Hs), Hspeech. reflexivity.
  - intros speech Hs Hspeech Hne Hblank.
    unfold Webhook.POST, when, try_catch, bind, await, ret. simpl.
    rewrite Hstatus, (Hquiet Hs), Hspeech. simpl.
    destruct speech as [|c speech]; [congruence|]. simpl.
    fold (Js.trim (String c speech)). rewrite Hblank. reflexivity.
  - intros fs Hs Hspeech Hfaults.
    unfold Webhook.POST, Webhook.connect, when, try_catch, bind, await,
      query, exec, ret. simpl.
    rewrite Hstatus, Hs. simpl. rewrite Hfaults. reflexivity.
Qed.

Lemma quiet_events_skip_storage_witness :
  Webhook.POST Scenario.JSON_parse Scenario.show_number
    Scenario.default_status Scenario.env
    (Scenario.request (Some "   ") "CA1" "+15550111" (Some "ringing"))
    {| db := Scenario.db1; faults := [true; true] |}
  = (Ok (Webhook.xml_response Webhook.repeat_xml),
     {| db := Scenario.db1; faults := [true; true] |}).
Proof.
  apply (quiet_events_skip_storage Scenario.JSON_parse Scenario.show_number
           Scenario.default_status Scenario.env
           (Scenario.form (Some "   ") "CA1" "+15550111" (Some "ringing"))
           {| db := Scenario.db1; faults := [true; true] |} eq_refl
         : _ /\ _ /\ _) with (speech := "   ");
    solve [discriminate | reflexivity].
Defined.

(** *** Statuses *)

Lemma Forall_update {A : Type} (P : A -> Prop) (p : A -> bool) (f : A -> A)
      (l : list A) :
  (forall x, P x -> P (f x)) -> Forall P l ->
  Forall P (map (fun x => if p x then f x else x) l).
Proof.
  intros Hf H. induction H as [|x l Hx Hl IH]; simpl; constructor; auto.
  destruct (p x); auto.
Qed.

Ltac statuses_write :=
  intros ? [? ?]; unfold statuses_known; unfold_write;
  (split;
   first [ assumption
         | apply Forall_update;
           [intros; simpl; tauto | assumption]
         | apply Forall_app; split;
           [assumption | constructor; [simpl; tauto | constructor]] ]).

Lemma statuses_known_save_entries default_status classroomId entries
      savedCount :
  keeps false (statuses_known default_status)
        (Webhook.save_entries classroomId entries savedCount).
Proof.
  revert savedCount. induction entries as [|e rest IH]; intros n; simpl.
  - apply keeps_ret.
  - keeps_walk ltac:(apply IH) statuses_write.
Qed.

Lemma statuses_known_POST JSON_parse show_number default_status env request :
  keeps false (statuses_known default_status)
        (Webhook.POST JSON_parse show_number default_status env request).
Proof.
  keeps_walk ltac:(apply statuses_known_save_entries) statuses_write.
Qed.

(** X21. The handler writes no status of its own invention: when
    every call is in one of the statuses ai_handling, counselor_assigned
    and completed, and every user is available, busy or in the status that
    new users get, this is so again after any event, whatever the services
    and the storage layer do. *)
Theorem handler_keeps_statuses_known
        (JSON_parse : string -> result GradeExtractor.value)
        (show_number : Js.number -> string) (default_status : string)
        (env : Webhook.Env) (request : Webhook.Request)
        (fs : list bool) (d : Prisma.Db)
        (Hknown : statuses_known default_status d) :
  statuses_known default_status
    (snd (Webhook.handle JSON_parse show_number default_status env request
            fs d)).
Proof.
  apply handle_keeps; [apply statuses_known_POST | exact Hknown].
Qed.

Lemma handler_keeps_statuses_known_witness :
  statuses_known Scenario.default_status
    (Scenario.after Scenario.env
       (Scenario.request (Some "I need a therapist") "CA1" "+15550111" None)
       [] Scenario.db1).
Proof.
  apply (handler_keeps_statuses_known Scenario.JSON_parse
           Scenario.show_number Scenario.default_status Scenario.env
           (Scenario.request (Some "I need a therapist") "CA1" "+15550111"
                             None) [] Scenario.db1).
  split; repeat constructor; simpl; tauto.
Defined.

(** *** Only a status update ends a call *)

Lemma ended_before_refl d : ended_before d d.
Proof. intros c Hc _. exists c. auto. Qed.

Lemma ended_before_frame d0 d d' :
  Prisma.calls d' = Prisma.calls d -> ended_before d0 d -> ended_before d0 d'.
Proof. unfold ended_before. now intros ->. Qed.

Lemma ended_before_update d0 d i f :
  (forall c, call_key (f c) = call_key c) ->
  (forall c, Prisma.endedAt (f c) = Prisma.endedAt c) ->
  (forall c, Prisma.call_status (f c) = "completed" ->
             Prisma.call_status c = "completed") ->
  ended_before d0 d -> ended_before d0 (snd (Prisma.update_calls i f d)).
Proof.
  intros Hkey Hend Hstatus H. unfold Prisma.update_calls.
  destruct (Prisma.call_by_id i d); simpl; [|exact H].
  intros y Hy Hc. apply in_map_iff in Hy as [x [<- Hx]].
  destruct (Prisma.call_id x =? i); [|now apply H].
  destruct (H x Hx) as [c0 [Hin [Hk [He Hs]]]].
  { destruct Hc as [Hc|Hc]; [left; now rewrite <- Hend | right; auto]. }
  exists c0. split; [exact Hin|]. rewrite Hkey, Hend. auto.
Qed.

Lemma ended_before_create d0 d user sid conv :
  ended_before d0 d ->
  ended_before d0 (snd (Prisma.create_call user sid "ai_handling" conv d)).
Proof.
  intros H y Hy Hc. simpl in Hy.
  apply in_app_iff in Hy as [Hy|[<-|[]]]; [now apply H|].
  simpl in Hc. destruct Hc; [congruence | discriminate].
Qed.

Ltac ended_write :=
  intros ? ?;
  first [ apply ended_before_update;
          [reflexivity | reflexivity | simpl; intros; first [assumption | discriminate]
          | assumption]
        | apply ended_before_create; assumption
        | unfold_write;
          (eapply ended_before_frame; [|eassumption]; reflexivity) ].

Lemma ended_before_save_entries d0 classroomId entries savedCount :
  keeps false (ended_before d0)
        (Webhook.save_entries classroomId entries savedCount).
Proof.
  revert savedCount. induction entries as [|e rest IH]; intros n; simpl.
  - apply keeps_ret.
  - keeps_walk ltac:(apply IH) ended_write.
Qed.

Lemma ended_before_POST JSON_parse show_number default_status env form d0 :
  Webhook.is_terminal (Webhook.CallStatus form) = false ->
  keeps false (ended_before d0)
        (Webhook.POST JSON_parse show_number default_status env
                      {| Webhook.formData := Ok form |}).
Proof.
  intros Hstatus. unfold Webhook.POST.
  apply keeps_try; [|intros e; apply keeps_ret].
  eapply hoare_bind with (R := fun a d => a = form /\ ended_before d0 d).
  { apply hoare_await. simpl. auto. }
  intros a. apply hoare_assume. intros ->. rewrite Hstatus.
  keeps_walk ltac:(apply ended_before_save_entries) ended_write.
Qed.

(** X22. Only a terminal status update ends a call. After any other
    event, whatever the services and the storage layer do, a call that is
    completed or has an end time is a call that was so before, with the
    same end time. *)
Theorem only_status_updates_end_calls
        (JSON_parse : string -> result GradeExtractor.value)
        (show_number : Js.number -> string) (default_status : string)
        (env : Webhook.Env) (form : Webhook.Form)
        (fs : list bool) (d : Prisma.Db)
        (Hstatus : Webhook.is_terminal (Webhook.CallStatus form) = false) :
  forall c',
    In c' (Prisma.calls
             (snd (Webhook.handle JSON_parse show_number default_status env
                     {| Webhook.formData := Ok form |} fs d))) ->
    Prisma.endedAt c' <> None \/ Prisma.call_status c' = "completed" ->
    exists c,
      In c (Prisma.calls d) /\
      Prisma.call_id c = Prisma.call_id c' /\
      Prisma.twilioCallSid c = Prisma.twilioCallSid c' /\
      Prisma.endedAt c = Prisma.endedAt c' /\
      (Prisma.call_status c' = "completed" ->
       Prisma.call_status c = "completed").
Proof.
  intros c' Hin Hc.
  destruct (handle_keeps JSON_parse show_number default_status env
              {| Webhook.formData := Ok form |} (ended_before d) fs d
              (ended_before_POST _ _ _ _ _ _ Hstatus) (ended_before_refl d)
              c' Hin Hc) as [c [H1 [H2 [H3 H4]]]].
  exists c. split; [exact H1|]. injection H2 as Hid _ Hsid. auto.
Qed.

Lemma only_status_updates_end_calls_witness :
  exists c,
    In c (Prisma.calls Scenario.db4) /\
    Prisma.call_id c = 4 /\ Prisma.endedAt c = Some 7.
Proof.
  destruct (only_status_updates_end_calls Scenario.JSON_parse
              Scenario.show_number Scenario.default_status Scenario.env
              (Scenario.form (Some "hello") "CA1" "+15550111" None) []
              Scenario.db4 eq_refl Scenario.call4)
    as [c [H1 [H2 [_ [H4 _]]]]].
  - vm_compute. left. reflexivity.
  - right. reflexivity.
  - exists c. auto.
Defined.

(** *** A transfer is announced after it is recorded *)

Ltac escalations_write :=
  intros ? ?; unfold_write; assumption.

Lemma escalations_save_entries l classroomId entries savedCount :
  keeps false (fun d => Prisma.escalations d = l)
        (Webhook.save_entries classroomId entries savedCount).
Proof.
  revert savedCount. induction entries as [|e rest IH]; intros n; simpl.
  - apply keeps_ret.
  - keeps_walk ltac:(apply IH) escalations_write.
Qed.

(** A block that writes no escalation, with the state at a throw left
    open. *)
Ltac no_escalation :=
  apply keeps_open;
  keeps_walk ltac:(apply escalations_save_entries) escalations_write.

Section Transfer.
Context (JSON_parse : string -> result GradeExtractor.value)
        (show_number : Js.number -> string)
        (default_status : string)
        (env : Webhook.Env) (d0 : Prisma.Db).

Lemma announced_escalate call aiResult :
  Cohere.escalationReason aiResult = "crisis" \/
  Cohere.escalationReason aiResult = "requested_professional" ->
  hoare false (fun d => Prisma.escalations d = Prisma.escalations d0)
    (Webhook.escalate call aiResult) (announced d0) anything.
Proof.
  intros Hreason. unfold Webhook.escalate.
  eapply hoare_bind
    with (R := fun _ d => Prisma.escalations d = Prisma.escalations d0);
    [no_escalation|].
  intros summary.
  eapply hoare_bind
    with (R := fun found d =>
                 (forall u, found = Some u ->
                            Prisma.user_role u = "counselor") /\
                 (forall u, found = Some u -> In u (Prisma.users d)) /\
                 Prisma.escalations d = Prisma.escalations d0).
  { apply hoare_query; [intros; exact I|]. intros d H.
    split; [|split; [|exact H]]; intros u Hu;
      apply user_first_found in Hu as [Hin Ha]; [|exact Hin].
    apply andb_true_iff in Ha as [Hr _]. now apply String.eqb_eq in Hr. }
  intros found. apply hoare_assume. intros Hrole.
  destruct found as [u|];
    [|apply hoare_ret; intros; right; now left].
  specialize (Hrole u eq_refl).
  eapply hoare_bind
    with (R := fun _ d =>
                 In u (Prisma.users d) /\
                 exists e,
                   Prisma.escalations d = (Prisma.escalations d0 ++ [e])%list /\
                   Prisma.esc_callId e = Prisma.call_id call /\
                   Prisma.esc_counselorId e = Prisma.user_id u /\
                   escalation_notes (Prisma.esc_notes e)).
  { apply hoare_exec; [intros; exact I|]. intros d [Hin H]. simpl.
    split; [exact (Hin u eq_refl)|].
    eexists. rewrite H. split; [reflexivity|]. split; [reflexivity|].
    split; [reflexivity|]. simpl.
    exists (Cohere.escalationReason aiResult), summary. auto. }
  intros _.
  eapply hoare_bind
    with (R := fun _ d =>
                 In u (Prisma.users d) /\
                 exists e c,
                   Prisma.escalations d = (Prisma.escalations d0 ++ [e])%list /\
                   Prisma.esc_counselorId e = Prisma.user_id u /\
                   escalation_notes (Prisma.esc_notes e) /\
                   In c (Prisma.calls d) /\
                   Prisma.call_id c = Prisma.esc_callId e /\
                   forall c, In c (Prisma.calls d) ->
                     Prisma.call_id c = Prisma.esc_callId e ->
                     Prisma.call_status c = "counselor_assigned" /\
                     Prisma.assignedCounselorId c = Some (Prisma.user_id u)).
  { apply hoare_exec; [intros; exact I|].
    intros d [Hin [e [He [Hc [Hu Hn]]]]].
    unfold Prisma.update_calls.
    destruct (Prisma.call_by_id _ d) as [c0|] eqn:Hfound; [|exact I]. simpl.
    apply find_in in Hfound as [Hc0 Hid0]. apply Nat.eqb_eq in Hid0.
    split; [exact Hin|].
    exists e,
      (Prisma.set_call_counselor (Prisma.user_id u)
         (Prisma.set_call_status "counselor_assigned" c0)).
    split; [exact He|]. split; [exact Hu|]. split; [exact Hn|].
    split; [|split; [simpl; congruence|]].
    - apply in_map_iff. exists c0. split; [|exact Hc0].
      apply Nat.eqb_eq in Hid0. now rewrite Hid0.
    - intros y Hy Hid. apply in_map_iff in Hy as [x [<- Hx]].
      destruct (Prisma.call_id x =? Prisma.call_id call) eqn:E.
      + split; reflexivity.
      + apply Nat.eqb_neq in E. congruence. }
  intros _.
  eapply hoare_bind
    with (R := fun _ d => transfer_recorded d0 (Prisma.user_phone u) d).
  { apply hoare_exec; [intros; exact I|].
    intros d [Hin [e [c [He [Hu [Hn [Hc [Hcid Hrows]]]]]]]].
    unfold Prisma.update_users.
    destruct (Prisma.user_by_id _ d); [|exact I]. simpl.
    exists e, (Prisma.set_user_status "busy" u), c.
    split; [exact He|]. split.
    { apply in_map_iff. exists u. split; [|exact Hin].
      now rewrite Nat.eqb_refl. }
    split; [reflexivity|]. split; [exact Hrole|].
    split; [exact Hu|]. split; [exact Hc|]. split; [exact Hcid|].
    split; [exact Hn|]. split; [exact Hrows|].
    intros x Hx Hid. apply in_map_iff in Hx as [y [<- Hy]].
    destruct (Prisma.user_id y =? Prisma.user_id u) eqn:E.
    - reflexivity.
    - apply Nat.eqb_neq in E. simpl in Hid. congruence. }
  intros _. apply hoare_ret. intros d H. right. right.
  exists (Prisma.user_phone u). split; [reflexivity | exact H].
Qed.

Lemma classify_reason input flag reason :
  (flag, reason) = Lexicon.classify input \/ (flag, reason) = (false, EmptyString) ->
  flag = true -> reason = "crisis" \/ reason = "requested_professional".
Proof.
  unfold Lexicon.classify. intros [H|H] ->.
  - destruct (Lexicon.matches Lexicon.crisis input);
      [injection H as ->; now left|].
    destruct (Lexicon.matches Lexicon.professional input);
      [injection H as ->; now right | discriminate].
  - discriminate.
Qed.

Lemma announced_teacher_turn speech call :
  hoare false (fun d => Prisma.escalations d = Prisma.escalations d0)
    (Webhook.teacher_turn JSON_parse show_number env speech call)
    (fun returned d =>
       (forall r, returned = Some r -> ordinary (Webhook.body r)) /\
       Prisma.escalations d = Prisma.escalations d0)
    anything.
Proof.
  eapply hoare_conseq
    with (P := fun d => anything d /\
                        Prisma.escalations d = Prisma.escalations d0)
         (E := fun d => anything d /\ anything d).
  - apply hoare_conj.
    + apply (teacher_turn_verbatim JSON_parse show_number env anything
               anything).
    + apply keeps_open.
      keeps_walk ltac:(apply escalations_save_entries) escalations_write.
  - intros d H. split; [exact I | exact H].
  - intros returned d [H1 H2]. split; [|exact H2].
    intros r Hr. destruct (H1 r Hr) as [n [p ->]]. apply o_teacher.
  - intros; exact I.
Qed.

Lemma announced_speech_turn speech callSid from :
  hoare false (fun d => Prisma.escalations d = Prisma.escalations d0)
    (Webhook.speech_turn JSON_parse show_number default_status env
                         speech callSid from)
    (announced d0) anything.
Proof.
  unfold Webhook.speech_turn.
  eapply hoare_try with (E' := anything);
    [|intros e; apply hoare_ret; intros; left; apply o_fallback].
  eapply hoare_bind
    with (R := fun _ d => Prisma.escalations d = Prisma.escalations d0);
    [no_escalation|].
  intros call.
  eapply hoare_bind
    with (R := fun _ d => Prisma.escalations d = Prisma.escalations d0);
    [no_escalation|].
  intros call'.
  eapply hoare_bind; [apply announced_teacher_turn|].
  intros returned. apply hoare_assume. intros Hreturned.
  destruct returned as [r|].
  { apply hoare_ret. intros. left. now apply Hreturned. }
  eapply hoare_bind
    with (R := fun aiResult d =>
                 (Cohere.needsEscalation aiResult = true ->
                  Cohere.escalationReason aiResult = "crisis" \/
                  Cohere.escalationReason aiResult = "requested_professional")
                 /\ Prisma.escalations d = Prisma.escalations d0).
  { eapply hoare_conseq
      with (P := fun d => anything d /\
                          Prisma.escalations d = Prisma.escalations d0)
           (E := fun d => anything d /\ anything d).
    - apply hoare_conj; [apply getAIResponse_flags | no_escalation].
    - intros d H. split; [exact I | exact H].
    - intros aiResult d [H1 H2]. split; [|exact H2].
      intros Hn. exact (classify_reason _ _ _ H1 Hn).
    - intros; exact I. }
  intros aiResult. apply hoare_assume. intros Hreason.
  destruct (Cohere.needsEscalation aiResult).
  - apply announced_escalate. now apply Hreason.
  - apply hoare_ret. intros. left. apply o_conversation.
Qed.

Lemma announced_POST request :
  hoare false (fun d => Prisma.escalations d = Prisma.escalations d0)
    (Webhook.POST JSON_parse show_number default_status env request)
    (announced d0) anything.
Proof.
  unfold Webhook.POST.
  eapply hoare_try with (E' := anything);
    [|intros e; apply hoare_ret; intros; left; apply o_error].
  eapply hoare_bind
    with (R := fun _ d => Prisma.escalations d = Prisma.escalations d0).
  { apply hoare_await. intros d H. now destruct (Webhook.formData request). }
  intros form. destruct (Webhook.is_terminal _).
  - unfold Webhook.status_update. hskip. hskip.
    apply hoare_ret. intros. left. apply o_empty.
  - eapply hoare_bind
      with (R := fun _ d => Prisma.escalations d = Prisma.escalations d0);
      [no_escalation|].
    intros _. destruct (negb _).
    { apply hoare_ret. intros. left. apply o_greeting. }
    destruct (Js.truthy _).
    + apply announced_speech_turn.
    + apply hoare_ret. intros. left. apply o_repeat.
Qed.
End Transfer.

Lemma append_inj_l (a x y : string) : (a ++ x = a ++ y)%string -> x = y.
Proof.
  induction a as [|c a IH]; simpl; [auto|]. intros [= H]. now apply IH.
Qed.

Lemma append_inj_r (x y b : string) : (x ++ b = y ++ b)%string -> x = y.
Proof.
  intros H. apply (f_equal Js.chars) in H. rewrite !chars_append in H.
  apply app_inv_tail in H. apply (f_equal Js.str) in H.
  now rewrite !str_chars in H.
Qed.

Lemma transfer_xml_inj (p q : string) :
  Webhook.transfer_xml p = Webhook.transfer_xml q -> p = q.
Proof.
  unfold Webhook.transfer_xml. intros H.
  apply append_inj_l in H. now apply append_inj_r in H.
Qed.

(** X23. A caller is told that the call is being transferred only
    after the transfer is on record, whatever the services and the storage
    layer do: when the answer is the transfer document, the event has added
    exactly one escalation; the counselor it names is a stored user with
    the role counselor, in the status busy, whose phone number is the one
    dialled; the call it names is a stored call; its notes give the reason,
    crisis or requested_professional, before the summary; every row of the
    escalated call is in the status counselor_assigned and assigned to that
    counselor; and every row of that counselor is busy. *)
Theorem transfer_is_recorded_before_announced
        (JSON_parse : string -> result GradeExtractor.value)
        (show_number : Js.number -> string) (default_status : string)
        (env : Webhook.Env) (request : Webhook.Request)
        (fs : list bool) (d d' : Prisma.Db) (r : Webhook.Response)
        (phone : string)
        (Hrun : Webhook.handle JSON_parse show_number default_status env
                  request fs d = (Ok r, d'))
        (Hbody : Webhook.body r = Webhook.transfer_xml phone) :
  exists e u c,
    Prisma.escalations d' = (Prisma.escalations d ++ [e])%list /\
    In u (Prisma.users d') /\
    Prisma.user_id u = Prisma.esc_counselorId e /\
    Prisma.user_phone u = phone /\
    Prisma.user_role u = "counselor" /\
    Prisma.user_status u = "busy" /\
    In c (Prisma.calls d') /\
    Prisma.call_id c = Prisma.esc_callId e /\
    Prisma.call_status c = "counselor_assigned" /\
    Prisma.assignedCounselorId c = Some (Prisma.user_id u) /\
    (exists reason summary,
       (reason = "crisis" \/ reason = "requested_professional") /\
       Prisma.esc_notes e
       = ("Reason: " ++ reason ++ Webhook.nl ++ "Summary: " ++ summary)%string)
    /\
    (forall c, In c (Prisma.calls d') ->
               Prisma.call_id c = Prisma.esc_callId e ->
               Prisma.call_status c = "counselor_assigned" /\
               Prisma.assignedCounselorId c = Some (Prisma.user_id u)) /\
    (forall x, In x (Prisma.users d') ->
               Prisma.user_id x = Prisma.user_id u ->
               Prisma.user_status x = "busy").
Proof.
  pose proof (announced_POST JSON_parse show_number default_status env d
                request {| db := d; faults := fs |}) as H.
  unfold Webhook.handle in Hrun.
  destruct (Webhook.POST _ _ _ _ _ _) as [[r0|e0] w']; [|discriminate].
  injection Hrun as <- <-.
  destruct H as [[Ho|[Hu|[phone' [Hp Hrec]]]] _];
    [discriminate | reflexivity | | |].
  - exfalso. apply (ordinary_not_escalation _ Ho). left. now exists phone.
  - exfalso. rewrite Hu in Hbody.
    apply (f_equal (ending 60)) in Hbody.
    rewrite transfer_ending in Hbody. vm_compute in Hbody. discriminate.
  - rewrite Hp in Hbody. apply transfer_xml_inj in Hbody as ->.
    destruct Hrec
      as [e [u [c [He [Hin [Hph [Hrole [Hid [Hc [Hcid [Hn [Hrows Hbusy]]]]]]]]]]]].
    exists e, u, c.
    split; [exact He|]. split; [exact Hin|]. split; [now symmetry|].
    split; [exact Hph|]. split; [exact Hrole|].
    split; [exact (Hbusy u Hin eq_refl)|].
    split; [exact Hc|]. split; [exact Hcid|].
    split; [exact (proj1 (Hrows c Hc Hcid))|].
    split; [exact (proj2 (Hrows c Hc Hcid))|].
    split; [exact Hn|]. split; [exact Hrows | exact Hbusy].
Qed.

Lemma transfer_is_recorded_before_announced_witness :
  exists e u c,
    Prisma.escalations
      (Scenario.after Scenario.env
         (Scenario.request (Some "I want a counselor") "CA1" "+15550111"
                           None) [] Scenario.db1) = [e] /\
    Prisma.esc_callId e = 4 /\
    u = Prisma.set_user_status "busy" Scenario.counselor /\
    c = Scenario.call3.
Proof.
  destruct (transfer_is_recorded_before_announced Scenario.JSON_parse
              Scenario.show_number Scenario.default_status Scenario.env
              (Scenario.request (Some "I want a counselor") "CA1"
                                "+15550111" None) [] Scenario.db1
              (Scenario.after Scenario.env
                 (Scenario.request (Some "I want a counselor") "CA1"
                                   "+15550111" None) [] Scenario.db1)
              (Webhook.xml_response (Webhook.transfer_xml "+15550100"))
              "+15550100")
    as [e [u [c [He [Hu [_ [Hphone [_ [_ [Hc _]]]]]]]]]].
  - vm_compute. reflexivity.
  - reflexivity.
  - exists e, u, c. split; [exact He|].
    split; [revert He; vm_compute; intros [= <-]; reflexivity|].
    split.
    + revert Hu Hphone. vm_compute.
      intros [<-|[<-|[<-|[]]]] Hp; solve [reflexivity | discriminate Hp].
    + revert Hc. vm_compute. intros [<-|[]]. reflexivity.
Defined.

(** *** Every utterance reaches the transcript *)

Lemma find_app_some {A : Type} (p : A -> bool) (l l' : list A) :
  find p l <> None -> find p (l ++ l')%list <> None.
Proof.
  induction l as [|x l IH]; simpl; [congruence|].
  destruct (p x); [discriminate | exact IH].
Qed.

Lemma transcribed_frame sid speech conv d d' :
  Prisma.calls d' = Prisma.calls d ->
  grown (Prisma.messages d) (Prisma.messages d') ->
  transcribed_in sid speech conv d -> transcribed_in sid speech conv d'.
Proof.
  intros Hc [a Hm] [call [H1 [H2 H3]]]. exists call.
  unfold Prisma.call_by_sid, Prisma.message_first in *.
  rewrite Hc, Hm. split; [exact H1|]. split; [exact H2|].
  now apply find_app_some.
Qed.

Lemma transcribed_update_calls sid speech conv d i f :
  (forall c, Prisma.twilioCallSid (f c) = Prisma.twilioCallSid c) ->
  (forall c, Prisma.conversationId (f c) = Prisma.conversationId c) ->
  transcribed_in sid speech conv d ->
  transcribed_in sid speech conv (snd (Prisma.update_calls i f d)).
Proof.
  intros Hsid Hconv [call [H1 [H2 H3]]]. unfold Prisma.update_calls.
  destruct (Prisma.call_by_id i d); simpl; [|now exists call].
  set (upd := fun x => if Prisma.call_id x =? i then f x else x).
  exists (upd call). split; [|split].
  - unfold Prisma.call_by_sid in *. simpl. apply find_map; [|exact H1].
    intros y. unfold upd. destruct (_ =? _); [|reflexivity].
    now rewrite Hsid.
  - unfold upd. destruct (_ =? _); [|exact H2]. now rewrite Hconv.
  - exact H3.
Qed.

Ltac transcribed_write :=
  intros ? ?;
  first [ apply transcribed_update_calls; [reflexivity | reflexivity | assumption]
        | unfold_write;
          (eapply transcribed_frame; [| |eassumption];
           [reflexivity | first [apply grown_refl | eexists; reflexivity]]) ].

Lemma transcribed_save_entries healthy sid speech conv classroomId entries
      savedCount :
  keeps healthy (transcribed_in sid speech conv)
        (Webhook.save_entries classroomId entries savedCount).
Proof.
  revert savedCount. induction entries as [|e rest IH]; intros n; simpl.
  - apply keeps_ret.
  - keeps_walk ltac:(apply IH) transcribed_write.
Qed.

Lemma hoare_exists {A X : Type} healthy (P : X -> Prisma.Db -> Prop)
      (m : M A) (Q : A -> Prisma.Db -> Prop) (E : Prisma.Db -> Prop) :
  (forall x, hoare healthy (P x) m Q E) ->
  hoare healthy (fun d => exists x, P x d) m Q E.
Proof. intros H w Hw [x Hx]. exact (H x w Hw Hx). Qed.

Section Transcript.
Context (JSON_parse : string -> result GradeExtractor.value)
        (show_number : Js.number -> string)
        (default_status : string)
        (env : Webhook.Env) (sid speech : string).

Lemma transcribed_teacher_turn healthy conv text call :
  Prisma.conversationId call = Some conv ->
  keeps healthy (transcribed_in sid speech conv)
        (Webhook.teacher_turn JSON_parse show_number env text call).
Proof.
  intros Hconv. unfold Webhook.teacher_turn, Webhook.save_confirmation.
  rewrite Hconv.
  keeps_walk ltac:(apply transcribed_save_entries) transcribed_write.
Qed.

Lemma transcribed_escalate healthy conv call aiResult :
  keeps healthy (transcribed_in sid speech conv)
        (Webhook.escalate call aiResult).
Proof. keeps_walk fail transcribed_write. Qed.

Lemma transcribed_getAIResponse healthy conv input callId :
  keeps healthy (transcribed_in sid speech conv)
        (Cohere.getAIResponse (Webhook.chat env) input callId).
Proof. keeps_walk fail transcribed_write. Qed.

Lemma resolve_call_finds from :
  hoare true anything
    (Webhook.resolve_call default_status sid from)
    (fun call d => Prisma.call_by_sid sid d = Some call)
    (fun _ => False).
Proof.
  unfold Webhook.resolve_call.
  eapply hoare_bind
    with (R := fun existing d => existing = Prisma.call_by_sid sid d).
  { apply hoare_query; [discriminate | reflexivity]. }
  intros [call|].
  { apply hoare_ret. intros d H. now symmetry. }
  unfold Webhook.create_session.
  eapply hoare_bind
    with (R := fun _ d => None = Prisma.call_by_sid sid d).
  { apply hoare_exec; [discriminate|]. intros d H.
    unfold Prisma.upsert_user. destruct (Prisma.user_by_phone _ _); exact H. }
  intros user.
  eapply hoare_bind
    with (R := fun _ d => None = Prisma.call_by_sid sid d).
  { apply hoare_exec; [discriminate|]. intros d H. exact H. }
  intros conversation.
  apply hoare_exec; [discriminate|]. intros d H. simpl.
  unfold Prisma.call_by_sid in *. simpl.
  rewrite (find_snoc_none _ _ _ (eq_sym H)). simpl.
  now rewrite String.eqb_refl.
Qed.

Lemma ensure_conversation_links call :
  hoare true (fun d => Prisma.call_by_sid sid d = Some call)
    (Webhook.ensure_conversation call)
    (fun call' d =>
       exists row conv,
         Prisma.call_by_sid sid d = Some row /\
         Prisma.conversationId row = Some conv /\
         Prisma.conversationId call' = Some conv)
    (fun _ => False).
Proof.
  unfold Webhook.ensure_conversation.
  destruct (Prisma.conversationId call) as [conv|] eqn:Hconv.
  { apply hoare_ret. intros d H. exists call, conv. auto. }
  eapply hoare_bind
    with (R := fun conversation d => Prisma.call_by_sid sid d = Some call).
  { apply hoare_exec; [discriminate|]. intros d H. exact H. }
  intros conversation.
  apply hoare_exec; [discriminate|]. intros d H.
  destruct (find_in _ _ _ H) as [Hin Hsid].
  destruct (find_exists (fun c => Prisma.call_id c =? Prisma.call_id call)
              _ _ Hin (Nat.eqb_refl _)) as [c0 Hc0].
  unfold Prisma.update_calls, Prisma.call_by_id. rewrite Hc0.
  set (upd := fun x : Prisma.Call =>
                if Prisma.call_id x =? Prisma.call_id call
                then Prisma.set_call_conversation
                       (Prisma.conv_id conversation) x
                else x).
  exists (upd call), (Prisma.conv_id conversation). split; [|split].
  - unfold Prisma.call_by_sid in *. simpl. apply find_map; [|exact H].
    intros y. unfold upd. destruct (_ =? _); reflexivity.
  - unfold upd. now rewrite Nat.eqb_refl.
  - reflexivity.
Qed.

Lemma save_transcription_stores call conv :
  Prisma.conversationId call = Some conv ->
  hoare true
    (fun d => exists row,
                Prisma.call_by_sid sid d = Some row /\
                Prisma.conversationId row = Some conv)
    (Webhook.save_transcription speech call)
    (fun _ => transcribed_in sid speech conv)
    (fun _ => False).
Proof.
  intros Hconv. unfold Webhook.save_transcription. rewrite Hconv.
  eapply hoare_bind
    with (R := fun existing d =>
                 existing = Prisma.message_first conv "user" speech d /\
                 exists row,
                   Prisma.call_by_sid sid d = Some row /\
                   Prisma.conversationId row = Some conv).
  { apply hoare_query; [discriminate | auto]. }
  intros [m|].
  - apply hoare_ret. intros d [Hm [row [H1 H2]]]. exists row.
    split; [exact H1|]. split; [exact H2|]. rewrite <- Hm. discriminate.
  - apply hoare_void. apply hoare_exec; [discriminate|].
    intros d [Hm [row [H1 H2]]]. simpl. exists row.
    split; [exact H1|]. split; [exact H2|].
    unfold Prisma.message_first in *. simpl.
    rewrite (find_snoc_none _ _ _ (eq_sym Hm)).
    unfold Prisma.is_message. simpl.
    now rewrite Nat.eqb_refl, String.eqb_refl.
Qed.

Lemma persist_transcription_stores call :
  hoare true (fun d => Prisma.call_by_sid sid d = Some call)
    (Webhook.persist_transcription speech call)
    (fun call' d =>
       exists conv,
         Prisma.conversationId call' = Some conv /\
         transcribed_in sid speech conv d)
    (fun _ => False).
Proof.
  unfold Webhook.persist_transcription.
  eapply hoare_bind
    with (R := fun ensured d =>
                 exists call' conv,
                   (ensured = Some call' /\
                    Prisma.conversationId call' = Some conv) /\
                   exists row,
                     Prisma.call_by_sid sid d = Some row /\
                     Prisma.conversationId row = Some conv).
  { eapply hoare_try with (E' := fun _ => False); [|intros e w _ []].
    eapply hoare_bind; [apply ensure_conversation_links|].
    intros c. apply hoare_ret. intros d [row [conv [H1 [H2 H3]]]].
    exists c, conv. split; [auto | eauto]. }
  intros ensured. apply hoare_exists. intros call'.
  apply hoare_exists. intros conv. apply hoare_assume. intros [-> Hconv].
  eapply hoare_bind with (R := fun _ => transcribed_in sid speech conv).
  - eapply hoare_try with (E' := fun _ => False); [|intros e w0 _ []].
    now apply save_transcription_stores.
  - intros _. apply hoare_ret. intros d H. exists conv. auto.
Qed.

Lemma speech_turn_transcribes from :
  hoare true anything
    (Webhook.speech_turn JSON_parse show_number default_status env
                         speech sid from)
    (fun _ => transcribed sid speech) (fun _ => False).
Proof.
  unfold Webhook.speech_turn.
  eapply hoare_try with (E' := transcribed sid speech);
    [|intros e; apply hoare_ret; auto].
  eapply hoare_bind.
  { eapply hoare_conseq; [apply resolve_call_finds | auto | | intros d []].
    intros call d H. exact H. }
  intros call.
  eapply hoare_bind
    with (R := fun call' d =>
                 exists conv,
                   Prisma.conversationId call' = Some conv /\
                   transcribed_in sid speech conv d).
  { eapply hoare_conseq;
      [apply persist_transcription_stores | auto | auto | intros d []]. }
  intros call'. apply hoare_exists. intros conv.
  apply hoare_assume. intros Hconv.
  assert (Hout : forall (A : Type) (m : M A),
            keeps true (transcribed_in sid speech conv) m ->
            hoare true (transcribed_in sid speech conv) m
                  (fun _ => transcribed_in sid speech conv)
                  (transcribed sid speech)).
  { intros A m Hm. apply keeps_weaken; [exact Hm|].
    intros d H. now exists conv. }
  eapply hoare_bind with (R := fun _ => transcribed_in sid speech conv).
  { apply Hout. now apply transcribed_teacher_turn. }
  intros [r|].
  { apply hoare_ret. intros d H. now exists conv. }
  eapply hoare_bind with (R := fun _ => transcribed_in sid speech conv).
  { apply Hout. apply transcribed_getAIResponse. }
  intros aiResult. destruct (Cohere.needsEscalation aiResult).
  - eapply hoare_conseq with (Q := fun _ => transcribed_in sid speech conv);
      [apply Hout; apply transcribed_escalate | auto | | auto].
    intros r d H. now exists conv.
  - apply hoare_ret. intros d H. now exists conv.
Qed.
End Transcript.

Lemma connect_never_throws default_status callSid from :
  hoare true anything (Webhook.connect default_status callSid from)
        (fun _ => anything) (fun _ => False).
Proof.
  unfold Webhook.connect, Webhook.create_session.
  eapply hoare_bind with (R := fun _ => anything).
  { apply hoare_query; [discriminate | auto]. }
  intros [c|]; [apply hoare_ret; auto|].
  apply hoare_void.
  eapply hoare_bind with (R := fun _ => anything).
  { apply hoare_exec; [discriminate|]. intros d _.
    unfold Prisma.upsert_user. destruct (Prisma.user_by_phone _ _); exact I. }
  intros user.
  eapply hoare_bind with (R := fun _ => anything).
  { apply hoare_exec; [discriminate|]. intros d _. exact I. }
  intros conversation.
  apply hoare_exec; [discriminate|]. intros d _. exact I.
Qed.

(** X24. With a working storage layer, every event that carries
    an utterance (and is no terminal status update) is answered, and
    afterwards the call of its CallSid exists, created by this event if it
    was unknown, and is linked to a conversation that holds the utterance
    as a user message, whoever the caller is and whatever the two services
    answer. *)
Theorem utterance_reaches_transcript
        (JSON_parse : string -> result GradeExtractor.value)
        (show_number : Js.number -> string) (default_status : string)
        (env : Webhook.Env) (form : Webhook.Form) (speech : string)
        (d : Prisma.Db)
        (Hspeech : Webhook.SpeechResult form = Some speech)
        (Hnonempty : Js.truthy (Js.trim speech) = true)
        (Hstatus : Webhook.is_terminal (Webhook.CallStatus form) = false) :
  exists r d' call conv,
    Webhook.handle JSON_parse show_number default_status env
      {| Webhook.formData := Ok form |} [] d = (Ok r, d') /\
    Prisma.call_by_sid (Webhook.CallSid form) d' = Some call /\
    Prisma.conversationId call = Some conv /\
    Prisma.message_first conv "user" speech d' <> None.
Proof.
  assert (Hs : Js.truthy speech = true).
  { destruct speech; [discriminate | reflexivity]. }
  assert (H : hoare true anything
                (Webhook.POST JSON_parse show_number default_status env
                              {| Webhook.formData := Ok form |})
                (fun _ => transcribed (Webhook.CallSid form) speech)
                (fun _ => False)).
  { unfold Webhook.POST.
    eapply hoare_try with (E' := fun _ => False); [|intros e w _ []].
    eapply hoare_bind with (R := fun a d => a = form /\ anything d).
    { apply hoare_await. simpl. auto. }
    intros a. apply hoare_assume. intros ->. rewrite Hstatus, Hspeech.
    eapply hoare_bind with (R := fun _ => anything).
    { unfold when. destruct (match Webhook.CallStatus form with
                             | Some s => String.eqb s "in-progress"
                             | None => false
                             end);
        [apply connect_never_throws | apply hoare_ret; auto]. }
    intros _.
    assert (Hor : Js.or_else (Some speech) EmptyString = speech).
    { unfold Js.or_else. now rewrite Hs. }
    rewrite Hor. unfold Js.truthy_opt. rewrite Hs, Hnonempty. simpl.
    apply speech_turn_transcribes. }
  specialize (H {| db := d; faults := [] |} (fun _ => eq_refl) I).
  unfold Webhook.handle.
  destruct (Webhook.POST _ _ _ _ _ _) as [[r|e] w']; [|now destruct H].
  destruct H as [[conv [call [H1 [H2 H3]]]] _].
  exists r, (db w'), call, conv. auto.
Qed.

Lemma utterance_reaches_transcript_witness :
  exists call conv,
    Prisma.call_by_sid "CA7"
      (Scenario.after Scenario.env_silent
         (Scenario.request (Some "hello") "CA7" "+15550177" None) []
         Scenario.db0) = Some call /\
    Prisma.conversationId call = Some conv /\
    Prisma.message_first conv "user" "hello"
      (Scenario.after Scenario.env_silent
         (Scenario.request (Some "hello") "CA7" "+15550177" None) []
         Scenario.db0) <> None.
Proof.
  destruct (utterance_reaches_transcript Scenario.JSON_parse
              Scenario.show_number Scenario.default_status
              Scenario.env_silent
              (Scenario.form (Some "hello") "CA7" "+15550177" None) "hello"
              Scenario.db0 eq_refl eq_refl eq_refl)
    as [r [d' [call [conv [Hrun H]]]]].
  exists call, conv. unfold Scenario.after, Scenario.run, Scenario.request.
  rewrite Hrun. exact H.
Defined.

(** *** The seed script *)

(** X25. The seed script creates the teacher account at most once and
    never touches an existing user. When it exits with code 1 it has
    written nothing. When it exits with code 0, a user with the configured
    phone number exists: the one that existed before, left as it was
    whatever its role, or else a new user with the role teacher, added as
    the only change. Run again after that, whatever the storage layer does,
    it changes nothing. *)
Theorem seed_creates_teacher_once
        (default_status : string) (env : Seed.Environment) (w : World) :
  let phone := Seed.phone env in
  let code := fst (Seed.run default_status env w) in
  let d' := db (snd (Seed.run default_status env w)) in
  (code = 1 -> d' = db w) /\
  (code = 0 ->
   match Prisma.user_by_phone phone (db w) with
   | Some existing =>
       d' = db w /\ Prisma.user_by_phone phone d' = Some existing
   | None =>
       d' = Prisma.add_user
              {| Prisma.user_id := Prisma.next_id (db w);
                 Prisma.user_phone := phone;
                 Prisma.user_role := "teacher";
                 Prisma.user_status := default_status |} (db w) /\
       exists u, Prisma.user_by_phone phone d' = Some u /\
                 Prisma.user_role u = "teacher"
   end) /\
  (code = 0 ->
   forall fs,
     db (snd (Seed.run default_status env {| db := d'; faults := fs |}))
     = d').
Proof.
  cbv zeta. destruct w as [d fs]. simpl.
  assert (Hagain : forall d1 u,
            Prisma.user_by_phone (Seed.phone env) d1 = Some u ->
            forall fs1,
              db (snd (Seed.run default_status env
                         {| db := d1; faults := fs1 |})) = d1).
  { intros d1 u Hu fs1.
    unfold Seed.run, Seed.main, bind, query, exec, ret. simpl.
    destruct fs1 as [|[|] fs1]; simpl; rewrite ?Hu; reflexivity. }
  assert (Hnew : Prisma.user_by_phone (Seed.phone env) d = None ->
            Prisma.user_by_phone (Seed.phone env)
              (Prisma.add_user
                 {| Prisma.user_id := Prisma.next_id d;
                    Prisma.user_phone := Seed.phone env;
                    Prisma.user_role := "teacher";
                    Prisma.user_status := default_status |} d)
            = Some {| Prisma.user_id := Prisma.next_id d;
                      Prisma.user_phone := Seed.phone env;
                      Prisma.user_role := "teacher";
                      Prisma.user_status := default_status |}).
  { intros Hnone. unfold Prisma.user_by_phone in *. simpl.
    rewrite (find_snoc_none _ _ _ Hnone). simpl.
    now rewrite String.eqb_refl. }
  unfold Seed.run, Seed.main, bind, query, exec, ret. simpl.
  destruct (Prisma.user_by_phone (Seed.phone env) d) as [u|] eqn:Hu.
  - destruct fs as [|[|] fs]; simpl;
      (split; [intros Hc; solve [discriminate Hc | reflexivity]|]);
      (split; [intros Hc; solve [discriminate Hc | auto]|]);
      intros Hc; solve [discriminate Hc | eapply Hagain; exact Hu].
  - destruct fs as [|[|] [|[|] fs]]; simpl;
      (split; [intros Hc; solve [discriminate Hc | reflexivity]|]);
      (split; [intros Hc;
               solve [ discriminate Hc
                     | split; [reflexivity|];
                       eexists; split; [apply Hnew; reflexivity
                                       | reflexivity] ]|]);
      intros Hc;
      solve [discriminate Hc | eapply Hagain; apply Hnew; reflexivity].
Qed.

(** *** The language of the reply *)

Lemma starts_with_prefix (a b s : list ascii) :
  Js.starts_with (a ++ b)%list s = true -> Js.starts_with a s = true.
Proof.
  revert s. induction a as [|x a IH]; intros s; simpl; [reflexivity|].
  destruct s as [|y s]; [discriminate|].
  intros H. apply andb_true_iff in H as [Hx Ha].
  rewrite Hx. simpl. now apply IH.
Qed.

Lemma includes_prefix (s a b : string) :
  Js.includes s (a ++ b) = true -> Js.includes s a = true.
Proof.
  unfold Js.includes. rewrite chars_append.
  induction (Js.chars s) as [|x l IH]; simpl.
  - rewrite !orb_false_r. apply starts_with_prefix.
  - intros H. apply orb_true_iff in H as [H|H].
    + apply starts_with_prefix in H. now rewrite H.
    + rewrite (IH H). apply orb_true_r.
Qed.

(** X26. An utterance that asks for escalation in Swahili, by
    mentioning kujiua, kujidhuru or msaada wa kitaalamu in any letter case,
    is sent to the service under the Swahili preamble, whatever the
    history of the conversation; the preamble is always one of the two
    fixed texts, chosen by the utterance alone. *)
Theorem swahili_escalations_get_swahili_preamble
        (input : string) (history : list Prisma.Message) :
  (Cohere.mentions input "kujiua" = true \/
   Cohere.mentions input "kujidhuru" = true \/
   Cohere.mentions input "msaada wa kitaalamu" = true ->
   Cohere.needs_escalation input = true /\
   Cohere.preamble (Cohere.chat_request input history) = Cohere.preamble_sw) /\
  (Cohere.preamble (Cohere.chat_request input history) = Cohere.preamble_sw \/
   Cohere.preamble (Cohere.chat_request input history) = Cohere.preamble_en) /\
  (forall history',
     Cohere.preamble (Cohere.chat_request input history')
     = Cohere.preamble (Cohere.chat_request input history)).
Proof.
  split; [|split].
  - intros H.
    assert (Hsw : Cohere.isSwahili input = true).
    { unfold Cohere.isSwahili, Cohere.swahiliWords. simpl.
      destruct H as [H|[H|H]]; unfold Cohere.mentions in H.
      - rewrite H. repeat (rewrite ?orb_true_r; simpl). reflexivity.
      - rewrite H. repeat (rewrite ?orb_true_r; simpl). reflexivity.
      - apply (includes_prefix _ "msaada" " wa kitaalamu") in H.
        rewrite H. repeat (rewrite ?orb_true_r; simpl). reflexivity. }
    split.
    + unfold Cohere.needs_escalation.
      destruct H as [H|[H|H]]; rewrite H;
        repeat (rewrite ?orb_true_r; simpl); reflexivity.
    + simpl. now rewrite Hsw.
  - simpl. destruct (Cohere.isSwahili input); auto.
  - reflexivity.
Qed.

(** *** A dictation *)

Lemma bind_ok {A B : Type} (m : M A) (f : A -> M B) (w w' : World) (a : A) :
  m w = (Ok a, w') -> bind m f w = f a w'.
Proof. intros H. unfold bind. now rewrite H. Qed.

Lemma ensure_classroom_finds className teacher d :
  exists classroomId d1,
    Webhook.ensure_classroom className teacher {| db := d; faults := [] |}
    = (Ok classroomId, {| db := d1; faults := [] |}) /\
    (Prisma.classrooms d1 = Prisma.classrooms d \/
     exists i name,
       className = Some name /\
       Prisma.classrooms d1 =
         (Prisma.classrooms d ++
          [{| Prisma.classroom_id := i; Prisma.classroom_name := name;
              Prisma.classroom_teacherId := teacher |}])%list) /\
    (forall name, className = Some name -> name <> EmptyString ->
                  Prisma.classroom_first name teacher d1 <> None) /\
    Prisma.students d1 = Prisma.students d /\
    Prisma.grades d1 = Prisma.grades d /\
    Prisma.messages d1 = Prisma.messages d /\
    Prisma.users d1 = Prisma.users d /\
    Prisma.calls d1 = Prisma.calls d /\
    Prisma.conversations d1 = Prisma.conversations d /\
    Prisma.escalations d1 = Prisma.escalations d.
Proof.
  unfold Webhook.ensure_classroom.
  destruct className as [[|c name]|]; simpl.
  - exists None, d. split; [reflexivity|]. split; [now left|].
    split; [intros n [= <-] Hn; congruence | repeat split].
  - unfold bind, query, exec, ret. simpl.
    destruct (Prisma.classroom_first (String c name) teacher d) as [k|] eqn:Hk.
    + exists (Some (Prisma.classroom_id k)), d.
      split; [reflexivity|]. split; [now left|].
      split; [|repeat split].
      intros n [= <-] _. rewrite Hk. discriminate.
    + simpl. eexists. eexists. split; [reflexivity|]. simpl. split.
      * right. eexists. eexists. split; reflexivity.
      * split; [|repeat split].
        intros n [= <-] _. unfold Prisma.classroom_first in *. simpl.
        rewrite (find_snoc_none _ _ _ Hk). simpl.
        now rewrite Ascii.eqb_refl, String.eqb_refl, Nat.eqb_refl.
  - exists None, d. split; [reflexivity|]. split; [now left|].
    split; [intros n [=] | repeat split].
Qed.

(** X27. With a working storage layer, a turn of a caller whose
    user has the role teacher, in a call that has a conversation, and for
    which the extractor or else the heuristic parser found entries, is
    answered with the teacher document and recorded in full: the grades of
    the entries that have a name and a numeric grade are saved, the
    confirmation with their count is stored as the newest message of the
    conversation under the role assistant, the classroom named in the
    result exists afterwards for this teacher, and calls, users,
    conversations and escalations are as they were. *)
Theorem teacher_dictation_is_recorded
        (JSON_parse : string -> result GradeExtractor.value)
        (show_number : Js.number -> string)
        (env : Webhook.Env) (speech : string) (call : Prisma.Call)
        (w : World) (caller : Prisma.User) (conv : Prisma.id)
        (Hhealthy : faults w = [])
        (Hcaller : Prisma.user_by_id (Prisma.call_userId call) (db w)
                   = Some caller)
        (Hrole : Prisma.user_role caller = "teacher")
        (Hconv : Prisma.conversationId call = Some conv)
        (Hentries : GradeExtractor.entries
                      (chosen_result JSON_parse show_number env speech)
                    <> []) :
  let p := chosen_result JSON_parse show_number env speech in
  let confirmation :=
    Webhook.confirm_text
      (List.length (filter savable (GradeExtractor.entries p))) p in
  exists d',
    Webhook.teacher_turn JSON_parse show_number env speech call w
    = (Ok (Some (Webhook.xml_response
                   (Webhook.teacher_xml
                      (Webhook.speak_reply confirmation p)))),
       {| db := d'; faults := [] |}) /\
    dictated (Prisma.user_id caller) conv p confirmation (db w) d'.
Proof.
  cbv zeta. destruct w as [d fs]. simpl in *. subst fs.
  set (p := chosen_result JSON_parse show_number env speech) in *.
  destruct (ensure_classroom_finds (GradeExtractor.className p)
              (Prisma.user_id caller) d)
    as [cid [d1 [Hensure [Hclass [Hfound [Hs1 [Hg1 [Hm1 [Hu1 [Hc1 [Hv1 He1]]]]]]]]]]].
  destruct (save_entries_saves cid (GradeExtractor.entries p) 0 d1)
    as [d2 [Hsave [[added [Hadded Hf]] Hs2 Hu2 Hc2 Hv2 Hm2 He2 Hk2]]].
  simpl in Hsave.
  exists (Prisma.add_message
            {| Prisma.msg_id := Prisma.next_id d2;
               Prisma.msg_conversationId := conv;
               Prisma.msg_role := "assistant";
               Prisma.msg_content :=
                 Webhook.confirm_text
                   (List.length (filter savable (GradeExtractor.entries p)))
                   p |} d2).
  split.
  - unfold Webhook.teacher_turn, try_catch.
    rewrite (bind_ok _ _ _ {| db := d; faults := [] |} (Some caller));
      [|unfold query, exec; simpl; now rewrite Hcaller].
    rewrite Hrole. simpl.
    rewrite (bind_ok _ _ _ _ _ (extract_grades_chosen _ _ _ _ _)).
    fold p.
    assert (Hne : negb (Webhook.is_empty (GradeExtractor.entries p)) = true).
    { destruct (GradeExtractor.entries p); [congruence | reflexivity]. }
    rewrite Hne.
    rewrite (bind_ok _ _ _ _ _ Hensure).
    rewrite (bind_ok _ _ _ _ _ Hsave). cbv zeta.
    unfold Webhook.save_confirmation. rewrite Hconv.
    unfold bind, void, exec, ret. simpl. reflexivity.
  - split; simpl.
    + exists added. split; [congruence|].
      eapply Forall2_impl; [|exact Hf].
      intros e g [H1 [H2 [s [H3 H4]]]]. split; [exact H1|].
      split; [exact H2|]. exists s. auto.
    + exists (Prisma.next_id d2). congruence.
    + rewrite Hk2. exact Hclass.
    + intros name Hn Hne. unfold Prisma.classroom_first. simpl.
      rewrite Hk2. now apply Hfound.
    + eapply grown_trans; [|exact Hs2]. rewrite Hs1. apply grown_refl.
    + congruence.
    + congruence.
    + congruence.
    + congruence.
Qed.

Lemma teacher_dictation_is_recorded_witness :
  exists d',
    Webhook.teacher_turn Scenario.JSON_parse Scenario.show_number
      Scenario.env "Class 10B: Alice 90" Scenario.call2
      {| db := Scenario.db2; faults := [] |}
    = (Ok (Some (Webhook.xml_response
                   (Webhook.teacher_xml
                      "Saved 1 grade(s) for class 10B. Would you like to add more grades?"))),
       {| db := d'; faults := [] |}) /\
    map Prisma.classroom_name (Prisma.classrooms d') = ["10B"].
Proof.
  destruct (teacher_dictation_is_recorded Scenario.JSON_parse
              Scenario.show_number Scenario.env "Class 10B: Alice 90"
              Scenario.call2 {| db := Scenario.db2; faults := [] |}
              Scenario.teacher 2 eq_refl eq_refl eq_refl eq_refl)
    as [d' [Hrun _]].
  - intros H. vm_compute in H. discriminate H.
  - exists d'. split; [exact Hrun|].
    revert Hrun. vm_compute. intros [= <-]. reflexivity.
Defined.

(** *** The summary of a conversation *)

Lemma substring0_prefix n s :
  String.length (Js.substring0 n s) <= n /\
  exists rest, s = (Js.substring0 n s ++ rest)%string.
Proof.
  revert s. induction n as [|n IH]; intros s.
  - split; [destruct s; simpl; lia|]. exists s. now destruct s.
  - destruct s as [|c s]; simpl.
    + split; [lia|]. now exists EmptyString.
    + destruct (IH s) as [Hlen [rest Hrest]]. split; [lia|].
      exists rest. now rewrite <- Hrest.
Qed.

(** X28. The summary of a conversation only reads: whatever the
    storage layer does, the database is as before. It is the fixed line
    about a missing history when the call does not exist or has no
    conversation, and otherwise it gives the number of messages of the
    conversation and, as key topics, the first 200 characters at most of
    the lines role, colon, content of those messages, always followed by
    three dots. *)
Theorem summary_is_bounded (callId : Prisma.id) (w : World) :
  match Webhook.generateConversationSummary callId w with
  | (Ok summary, w') =>
      db w' = db w /\
      ((summary = "No conversation history available." /\
        forall call, Prisma.call_by_id callId (db w) = Some call ->
                     Prisma.conversationId call = None) \/
       exists call conv topics rest,
         Prisma.call_by_id callId (db w) = Some call /\
         Prisma.conversationId call = Some conv /\
         summary =
           ("Conversation summary: " ++
            Js.of_nat (List.length (Prisma.messages_of conv (db w))) ++
            " messages exchanged. Key topics: " ++ topics ++ "...")%string /\
         String.length topics <= 200 /\
         Js.join Webhook.nl
           (map (fun m => Prisma.msg_role m ++ ": " ++ Prisma.msg_content m)
                (Prisma.messages_of conv (db w)))
         = (topics ++ rest)%string)
  | (Throw _, w') => db w' = db w
  end.
Proof.
  destruct w as [d fs].
  assert (Hcase :
            (exists call conv,
               Prisma.call_by_id callId d = Some call /\
               Prisma.conversationId call = Some conv) \/
            (forall call, Prisma.call_by_id callId d = Some call ->
                          Prisma.conversationId call = None)).
  { destruct (Prisma.call_by_id callId d) as [call|]; [|right; discriminate].
    destruct (Prisma.conversationId call) as [conv|] eqn:E.
    - left. eauto.
    - right. now intros c [= <-]. }
  assert (Hfound : forall fs',
            match
              (let found :=
                 match Prisma.call_by_id callId d with
                 | Some call =>
                     match Prisma.conversationId call with
                     | Some conv => Some (Prisma.messages_of conv d)
                     | None => None
                     end
                 | None => None
                 end in
               match found with
               | Some msgs =>
                   ("Conversation summary: " ++
                    Js.of_nat (List.length msgs) ++
                    " messages exchanged. Key topics: " ++
                    Js.substring0 200
                      (Js.join Webhook.nl
                         (map (fun m => Prisma.msg_role m ++ ": " ++
                                        Prisma.msg_content m) msgs)) ++
                    "...")%string
               | None => "No conversation history available."
               end) with
            | summary =>
                db {| db := d; faults := fs' |} = d /\
                ((summary = "No conversation history available." /\
                  forall call, Prisma.call_by_id callId d = Some call ->
                               Prisma.conversationId call = None) \/
                 exists call conv topics rest,
                   Prisma.call_by_id callId d = Some call /\
                   Prisma.conversationId call = Some conv /\
                   summary =
                     ("Conversation summary: " ++
                      Js.of_nat (List.length (Prisma.messages_of conv d)) ++
                      " messages exchanged. Key topics: " ++ topics ++
                      "...")%string /\
                   String.length topics <= 200 /\
                   Js.join Webhook.nl
                     (map (fun m => Prisma.msg_role m ++ ": " ++
                                    Prisma.msg_content m)
                          (Prisma.messages_of conv d))
                   = (topics ++ rest)%string)
            end).
  { intros fs'. cbv zeta. split; [reflexivity|].
    destruct Hcase as [[call [conv [Hc Hv]]]|Hnone].
    - right. rewrite Hc, Hv.
      destruct (substring0_prefix 200
                  (Js.join Webhook.nl
                     (map (fun m => Prisma.msg_role m ++ ": " ++
                                    Prisma.msg_content m)
                          (Prisma.messages_of conv d))))
        as [Hlen [rest Hrest]].
      eexists call, conv, _, rest.
      split; [reflexivity|]. split; [exact Hv|].
      split; [reflexivity|]. split; [exact Hlen | exact Hrest].
    - left. split; [|exact Hnone].
      destruct (Prisma.call_by_id callId d) as [call|]; [|reflexivity].
      now rewrite (Hnone call eq_refl). }
  unfold Webhook.generateConversationSummary, bind, query, exec, ret.
  cbn [faults db].
  destruct fs as [|[|] fs]; cbn [faults db]; [| reflexivity |].
  - generalize (Hfound []). cbv zeta.
    destruct (Prisma.call_by_id callId d) as [call|]; [|exact (fun H => H)].
    destruct (Prisma.conversationId call); exact (fun H => H).
  - generalize (Hfound fs). cbv zeta.
    destruct (Prisma.call_by_id callId d) as [call|]; [|exact (fun H => H)].
    destruct (Prisma.conversationId call); exact (fun H => H).
Qed.
